(** * Country snapshot service: the refresh pipeline of [server.js]

    A shallow embedding of the two server implementations kept in
    [src/server.js] (the first registers its routes on [app], the second on
    [server]) and the properties of the refresh cycle, of name
    normalisation and of the single-flight guard, then of the other routes
    (listing, lookup and deletion, status, image) and of the route table.

    Conventions of the embedding.
    - JSON and JavaScript values are the inductive [JsVal].  Numbers are
      IEEE doubles in the source; here a finite number is an exact rational
      and [NaN] is kept apart (infinities and the sign of zero are not
      modelled).
    - Strings are sequences of 8-bit characters; [trim], [toLowerCase] and
      [toUpperCase] act on the ASCII range and leave other characters as
      they are.
    - An [async] handler is a tree of operations ([Prog]): every [await],
      every access to the module variable [refreshInProgress], every call of
      [Math.random] and [new Date] is a node, answered by the world. *)

From Stdlib Require Import ZArith QArith Qround String Ascii List Bool Lia.
From Stdlib Require Import DecimalString Lqa.
Import ListNotations.

Set Warnings "-register-all".

Local Open Scope list_scope.
Local Open Scope string_scope.

(** ** JavaScript values *)

Module Js.

Inductive num : Type :=
| NaN
| Fin (q : Q).

Inductive JsVal : Type :=
| VUndefined
| VNull
| VBool (b : bool)
| VNum (x : num)
| VStr (s : string)
| VArr (items : list JsVal)
| VObj (fields : list (string * JsVal)).

Definition of_nat (n : nat) : JsVal := VNum (Fin (inject_Z (Z.of_nat n))).
Definition of_Z (z : Z) : JsVal := VNum (Fin (inject_Z z)).

(** *** String methods *)

Definition is_space (c : ascii) : bool :=
  match nat_of_ascii c with
  | 9 | 10 | 11 | 12 | 13 | 32 => true
  | _ => false
  end%nat.

Definition lower_char (c : ascii) : ascii :=
  let n := nat_of_ascii c in
  if ((65 <=? n) && (n <=? 90))%nat then ascii_of_nat (n + 32) else c.

Definition upper_char (c : ascii) : ascii :=
  let n := nat_of_ascii c in
  if ((97 <=? n) && (n <=? 122))%nat then ascii_of_nat (n - 32) else c.

Fixpoint map_chars (f : ascii -> ascii) (s : string) : string :=
  match s with
  | EmptyString => EmptyString
  | String c s' => String (f c) (map_chars f s')
  end.

Definition toLowerCase : string -> string := map_chars lower_char.
Definition toUpperCase : string -> string := map_chars upper_char.

Fixpoint trimStart (s : string) : string :=
  match s with
  | EmptyString => EmptyString
  | String c s' => if is_space c then trimStart s' else s
  end.

Fixpoint trimEnd (s : string) : string :=
  match s with
  | EmptyString => EmptyString
  | String c s' =>
      match trimEnd s' with
      | EmptyString => if is_space c then EmptyString else String c EmptyString
      | t => String c t
      end
  end.

Definition trim (s : string) : string := trimEnd (trimStart s).

(** *** Conversions

    [Number(s)] for a string [s] and [String(x)] for a number [x] are the
    language's own parser and printer; the embedding takes them from a
    [Runtime]. *)

Class Runtime : Type := {
  StringToNumber : string -> num;
  NumberToString : num -> string;
  (* [Number("")] is 0 *)
  StringToNumber_empty : StringToNumber "" = Fin 0
}.

Section Conversions.

Context {rt : Runtime}.

Fixpoint ToString (v : JsVal) : string :=
  match v with
  | VUndefined => "undefined"
  | VNull => "null"
  | VBool true => "true"
  | VBool false => "false"
  | VNum x => NumberToString x
  | VStr s => s
  | VArr items =>
      (fix join (l : list JsVal) : string :=
         match l with
         | [] => ""
         | x :: rest =>
             let sx := match x with
                       | VUndefined | VNull => ""
                       | _ => ToString x
                       end in
             match rest with
             | [] => sx
             | _ :: _ => sx ++ "," ++ join rest
             end
         end) items
  | VObj _ => "[object Object]"
  end.

Definition ToNumber (v : JsVal) : num :=
  match v with
  | VUndefined => NaN
  | VNull => Fin 0
  | VBool true => Fin 1
  | VBool false => Fin 0
  | VNum x => x
  | VStr s => StringToNumber s
  | VArr _ => StringToNumber (ToString v)
  | VObj _ => NaN
  end.

End Conversions.

(** [ToBoolean]. *)
Definition truthy (v : JsVal) : bool :=
  match v with
  | VUndefined | VNull => false
  | VBool b => b
  | VNum NaN => false
  | VNum (Fin q) => negb (Qeq_bool q 0)
  | VStr s => negb (s =? "")
  | VArr _ | VObj _ => true
  end.

(** [v == null]. *)
Definition nullish (v : JsVal) : bool :=
  match v with
  | VUndefined | VNull => true
  | _ => false
  end.

Definition isArray (v : JsVal) : bool :=
  match v with
  | VArr _ => true
  | _ => false
  end.

(** [a || b] and the arithmetic of the source. *)
Definition or_else (a b : JsVal) : JsVal := if truthy a then a else b.

Definition num_mul (x y : num) : num :=
  match x, y with
  | Fin a, Fin b => Fin (a * b)
  | _, _ => NaN
  end.

(** A zero divisor does not reach the division in the source (it is
    tested first); the quotient is then left as [NaN]. *)
Definition num_div (x y : num) : num :=
  match x, y with
  | Fin a, Fin b => if Qeq_bool b 0 then NaN else Fin (a / b)
  | _, _ => NaN
  end.

(** [x === 0] on numbers. *)
Definition num_is_zero (x : num) : bool :=
  match x with
  | NaN => false
  | Fin q => Qeq_bool q 0
  end.

(** *** Properties of objects

    [JSON.parse] keeps the last of several members with one key. *)

Fixpoint assoc_last (k : string) (fields : list (string * JsVal)) : option JsVal :=
  match fields with
  | [] => None
  | (k', v) :: rest =>
      match assoc_last k rest with
      | Some x => Some x
      | None => if k' =? k then Some v else None
      end
  end.

Definition index_key (i : nat) : string := NilEmpty.string_of_uint (Nat.to_uint i).

Fixpoint own_index {A : Type} (k : string) (i : nat) (l : list A) : option A :=
  match l with
  | [] => None
  | x :: rest => if index_key i =? k then Some x else own_index k (S i) rest
  end.

Definition chars (s : string) : list JsVal :=
  map (fun c => VStr (String c EmptyString)) (list_ascii_of_string s).

(** The own properties that [Object.prototype.hasOwnProperty.call(v, k)]
    sees: the members of an object, the indices and [length] of an array
    or of a string. *)
Definition own_property (v : JsVal) (k : string) : option JsVal :=
  match v with
  | VObj fields => assoc_last k fields
  | VArr items =>
      if k =? "length" then Some (of_nat (List.length items)) else own_index k 0 items
  | VStr s =>
      if k =? "length" then Some (of_nat (String.length s)) else own_index k 0 (chars s)
  | _ => None
  end.

Definition hasOwnProperty (v : JsVal) (k : string) : bool :=
  match own_property v k with
  | Some _ => true
  | None => false
  end.

(** [v.k] and [v[k]] for a receiver that is neither [null] nor
    [undefined].  The keys read by the source ([name], [population],
    [capital], [region], [flag], [currencies], [code], [rates],
    [conversion_rates]) are not inherited from any prototype of a JSON
    value, and [rates[code]] is read only after [hasOwnProperty]. *)
Definition get (v : JsVal) (k : string) : JsVal :=
  match own_property v k with
  | Some x => x
  | None => VUndefined
  end.

(** [items[0]]. *)
Definition first (v : JsVal) : JsVal :=
  match v with
  | VArr (x :: _) => x
  | _ => VUndefined
  end.

Definition array_length (v : JsVal) : nat :=
  match v with
  | VArr items => List.length items
  | _ => 0
  end.

Definition elements (v : JsVal) : list JsVal :=
  match v with
  | VArr items => items
  | _ => []
  end.

End Js.

Import Js.

(** ** Storage: the [countries] and [meta] tables *)

(** An instant, identified with its ISO-8601 rendering ([toISOString]). *)
Definition Date : Type := string.

Module Db.

(** One row of [countries], in the order of the columns of the [INSERT]. *)
Record Row : Type := {
  name : JsVal;
  normalized_name : string;
  capital : JsVal;
  region : JsVal;
  population : JsVal;
  currency_code : JsVal;
  exchange_rate : JsVal;
  estimated_gdp : JsVal;
  flag_url : JsVal;
  last_refreshed_at : Date
}.

Record Tables : Type := {
  countries : list Row;
  meta : list (string * string)
}.

Inductive Stmt : Type :=
| UpsertCountry (r : Row)
| UpsertMeta (key value : string).

(** The assignments of [ON DUPLICATE KEY UPDATE]: every column of the new
    row but [normalized_name], which the statement does not list. *)
Definition on_duplicate_key_update (old new : Row) : Row :=
  {| name := name new;
     normalized_name := normalized_name old;
     capital := capital new;
     region := region new;
     population := population new;
     currency_code := currency_code new;
     exchange_rate := exchange_rate new;
     estimated_gdp := estimated_gdp new;
     flag_url := flag_url new;
     last_refreshed_at := last_refreshed_at new |}.

(** Modelled from the spec: the schema of [countries] is not part of the
    sources; section 3 makes [normalizedName] unique, and that unique key
    is the one on which the [INSERT] finds its duplicate. *)
Definition duplicate_key (old new : Row) : bool :=
  normalized_name old =? normalized_name new.

Fixpoint upsert_country (r : Row) (t : list Row) : list Row :=
  match t with
  | [] => [r]
  | x :: rest =>
      if duplicate_key x r then on_duplicate_key_update x r :: rest
      else x :: upsert_country r rest
  end.

(** [meta] has [key] as its key. *)
Fixpoint upsert_meta (key value : string) (m : list (string * string)) : list (string * string) :=
  match m with
  | [] => [(key, value)]
  | (k, v) :: rest =>
      if k =? key then (k, value) :: rest else (k, v) :: upsert_meta key value rest
  end.

Definition apply (t : Tables) (s : Stmt) : Tables :=
  match s with
  | UpsertCountry r => {| countries := upsert_country r (countries t); meta := meta t |}
  | UpsertMeta key value => {| countries := countries t; meta := upsert_meta key value (meta t) |}
  end.

Definition apply_all (t : Tables) (l : list Stmt) : Tables := fold_left apply l t.

(** [SELECT ... WHERE normalized_name = ?] and the matching [DELETE]. *)
Definition select_by_name (n : string) (t : list Row) : list Row :=
  filter (fun r => normalized_name r =? n) t.

Definition delete_by_name (n : string) (t : list Row) : list Row :=
  filter (fun r => negb (normalized_name r =? n)) t.

Fixpoint lookup_meta (key : string) (m : list (string * string)) : option string :=
  match m with
  | [] => None
  | (k, v) :: rest => if k =? key then Some v else lookup_meta key rest
  end.

(** [WHERE estimated_gdp IS NOT NULL ORDER BY estimated_gdp DESC LIMIT 5]. *)
Definition gdp_leb (a b : JsVal) : bool :=
  match a, b with
  | VNum (Fin x), VNum (Fin y) => Qle_bool x y
  | VNum (Fin _), _ => false
  | _, _ => true
  end.

Fixpoint insert_desc (r : Row) (l : list Row) : list Row :=
  match l with
  | [] => [r]
  | x :: rest =>
      if gdp_leb (estimated_gdp r) (estimated_gdp x) then x :: insert_desc r rest
      else r :: l
  end.

Definition order_by_gdp_desc (t : list Row) : list Row := fold_right insert_desc [] t.

Definition top5 (t : list Row) : list (JsVal * JsVal) :=
  map (fun r => (name r, estimated_gdp r))
      (firstn 5 (order_by_gdp_desc (filter (fun r => negb (nullish (estimated_gdp r))) t))).

End Db.

(** ** Exceptions and responses *)

(** What the handlers throw and catch: the literal [{ api: ... }] of the
    fetch stage, or an [Error] instance, of which the handlers read the
    [name] only. *)
Inductive Thrown : Type :=
| ApiUnavailable (api : string)
| JsError (name : string).

Definition err_api (e : Thrown) : JsVal :=
  match e with
  | ApiUnavailable api => VStr api
  | JsError _ => VUndefined
  end.

Definition err_name (e : Thrown) : JsVal :=
  match e with
  | ApiUnavailable _ => VUndefined
  | JsError name => VStr name
  end.

Definition TypeError : Thrown := JsError "TypeError".
Definition AbortError : Thrown := JsError "AbortError".
Definition SyntaxError : Thrown := JsError "SyntaxError".

(** The mysql2 driver and its pool reject with plain [Error] instances. *)
Definition DriverError : Thrown := JsError "Error".

(** [v === s] for a string literal [s]. *)
Definition is_string (v : JsVal) (s : string) : bool :=
  match v with
  | VStr t => t =? s
  | _ => false
  end.

Record Response : Type := {
  status : Z;
  body : JsVal
}.

(** [res.json(body)]. *)
Definition json (b : JsVal) : Response := {| status := 200; body := b |}.

Definition jsonError (st : Z) (message : string) (details : option string) : Response :=
  {| status := st;
     body := VObj (("error", VStr message) ::
                   match details with
                   | Some d => [("details", VStr d)]
                   | None => []
                   end) |}.

(** ** The operations of a handler *)

Definition Conn : Type := nat.

Inductive Op : Type :=
| GetRefreshInProgress
| SetRefreshInProgress (b : bool)
| MathRandom
| NewDate
| FetchAll
| GetConnection
| BeginTransaction (c : Conn)
| Execute (c : Conn) (s : Db.Stmt)
| Commit (c : Conn)
| Rollback (c : Conn)
| Release (c : Conn)
| QueryCount
| QueryTop5
| GenerateSummaryImage (totalCount : JsVal) (top5 : list (JsVal * JsVal)) (timestampIso : string)
| SelectByName (normalized : string)
| DeleteByName (normalized : string).

(** The value an operation hands back; an [await] that can reject hands
    back a sum, [inl] for the rejection. *)
Definition Ans (o : Op) : Type :=
  match o with
  | GetRefreshInProgress => bool
  | SetRefreshInProgress _ => unit
  | MathRandom => Q
  | NewDate => Date
  | FetchAll => Thrown + (JsVal * JsVal)
  | GetConnection => Thrown + Conn
  | BeginTransaction _ | Execute _ _ | Commit _ | Rollback _ => Thrown + unit
  | Release _ => unit
  | QueryCount => Thrown + JsVal
  | QueryTop5 => Thrown + list (JsVal * JsVal)
  | GenerateSummaryImage _ _ _ => Thrown + unit
  | SelectByName _ => Thrown + list Db.Row
  | DeleteByName _ => Thrown + nat
  end.

(** The operations at which a handler is suspended ([await]); the others
    run to completion within the current turn of the event loop. *)
Definition is_await (o : Op) : bool :=
  match o with
  | GetRefreshInProgress | SetRefreshInProgress _ | MathRandom | NewDate | Release _ => false
  | _ => true
  end.

Inductive Prog (R : Type) : Type :=
| Ret (r : R)
| Vis (o : Op) (k : Ans o -> Prog R).

Arguments Ret {R} r.
Arguments Vis {R} o k.

Fixpoint bind {A B : Type} (m : Prog A) (f : A -> Prog B) : Prog B :=
  match m with
  | Ret a => f a
  | Vis o k => Vis o (fun x => bind (k x) f)
  end.

Definition call (o : Op) : Prog (Ans o) := Vis o Ret.

(** A computation that may throw. *)
Definition M (A : Type) : Type := Prog (Thrown + A).

Definition pure {A : Type} (a : A) : M A := Ret (inr a).
Definition throw {A : Type} (e : Thrown) : M A := Ret (inl e).
Definition lift {A : Type} (r : Thrown + A) : M A := Ret r.

Definition bindE {A B : Type} (m : M A) (f : A -> M B) : M B :=
  bind m (fun r => match r with
                   | inl e => Ret (inl e)
                   | inr a => f a
                   end).

Declare Scope prog_scope.
Delimit Scope prog_scope with prog.
Notation "x <- m ;; k" := (bind m (fun x => k))
  (at level 61, m at next level, right associativity) : prog_scope.
Notation "' p <- m ;; k" := (bind m (fun x => match x with p => k end))
  (at level 61, p pattern, m at next level, right associativity) : prog_scope.
Notation "x <-! m ;; k" := (bindE m (fun x => k))
  (at level 61, m at next level, right associativity) : prog_scope.
Notation "' p <-! m ;; k" := (bindE m (fun x => match x with p => k end))
  (at level 61, p pattern, m at next level, right associativity) : prog_scope.
Local Open Scope prog_scope.

(** ** The world a handler runs in *)

Inductive HttpReply : Type :=
| Aborted                                          (* the timer fired: [controller.abort()] *)
| NetworkError
| Replied (status : Z) (payload : option JsVal).   (* [None]: [res.json()] rejects *)

(** [fetchWithTimeout], as a function of what the remote end does. *)
Definition fetchWithTimeout (r : HttpReply) : Thrown + JsVal :=
  match r with
  | Aborted => inl AbortError
  | NetworkError => inl (JsError "FetchError")
  | Replied st payload =>
      if negb ((200 <=? st) && (st <=? 299))%Z then inl (JsError "Error")
      else match payload with
           | Some v => inr v
           | None => inl SyntaxError
           end
  end.

(** [p.catch(() => { throw { api }; })]. *)
Definition tagged (api : string) (r : Thrown + JsVal) : Thrown + JsVal :=
  match r with
  | inl _ => inl (ApiUnavailable api)
  | inr v => inr v
  end.

(** [Promise.all] of two promises rejects with the rejection that comes
    first. *)
Definition promise_all (a b : Thrown + JsVal) (b_first : bool) : Thrown + (JsVal * JsVal) :=
  match a, b with
  | inr x, inr y => inr (x, y)
  | inl e, inr _ => inl e
  | inr _, inl e => inl e
  | inl ea, inl eb => inl (if b_first then eb else ea)
  end.

(** What the outside decides when an operation is answered. *)
Record Choice : Type := {
  countries_reply : HttpReply;
  rates_reply : HttpReply;
  rates_settles_first : bool;
  db_rejects : bool;
  render_rejects : bool;
  random : Q;
  now : Date
}.

Record Summary : Type := {
  shown_total : JsVal;
  shown_top5 : list (JsVal * JsVal);
  shown_timestamp : string
}.

(** A connection is in autocommit mode ([None]) or inside a transaction
    whose statements are pending. *)
Definition ConnState : Type := option (list Db.Stmt).

Record World : Type := {
  refreshInProgress : bool;
  tables : Db.Tables;
  connections : list ConnState;
  summary_image : option Summary
}.

Definition with_guard (b : bool) (w : World) : World :=
  {| refreshInProgress := b; tables := tables w;
     connections := connections w; summary_image := summary_image w |}.

Definition with_tables (t : Db.Tables) (w : World) : World :=
  {| refreshInProgress := refreshInProgress w; tables := t;
     connections := connections w; summary_image := summary_image w |}.

Definition with_connections (cs : list ConnState) (w : World) : World :=
  {| refreshInProgress := refreshInProgress w; tables := tables w;
     connections := cs; summary_image := summary_image w |}.

Definition with_image (s : Summary) (w : World) : World :=
  {| refreshInProgress := refreshInProgress w; tables := tables w;
     connections := connections w; summary_image := Some s |}.

Fixpoint set_conn (c : Conn) (st : ConnState) (cs : list ConnState) : list ConnState :=
  match cs, c with
  | [], _ => []
  | _ :: rest, O => st :: rest
  | x :: rest, S c' => x :: set_conn c' st rest
  end.

Definition conn_state (w : World) (c : Conn) : ConnState := nth c (connections w) None.

Definition pending (w : World) (c : Conn) : list Db.Stmt :=
  match conn_state w c with
  | Some l => l
  | None => []
  end.

Definition rejected {A : Type} : Thrown + A := inl DriverError.

(** The answer of the world to one operation. *)
Definition perform (ch : Choice) (w : World) (o : Op) : World * Ans o :=
  match o return World * Ans o with
  | GetRefreshInProgress => (w, refreshInProgress w)
  | SetRefreshInProgress b => (with_guard b w, tt)
  | MathRandom => (w, random ch)
  | NewDate => (w, now ch)
  | FetchAll =>
      (w, promise_all (tagged "Countries API" (fetchWithTimeout (countries_reply ch)))
                      (tagged "Exchange Rates API" (fetchWithTimeout (rates_reply ch)))
                      (rates_settles_first ch))
  | GetConnection =>
      if db_rejects ch then (w, rejected)
      else (with_connections (connections w ++ [None])%list w, inr (List.length (connections w)))
  | BeginTransaction c =>
      if db_rejects ch then (w, rejected)
      else (with_connections (set_conn c (Some []) (connections w))
              (with_tables (Db.apply_all (tables w) (pending w c)) w), inr tt)
  | Execute c s =>
      if db_rejects ch then (w, rejected)
      else match conn_state w c with
           | Some l => (with_connections (set_conn c (Some (l ++ [s])%list) (connections w)) w, inr tt)
           | None => (with_tables (Db.apply (tables w) s) w, inr tt)
           end
  | Commit c =>
      if db_rejects ch then (w, rejected)
      else (with_connections (set_conn c None (connections w))
              (with_tables (Db.apply_all (tables w) (pending w c)) w), inr tt)
  | Rollback c =>
      if db_rejects ch then (w, rejected)
      else (with_connections (set_conn c None (connections w)) w, inr tt)
  | Release c => (w, tt)
  | QueryCount =>
      if db_rejects ch then (w, rejected)
      else (w, inr (of_nat (List.length (Db.countries (tables w)))))
  | QueryTop5 =>
      if db_rejects ch then (w, rejected)
      else (w, inr (Db.top5 (Db.countries (tables w))))
  | GenerateSummaryImage total top ts =>
      if render_rejects ch then (w, inl (JsError "Error"))
      else (with_image {| shown_total := total; shown_top5 := top; shown_timestamp := ts |} w, inr tt)
  | SelectByName n =>
      if db_rejects ch then (w, rejected)
      else (w, inr (Db.select_by_name n (Db.countries (tables w))))
  | DeleteByName n =>
      if db_rejects ch then (w, rejected)
      else let hit := Db.select_by_name n (Db.countries (tables w)) in
           (with_tables {| Db.countries := Db.delete_by_name n (Db.countries (tables w));
                           Db.meta := Db.meta (tables w) |} w,
            inr (List.length hit))
  end.

Arguments perform : simpl never.

(** One operation with its answer, as it happened. *)
Definition Event : Type := { o : Op & Ans o }.

(** A handler run on its own from [w]: the [n]-th operation is answered
    under the choice [env n]. *)
Fixpoint exec {R : Type} (env : nat -> Choice) (n : nat) (w : World) (p : Prog R)
  : World * list Event * R :=
  match p with
  | Ret r => (w, [], r)
  | Vis o k =>
      let (w1, x) := perform (env n) w o in
      let '(w2, tr, r) := exec env (S n) w1 (k x) in
      (w2, existT _ o x :: tr, r)
  end.

Definition final {R : Type} (run : World * list Event * R) : World := fst (fst run).
Definition trace {R : Type} (run : World * list Event * R) : list Event := snd (fst run).
Definition result {R : Type} (run : World * list Event * R) : R := snd run.

(** ** Functions shared by the two implementations

    [jsonError], [normalizeName], [randomMultiplier], [fetchWithTimeout],
    the normalisation of the rate mapping and the last three lines of the
    outer [catch] are the same text in both. *)

(** [(name || "").trim().toLowerCase()]; a value without a [trim] method
    makes the call throw. *)
Definition normalizeName (name : JsVal) : Thrown + string :=
  match or_else name (VStr "") with
  | VStr s => inr (toLowerCase (trim s))
  | _ => inl TypeError
  end.

(** [Math.floor(Math.random() * 1001) + 1000]. *)
Definition randomMultiplier : Prog Z :=
  u <- call MathRandom;;
  Ret (Qfloor (u * 1001) + 1000)%Z.

(** [ratesData && (ratesData.rates || ratesData.conversion_rates)
      ? (ratesData.rates || ratesData.conversion_rates) : {}]. *)
Definition rates_of (ratesData : JsVal) : JsVal :=
  let found := or_else (get ratesData "rates") (get ratesData "conversion_rates") in
  if truthy ratesData && truthy found then found else VObj [].

(** The test on [c.currencies] that guards the assignment of
    [currency_code], and the value assigned. *)
Definition has_currency_code (c : JsVal) : bool :=
  isArray (get c "currencies")
  && (0 <? array_length (get c "currencies"))%nat
  && truthy (first (get c "currencies"))
  && truthy (get (first (get c "currencies")) "code").

Definition first_currency_code {rt : Runtime} (c : JsVal) : string :=
  toUpperCase (trim (ToString (get (first (get c "currencies")) "code"))).

(** The classification at the end of the outer [catch]. *)
Definition error_response {rt : Runtime} (err : Thrown) : Response :=
  if truthy (err_api err) then
    jsonError 503 "External data source unavailable"
              (Some ("Could not fetch data from " ++ ToString (err_api err)))
  else if is_string (err_name err) "AbortError" then
    jsonError 503 "External data source unavailable" (Some "Fetch timed out")
  else jsonError 500 "Internal server error" None.

Definition refresh_successful (total : JsVal) (lastRef : Date) : Response :=
  json (VObj [("message", VStr "Refresh successful");
              ("total_countries", total);
              ("last_refreshed_at", VStr lastRef)]).

Definition already_in_progress : Response :=
  jsonError 409 "Refresh already in progress" None.

(** What one turn of the loop over the catalog decides for its entry. *)
Definition Derived : Type := option Db.Row.

(** The loop over the catalog and the transaction around it are the same
    text in both implementations, up to the derivation of the entry (and a
    counter [processed] that the second keeps and never reads): the entry is
    derived, passed over on [continue], or sent to the store as an upsert;
    after the loop the handler writes the time of the refresh, commits,
    counts, ranks, renders (an exception of the renderer is caught and
    dropped), clears the guard and answers. *)
Fixpoint upsert_each (derive : JsVal -> M Derived) (conn : Conn) (catalog : list JsVal)
  : M unit :=
  match catalog with
  | [] => pure tt
  | c :: rest =>
      d <-! derive c;;
      match d with
      | None => upsert_each derive conn rest
      | Some row =>
          _ <-! call (Execute conn (Db.UpsertCountry row));;
          upsert_each derive conn rest
      end
  end.

Definition transaction_with (derive : JsVal -> M Derived) (conn : Conn) (catalog : list JsVal)
  : M Response :=
  _ <-! call (BeginTransaction conn);;
  _ <-! upsert_each derive conn catalog;;
  lastRef <- call NewDate;;
  _ <-! call (Execute conn (Db.UpsertMeta "last_refreshed_at" lastRef));;
  _ <-! call (Commit conn);;
  total <-! call QueryCount;;
  top5 <-! call QueryTop5;;
  _ <- call (GenerateSummaryImage total top5 lastRef);;
  _ <- call (SetRefreshInProgress false);;
  pure (refresh_successful total lastRef).

(** ** The first implementation (routes on [app]) *)

Module App.

Definition computeEstimatedGDP {rt : Runtime} (population exchangeRate : JsVal) : Prog JsVal :=
  if negb (truthy population) || negb (truthy exchangeRate)
     || num_is_zero (ToNumber exchangeRate)
  then Ret VNull
  else
    multiplier <- randomMultiplier;;
    Ret (VNum (num_div (num_mul (ToNumber population) (Fin (inject_Z multiplier)))
                       (ToNumber exchangeRate))).

(** [exchange_rate] and [estimated_gdp]: their initial values [null] and
    [0], and the [if] that may assign them. *)
Definition resolve {rt : Runtime} (population : JsVal) (currency_code : string) (rates : JsVal)
  : Prog (JsVal * JsVal) :=
  if negb (currency_code =? "N/A") && hasOwnProperty rates currency_code then
    gdp <- computeEstimatedGDP population (get rates currency_code);;
    Ret (get rates currency_code, gdp)
  else Ret (VNull, of_Z 0).

(** The body of [for (const c of countriesData)] up to the statement it
    sends: [None] is [continue]. *)
Definition derive {rt : Runtime} (c rates : JsVal) : M Derived :=
  if nullish c then throw TypeError else
  let name := or_else (get c "name") VNull in
  let population := if negb (nullish (get c "population")) then get c "population" else VNull in
  if negb (truthy name) || nullish population then pure None else
  let capital := or_else (get c "capital") VNull in
  let region := or_else (get c "region") VNull in
  let flag_url := or_else (get c "flag") VNull in
  let currency_code := if has_currency_code c then first_currency_code c else "N/A" in
  '(exchange_rate, estimated_gdp) <- resolve population currency_code rates;;
  normalized <-! lift (normalizeName name);;
  last_refreshed_at <- call NewDate;;
  pure (Some {| Db.name := name;
                Db.normalized_name := normalized;
                Db.capital := capital;
                Db.region := region;
                Db.population := population;
                Db.currency_code := VStr currency_code;
                Db.exchange_rate := exchange_rate;
                Db.estimated_gdp := estimated_gdp;
                Db.flag_url := flag_url;
                Db.last_refreshed_at := last_refreshed_at |}).

Definition upsert_all {rt : Runtime} (conn : Conn) (rates : JsVal) (countriesData : list JsVal)
  : M unit :=
  upsert_each (fun c => derive c rates) conn countriesData.

Definition transaction {rt : Runtime} (conn : Conn) (rates : JsVal) (countriesData : list JsVal)
  : M Response :=
  transaction_with (fun c => derive c rates) conn countriesData.

(** The [catch] of the handler; [conn] is still [undefined] when the
    exception comes from before [pool.getConnection()] has returned. *)
Definition refresh_catch {rt : Runtime} (conn : option Conn) (err : Thrown) : Prog Response :=
  _ <- call (SetRefreshInProgress false);;
  _ <- match conn with
       | Some c => _ <- call (Rollback c);; call (Release c)
       | None => Ret tt
       end;;
  Ret (error_response err).

Definition refresh {rt : Runtime} : Prog Response :=
  inProgress <- call GetRefreshInProgress;;
  if inProgress then Ret already_in_progress else
  _ <- call (SetRefreshInProgress true);;
  fetched <- call FetchAll;;
  match fetched with
  | inl err => refresh_catch None err
  | inr (countriesData, ratesData) =>
      if negb (isArray countriesData) then refresh_catch None (ApiUnavailable "Countries API")
      else
        let rates := rates_of ratesData in
        got <- call GetConnection;;
        match got with
        | inl err => refresh_catch None err
        | inr conn =>
            done <- transaction conn rates (elements countriesData);;
            match done with
            | inl err => refresh_catch (Some conn) err
            | inr response => Ret response
            end
        end
  end.

End App.

(** ** The second implementation (routes on [server]) *)

Module Server.

Definition computeEstimatedGDP {rt : Runtime} (population exchangeRate : JsVal) : Prog JsVal :=
  if nullish population then Ret VNull
  else if nullish exchangeRate then Ret VNull
  else if num_is_zero (ToNumber exchangeRate) then Ret VNull
  else
    multiplier <- randomMultiplier;;
    Ret (VNum (num_div (num_mul (ToNumber population) (Fin (inject_Z multiplier)))
                       (ToNumber exchangeRate))).

(** [exchange_rate] and [estimated_gdp]: the [if (!currency_code)] and
    its [else]. *)
Definition resolve {rt : Runtime} (population currency_code ratesObj : JsVal)
  : Prog (JsVal * JsVal) :=
  if negb (truthy currency_code) then Ret (VNull, of_Z 0)
  else if hasOwnProperty ratesObj (ToString currency_code) then
    gdp <- computeEstimatedGDP population (get ratesObj (ToString currency_code));;
    Ret (get ratesObj (ToString currency_code), gdp)
  else Ret (VNull, VNull).

Definition derive {rt : Runtime} (c ratesObj : JsVal) : M Derived :=
  if nullish c then throw TypeError else
  let name := or_else (get c "name") VNull in
  let population := if negb (nullish (get c "population")) then get c "population" else VNull in
  let capital := or_else (get c "capital") VNull in
  let region := or_else (get c "region") VNull in
  let flag_url := or_else (get c "flag") VNull in
  if negb (truthy name) || nullish population then pure None else
  let currency_code := if has_currency_code c then VStr (first_currency_code c) else VNull in
  '(exchange_rate, estimated_gdp) <- resolve population currency_code ratesObj;;
  normalized <-! lift (normalizeName name);;
  last_refreshed_at <- call NewDate;;
  pure (Some {| Db.name := name;
                Db.normalized_name := normalized;
                Db.capital := capital;
                Db.region := region;
                Db.population := population;
                Db.currency_code := currency_code;
                Db.exchange_rate := exchange_rate;
                Db.estimated_gdp := estimated_gdp;
                Db.flag_url := flag_url;
                Db.last_refreshed_at := last_refreshed_at |}).

Definition upsert_all {rt : Runtime} (conn : Conn) (ratesObj : JsVal)
  (countriesResp : list JsVal) : M unit :=
  upsert_each (fun c => derive c ratesObj) conn countriesResp.

Definition transaction {rt : Runtime} (conn : Conn) (ratesObj : JsVal)
  (countriesResp : list JsVal) : M Response :=
  transaction_with (fun c => derive c ratesObj) conn countriesResp.

Definition refresh {rt : Runtime} : Prog Response :=
  inProgress <- call GetRefreshInProgress;;
  if inProgress then Ret already_in_progress else
  _ <- call (SetRefreshInProgress true);;
  outer <- (' (countriesResp, ratesResp) <-! call FetchAll;;
            if negb (isArray countriesResp) then throw (ApiUnavailable "Countries API") else
            let ratesObj := rates_of ratesResp in
            conn <-! call GetConnection;;
            inner <- transaction conn ratesObj (elements countriesResp);;
            response <- match inner with
                        | inr response => Ret response
                        | inl dbErr =>
                            _ <- call (Rollback conn);;
                            _ <- call (SetRefreshInProgress false);;
                            Ret (jsonError 500 "Internal server error" None)
                        end;;
            _ <- call (Release conn);;
            pure response);;
  match outer with
  | inr response => Ret response
  | inl err =>
      _ <- call (SetRefreshInProgress false);;
      Ret (error_response err)
  end.

End Server.

(** ** Lookup and deletion by name

    [GET /countries/:name] and [DELETE /countries/:name]; the two
    implementations differ in spelling only.  The route parameter is a
    string.  The selected columns leave [normalized_name] out. *)

Definition row_json (r : Db.Row) : JsVal :=
  VObj [("name", Db.name r);
        ("capital", Db.capital r);
        ("region", Db.region r);
        ("population", Db.population r);
        ("currency_code", Db.currency_code r);
        ("exchange_rate", Db.exchange_rate r);
        ("estimated_gdp", Db.estimated_gdp r);
        ("flag_url", Db.flag_url r);
        ("last_refreshed_at", VStr (Db.last_refreshed_at r))].

Definition internal_error : Response := jsonError 500 "Internal server error" None.
Definition not_found : Response := jsonError 404 "Country not found" None.
Definition deleted : Response := json (VObj [("message", VStr "Deleted")]).

Definition get_country (param : string) : Prog Response :=
  tried <- (normalized <-! lift (normalizeName (VStr param));;
            rows <-! call (SelectByName normalized);;
            match rows with
            | [] => pure not_found
            | row :: _ => pure (json (row_json row))
            end);;
  match tried with
  | inr response => Ret response
  | inl _ => Ret internal_error
  end.

Definition delete_country (param : string) : Prog Response :=
  tried <- (normalized <-! lift (normalizeName (VStr param));;
            affectedRows <-! call (DeleteByName normalized);;
            if (affectedRows =? 0)%nat then pure not_found else pure deleted);;
  match tried with
  | inr response => Ret response
  | inl _ => Ret internal_error
  end.

(** ** Handlers side by side

    The process runs one handler at a time and switches at an [await]
    only.  [settle] runs a handler to its next [await] (or to its end);
    [resume] answers the [await] it is suspended at and goes on from
    there. *)

Fixpoint settle {R : Type} (env : nat -> Choice) (n : nat) (w : World) (p : Prog R)
  : World * Prog R :=
  match p with
  | Ret r => (w, Ret r)
  | Vis o k =>
      if is_await o then (w, p)
      else let (w1, x) := perform (env n) w o in settle env (S n) w1 (k x)
  end.

Definition resume {R : Type} (env : nat -> Choice) (w : World) (p : Prog R) : World * Prog R :=
  match p with
  | Ret r => (w, Ret r)
  | Vis o k => let (w1, x) := perform (env 0%nat) w o in settle env 1 w1 (k x)
  end.

Record Process : Type := {
  world : World;
  suspended : list (Prog Response);
  sent : list Response
}.

(** A handler leaves the turn suspended, between [before] and [after], or
    finished, its response sent. *)
Definition still_suspended (p : Prog Response) : list (Prog Response) :=
  match p with
  | Ret _ => []
  | Vis _ _ => [p]
  end.

Definition answered (p : Prog Response) : list Response :=
  match p with
  | Ret r => [r]
  | Vis _ _ => []
  end.

Definition yield (s : Process) (before after : list (Prog Response))
  (turn : World * Prog Response) : Process :=
  {| world := fst turn;
     suspended := (before ++ still_suspended (snd turn) ++ after)%list;
     sent := (sent s ++ answered (snd turn))%list |}.

Inductive Request : Type :=
| PostRefresh
| GetCountry (param : string)
| DeleteCountry (param : string).

Section Routes.

(** The handler of [POST /countries/refresh]: [App.refresh] or
    [Server.refresh]. *)
Variable refresh : Prog Response.

Definition handler (r : Request) : Prog Response :=
  match r with
  | PostRefresh => refresh
  | GetCountry param => get_country param
  | DeleteCountry param => delete_country param
  end.

Definition arrive (env : nat -> Choice) (r : Request) (s : Process) : Process :=
  yield s (suspended s) [] (settle env 0 (world s) (handler r)).

Inductive step : Process -> Process -> Prop :=
| step_arrive (env : nat -> Choice) (r : Request) (s : Process) :
    step s (arrive env r s)
| step_resume (env : nat -> Choice) (s : Process) (before after : list (Prog Response))
    (p : Prog Response) :
    suspended s = (before ++ p :: after)%list ->
    step s (yield s before after (resume env (world s) p)).

Inductive reachable (s0 : Process) : Process -> Prop :=
| reachable_start : reachable s0 s0
| reachable_step (s s' : Process) : reachable s0 s -> step s s' -> reachable s0 s'.

End Routes.

(** *** The discipline of the guard *)

Definition touches_guard (o : Op) : bool :=
  match o with
  | GetRefreshInProgress | SetRefreshInProgress _ => true
  | _ => false
  end.

(** What is left of a handler that does not hold the guard: it neither
    reads nor writes [refreshInProgress], and what it returns satisfies
    [Q]. *)
Inductive cleared {R : Type} (Q : R -> Prop) : Prog R -> Prop :=
| cleared_ret (r : R) : Q r -> cleared Q (Ret r)
| cleared_vis (o : Op) (k : Ans o -> Prog R) :
    touches_guard o = false -> (forall x, cleared Q (k x)) -> cleared Q (Vis o k).


Definition released {R : Type} (p : Prog R) : Prop := cleared (fun _ => True) p.




(** At most one suspended handler is [Running], and the flag says whether
    there is one. *)
Definition idle (s : Process) : Prop :=
  refreshInProgress (world s) = false /\ Forall released (suspended s).




Definition boot (w : World) : Process := {| world := w; suspended := []; sent := [] |}.


(** ** Predicates on traces *)

Definition is_rejection {o : Op} : Ans o -> bool :=
  match o return Ans o -> bool with
  | FetchAll | GetConnection | BeginTransaction _ | Execute _ _ | Commit _ | Rollback _
  | QueryCount | QueryTop5 | GenerateSummaryImage _ _ _ | SelectByName _ | DeleteByName _ =>
      fun a => match a with inl _ => true | inr _ => false end
  | _ => fun _ => false
  end.

(** A statement sent on a connection ([conn.execute]) that was rejected. *)
Definition failed_statement (e : Event) : bool :=
  match projT1 e with
  | Execute _ _ => is_rejection (projT2 e)
  | _ => false
  end.

(** Any use of the store, successful or not. *)
Definition storage_call (e : Event) : bool :=
  match projT1 e with
  | GetConnection | BeginTransaction _ | Execute _ _ | Commit _ | Rollback _ | Release _
  | QueryCount | QueryTop5 | SelectByName _ | DeleteByName _ => true
  | _ => false
  end.

Definition committed (e : Event) : bool :=
  match projT1 e with
  | Commit _ => negb (is_rejection (projT2 e))
  | _ => false
  end.

Definition rolled_back (e : Event) : bool :=
  match projT1 e with
  | Rollback _ => true
  | _ => false
  end.

(** ** Names: variants, stored tables *)

Fixpoint all_space (s : string) : bool :=
  match s with
  | EmptyString => true
  | String c s' => is_space c && all_space s'
  end.

(** Two spellings of one name: the same letters up to case, each with any
    white space before and after. *)
Inductive variant : string -> string -> Prop :=
| variant_intro (lead1 core1 trail1 lead2 core2 trail2 : string) :
    all_space lead1 = true -> all_space trail1 = true ->
    all_space lead2 = true -> all_space trail2 = true ->
    toLowerCase core1 = toLowerCase core2 ->
    variant (lead1 ++ core1 ++ trail1) (lead2 ++ core2 ++ trail2).

(** A row whose [normalized_name] is the normalisation of its [name]. *)
Definition row_normalized (r : Db.Row) : Prop :=
  exists s, Db.name r = VStr s /\ Db.normalized_name r = trim (toLowerCase s).

(** A table as the store keeps it: every row normalised, no two rows with
    one key. *)
Definition table_ok (t : list Db.Row) : Prop :=
  Forall row_normalized t /\ NoDup (map Db.normalized_name t).

(** ** Catalog entries *)

(** The entry has a name that is a non-empty string. *)
Definition named (c : JsVal) : Prop :=
  exists s, get c "name" = VStr s /\ s <> "".

(** The entry has a population, and it is not [null]. *)
Definition populated (c : JsVal) : Prop :=
  nullish (get c "population") = false.

Definition qualifies (c : JsVal) : Prop := named c /\ populated c.



Definition is_upsert (e : Event) : bool :=
  match projT1 e with
  | Execute _ (Db.UpsertCountry _) => true
  | _ => false
  end.

(** What [computeEstimatedGDP] returns past its tests, for the draw [u]
    of [Math.random]. *)
Definition gdp_formula {rt : Runtime} (population exchangeRate : JsVal) (u : Q) : JsVal :=
  VNum (num_div (num_mul (ToNumber population) (Fin (inject_Z (Qfloor (u * 1001) + 1000))))
                (ToNumber exchangeRate)).

(** The row that the two implementations build, but for the three
    columns on which they may differ. *)
Definition row_of (c : JsVal) (normalized : string) (code rate gdp : JsVal) (at_ : Date) : Db.Row :=
  {| Db.name := or_else (get c "name") VNull;
     Db.normalized_name := normalized;
     Db.capital := or_else (get c "capital") VNull;
     Db.region := or_else (get c "region") VNull;
     Db.population := get c "population";
     Db.currency_code := code;
     Db.exchange_rate := rate;
     Db.estimated_gdp := gdp;
     Db.flag_url := or_else (get c "flag") VNull;
     Db.last_refreshed_at := at_ |}.

(** The operations of the derivation: a draw, a reading of the clock. *)
Definition quiet (e : Event) : bool :=
  match projT1 e with
  | MathRandom | NewDate => true
  | _ => false
  end.


(** ** Sample data *)

(** A runtime for the examples; none of them converts between strings
    and numbers. *)
Definition sample_runtime : Runtime :=
  {| StringToNumber := fun s => if s =? "" then Fin 0 else NaN;
     NumberToString := fun _ => "NaN";
     StringToNumber_empty := eq_refl |}.

Definition nigeria : JsVal :=
  VObj [("name", VStr "Nigeria"); ("population", of_Z 206000000);
        ("currencies", VArr [VObj [("code", VStr "ngn")]])].

Definition bouvet_island : JsVal :=
  VObj [("name", VStr "Bouvet Island"); ("population", of_Z 0);
        ("currencies", VArr [VObj [("code", VStr "NOK")]])].

Definition antarctica : JsVal :=
  VObj [("name", VStr "Antarctica"); ("population", of_Z 1000)].

Definition nameless : JsVal := VObj [("population", of_Z 5)].

Definition rates_ngn : JsVal := VObj [("NGN", VNum (Fin (821 # 2)))].
Definition rates_nok : JsVal := VObj [("NOK", VNum (Fin (21 # 2)))].
Definition no_rates : JsVal := VObj [].

Definition instant : Date := "2025-10-25T12:00:00.000Z".

(** Both sources answer, the store accepts everything. *)
Definition calm (catalog : JsVal) (ratesData : JsVal) : Choice :=
  {| countries_reply := Replied 200 (Some catalog);
     rates_reply := Replied 200 (Some ratesData);
     rates_settles_first := false;
     db_rejects := false;
     render_rejects := false;
     random := 1 # 2;
     now := instant |}.

(** The store rejects whatever it is asked. *)
Definition store_down (catalog : JsVal) (ratesData : JsVal) : Choice :=
  {| countries_reply := Replied 200 (Some catalog);
     rates_reply := Replied 200 (Some ratesData);
     rates_settles_first := false;
     db_rejects := true;
     render_rejects := false;
     random := 1 # 2;
     now := instant |}.

Definition rates_payload : JsVal := VObj [("rates", rates_ngn)].

(** The countries API does not answer in time. *)
Definition countries_timeout : Choice :=
  {| countries_reply := Aborted;
     rates_reply := Replied 200 (Some rates_payload);
     rates_settles_first := false;
     db_rejects := false;
     render_rejects := false;
     random := 1 # 2;
     now := instant |}.

(** The store rejects the eighth operation of the handler, which for the
    catalog [[nigeria]] is the upsert of that entry. *)
Definition upsert_rejected (i : nat) : Choice :=
  if (i =? 7)%nat then store_down (VArr [nigeria]) rates_payload
  else calm (VArr [nigeria]) rates_payload.

Definition empty_world : World :=
  {| refreshInProgress := false;
     tables := {| Db.countries := []; Db.meta := [] |};
     connections := [];
     summary_image := None |}.

(** ** The two derivations compared *)

(** Agreement of two outcomes of the derivation: the same decision, and
    for two rows the same [currency_code], [exchange_rate] and
    [estimated_gdp]. *)
Definition same_derived (a b : Thrown + Derived) : Prop :=
  match a, b with
  | inl _, inl _ => True
  | inr None, inr None => True
  | inr (Some ra), inr (Some rb) =>
      Db.currency_code ra = Db.currency_code rb /\
      Db.exchange_rate ra = Db.exchange_rate rb /\
      Db.estimated_gdp ra = Db.estimated_gdp rb
  | _, _ => False
  end.

(** The same decision: both pass the entry over, both throw, or both
    build a row. *)
Definition same_decision (a b : Thrown + Derived) : Prop :=
  match a, b with
  | inl ea, inl eb => ea = eb
  | inr None, inr None => True
  | inr (Some _), inr (Some _) => True
  | _, _ => False
  end.

(** The derivations of the two implementations agree on every entry and
    every rate mapping, for the same draws. *)
Definition derivations_equivalent : Prop :=
  forall (rt : Runtime) (c rates : JsVal) (env : nat -> Choice) (n : nat) (w : World),
    same_derived (result (exec env n w (App.derive c rates)))
                 (result (exec env n w (Server.derive c rates))).

(** ** Statements and cycles *)

(** A statement that keeps a table normalised. *)
Definition stmt_ok (s : Db.Stmt) : Prop :=
  match s with
  | Db.UpsertCountry r => row_normalized r
  | Db.UpsertMeta _ _ => True
  end.

(** The operations of the loop over the catalog. *)
Definition loop_event (e : Event) : bool := quiet e || is_upsert e.

(** The two ways the transaction stage ends.  Either nothing was
    committed: the tables, the guard and the image are as before and an
    exception is thrown.  Or the commit went through: no statement had
    failed, the tables are the old ones with the upserts of the cycle and
    the time of the refresh applied, and the stage either answers (the
    guard cleared) or throws because a later query failed. *)
Definition aborted_before_commit (w : World) (run : World * list Event * (Thrown + Response))
  : Prop :=
  existsb committed (trace run) = false /\
  tables (final run) = tables w /\
  refreshInProgress (final run) = refreshInProgress w /\
  summary_image (final run) = summary_image w /\
  exists e, result run = inl e /\ (e = TypeError \/ e = DriverError).

Definition committed_run (w : World) (catalog : list JsVal)
  (run : World * list Event * (Thrown + Response)) : Prop :=
  existsb failed_statement (trace run) = false /\
  exists added ts,
    Forall stmt_ok added /\
    ((forall c, In c catalog -> ~ qualifies c) -> added = []) /\
    tables (final run) =
      Db.apply_all (tables w) (added ++ [Db.UpsertMeta "last_refreshed_at" ts])%list /\
    ((result run = inl DriverError /\
      refreshInProgress (final run) = refreshInProgress w) \/
     (result run =
        inr (refresh_successful
               (of_nat (List.length (Db.countries (tables (final run))))) ts) /\
      refreshInProgress (final run) = false)).

(** ** The fetch stage *)

(** The answer of [await Promise.all([countriesPromise, ratesPromise])]. *)
Definition fetched (ch : Choice) : Thrown + (JsVal * JsVal) :=
  promise_all (tagged "Countries API" (fetchWithTimeout (countries_reply ch)))
              (tagged "Exchange Rates API" (fetchWithTimeout (rates_reply ch)))
              (rates_settles_first ch).

(** The catalog could not be had: its fetch failed, or what came is not
    an array. *)
Definition countries_unavailable (ch : Choice) : Prop :=
  (exists e, fetchWithTimeout (countries_reply ch) = inl e) \/
  (exists v, fetchWithTimeout (countries_reply ch) = inr v /\ isArray v = false).

Definition rates_unavailable (ch : Choice) : Prop :=
  exists e, fetchWithTimeout (rates_reply ch) = inl e.

Definition unavailable (source : string) (ch : Choice) : Prop :=
  (source = "Countries API" /\ countries_unavailable ch) \/
  (source = "Exchange Rates API" /\ rates_unavailable ch).

Definition service_unavailable (source : string) : Response :=
  jsonError 503 "External data source unavailable"
            (Some ("Could not fetch data from " ++ source)).

Definition ev (o : Op) (a : Ans o) : Event := existT Ans o a.

Definition stored_ghana : Db.Row :=
  {| Db.name := VStr "Ghana"; Db.normalized_name := "ghana";
     Db.capital := VStr "Accra"; Db.region := VStr "Africa";
     Db.population := of_Z 31000000; Db.currency_code := VStr "GHS";
     Db.exchange_rate := VNum (Fin 15); Db.estimated_gdp := VNum (Fin 3100000000);
     Db.flag_url := VNull; Db.last_refreshed_at := "2025-10-24T08:00:00.000Z" |}.

(** A store that a previous cycle has filled. *)
Definition world_with_ghana : World :=
  {| refreshInProgress := false;
     tables := {| Db.countries := [stored_ghana];
                  Db.meta := [("last_refreshed_at", "2025-10-24T08:00:00.000Z")] |};
     connections := [];
     summary_image := None |}.

(** ** A cycle in which no entry qualifies *)

(** The claim C8 as it is stated: a successful cycle in which no entry of
    the catalog qualifies reports [total_countries: 0] (and has written the
    time of the refresh). *)
Definition no_entry_reports_zero (refresh : Runtime -> Prog Response) : Prop :=
  forall (rt : Runtime) (env : nat -> Choice) (n : nat) (w : World)
         (catalog : list JsVal) (ratesData : JsVal),
    refreshInProgress w = false ->
    fetched (env (2 + n)%nat) = inr (VArr catalog, ratesData) ->
    (forall c, In c catalog -> ~ qualifies c) ->
    status (result (exec env n w (refresh rt))) = 200%Z ->
    get (body (result (exec env n w (refresh rt)))) "total_countries" = of_Z 0.

(** ** The route table

    Both implementations register the same routes in the same order, and
    after them the middleware that answers 404.  The router tries the
    routes in the order of their registration and runs the first whose
    method and path match; no handler of the file calls [next], so that
    the first match is the only one to run.  A path is taken as the list
    of its segments (split at [/], decoded, none empty); a literal segment
    is compared without regard to case, which is the default of the router.
    [HEAD] and [OPTIONS], which the router treats on its own, are left
    out. *)

Inductive Method : Type := GET | POST | PUT | PATCH | DELETE.

Definition method_eqb (a b : Method) : bool :=
  match a, b with
  | GET, GET | POST, POST | PUT, PUT | PATCH, PATCH | DELETE, DELETE => true
  | _, _ => false
  end.

Inductive Segment : Type :=
| Lit (s : string)
| Param.

Inductive Route : Type :=
| RefreshRoute
| ListRoute
| ByNameRoute
| DeleteRoute
| StatusRoute
| ImageRoute.

Definition route_table : list (Method * list Segment * Route) :=
  [ (POST, [Lit "countries"; Lit "refresh"], RefreshRoute);
    (GET, [Lit "countries"], ListRoute);
    (GET, [Lit "countries"; Param], ByNameRoute);
    (DELETE, [Lit "countries"; Param], DeleteRoute);
    (GET, [Lit "status"], StatusRoute);
    (GET, [Lit "countries"; Lit "image"], ImageRoute) ].

(** The parameters that a pattern captures from a path, when it matches. *)
Fixpoint match_path (pattern : list Segment) (path : list string) : option (list string) :=
  match pattern, path with
  | [], [] => Some []
  | Lit s :: pattern', x :: path' =>
      if toLowerCase s =? toLowerCase x then match_path pattern' path' else None
  | Param :: pattern', x :: path' =>
      if x =? "" then None
      else match match_path pattern' path' with
           | Some captured => Some (x :: captured)
           | None => None
           end
  | _, _ => None
  end.

(** The first route of the table that matches; [None] is the middleware
    at the end, [res.status(404).json({ error: "Not found" })]. *)
Fixpoint first_match (table : list (Method * list Segment * Route)) (m : Method)
  (path : list string) : option (Route * list string) :=
  match table with
  | [] => None
  | (m', pattern, r) :: rest =>
      if method_eqb m m' then
        match match_path pattern path with
        | Some captured => Some (r, captured)
        | None => first_match rest m path
        end
      else first_match rest m path
  end.

Definition dispatch (m : Method) (path : list string) : option (Route * list string) :=
  first_match route_table m path.

(** ** The listing of countries: [GET /countries]

    The handler builds the text of a statement and the list of its
    parameters and sends both to the pool; the rows that come back are the
    body of the response. *)

Record Statement : Type := {
  sql_text : string;
  sql_params : list JsVal
}.

(** The pool, as far as the listing is concerned: what it answers to a
    statement. *)
Definition Pool : Type := Statement -> Thrown + JsVal.

(** A default of a destructuring pattern, [{ page = 1 }]: it stands in
    for [undefined] only. *)
Definition or_default (v d : JsVal) : JsVal :=
  match v with
  | VUndefined => d
  | _ => v
  end.

Definition digit_value (c : ascii) : option Z :=
  let n := nat_of_ascii c in
  if ((48 <=? n) && (n <=? 57))%nat then Some (Z.of_nat (n - 48)) else None.

(** The value of the longest prefix of decimal digits; [None] when there
    is no digit to begin with. *)
Fixpoint leading_digits (s : string) (acc : option Z) : option Z :=
  match s with
  | EmptyString => acc
  | String c s' =>
      match digit_value c with
      | Some d =>
          leading_digits s' (Some (10 * match acc with Some a => a | None => 0 end + d)%Z)
      | None => acc
      end
  end.

(** [parseInt(s, 10)]: white space is skipped, a sign is read, then the
    digits up to the first character that is none; [None] is [NaN]. *)
Definition parseInt (s : string) : option Z :=
  match trimStart s with
  | String "-" rest =>
      match leading_digits rest None with
      | Some z => Some (- z)%Z
      | None => None
      end
  | String "+" rest => leading_digits rest None
  | t => leading_digits t None
  end.

(** [where.length ? `WHERE ${where.join(" AND ")}` : ""]. *)
Definition whereSql (where_ : list string) : string :=
  match where_ with
  | [] => ""
  | _ :: _ => "WHERE " ++ String.concat " AND " where_
  end.

(** The two [if]s on [sort], one after the other. *)
Definition orderSql (sort : JsVal) : string :=
  let o := if is_string sort "gdp_desc" then "ORDER BY estimated_gdp DESC" else "" in
  if is_string sort "gdp_asc" then "ORDER BY estimated_gdp ASC" else o.

Definition columns : string :=
  "SELECT id, name, capital, region, population, currency_code, exchange_rate, estimated_gdp, flag_url, last_refreshed_at".

Definition line_feed : string := String (ascii_of_nat 10) "".

Definition listed (answer : Thrown + JsVal) : Response :=
  match answer with
  | inr rows => json rows
  | inl _ => internal_error
  end.

Module AppRead.

(** [isNaN(pageNum) || pageNum < 1 ? 1 : pageNum]. *)
Definition validatedPage (pageNum : option Z) : Z :=
  match pageNum with
  | None => 1
  | Some p => if (p <? 1)%Z then 1 else p
  end.

(** [isNaN(limitNum) || limitNum < 1 ? 100 : Math.min(limitNum, 1000)]. *)
Definition validatedLimit (limitNum : option Z) : Z :=
  match limitNum with
  | None => 100
  | Some l => if (l <? 1)%Z then 100 else Z.min l 1000
  end.

(** [v && String(v).trim() !== ''], the test on [region] and on
    [currency]. *)
Definition given {rt : Runtime} (v : JsVal) : bool :=
  truthy v && negb (trim (ToString v) =? "").

Definition list_statement {rt : Runtime} (query : JsVal) : Statement :=
  let region := get query "region" in
  let currency := get query "currency" in
  let sort := get query "sort" in
  let page := or_default (get query "page") (of_Z 1) in
  let limit := or_default (get query "limit") (of_Z 100) in
  let pageNum := parseInt (ToString page) in
  let limitNum := parseInt (ToString limit) in
  let offset := ((validatedPage pageNum - 1) * validatedLimit limitNum)%Z in
  let where_ :=
    ((if given region then ["LOWER(region) = LOWER(?)"] else [])
     ++ (if given currency then ["currency_code = ?"] else []))%list in
  let params :=
    ((if given region then [VStr (trim (ToString region))] else [])
     ++ (if given currency then [VStr (toUpperCase (trim (ToString currency)))] else []))%list
  in
  {| sql_text := columns ++ " " ++ line_feed ++ "                 FROM countries "
                 ++ whereSql where_ ++ " " ++ orderSql sort ++ " LIMIT ? OFFSET ?";
     sql_params := (params ++ [of_Z (validatedLimit limitNum); of_Z offset])%list |}.

Definition list_countries {rt : Runtime} (pool : Pool) (query : JsVal) : Response :=
  listed (pool (list_statement query)).

End AppRead.

(** [a - b] and [Math.max(1, x)] on numbers. *)
Definition num_sub (x y : num) : num :=
  match x, y with
  | Fin a, Fin b => Fin (a - b)
  | _, _ => NaN
  end.

Definition max_one (x : num) : num :=
  match x with
  | NaN => NaN
  | Fin q => if Qle_bool q 1 then Fin 1 else Fin q
  end.

Module ServerRead.

Definition list_statement {rt : Runtime} (query : JsVal) : Statement :=
  let region := get query "region" in
  let currency := get query "currency" in
  let sort := get query "sort" in
  let page := or_default (get query "page") (of_Z 1) in
  let limit := or_default (get query "limit") (of_Z 100) in
  let offset := num_mul (num_sub (max_one (ToNumber page)) (Fin 1)) (ToNumber limit) in
  let where_ :=
    ((if truthy region then ["region = ?"] else [])
     ++ (if truthy currency then ["currency_code = ?"] else []))%list in
  let params :=
    ((if truthy region then [region] else [])
     ++ (if truthy currency then [VStr (toUpperCase (ToString currency))] else []))%list in
  {| sql_text := columns ++ " FROM countries " ++ whereSql where_ ++ " " ++ orderSql sort
                 ++ " LIMIT ? OFFSET ?";
     sql_params := (params ++ [VNum (ToNumber limit); VNum offset])%list |}.

Definition list_countries {rt : Runtime} (pool : Pool) (query : JsVal) : Response :=
  listed (pool (list_statement query)).

End ServerRead.


(** The number of placeholders of a statement. *)
Fixpoint placeholders (s : string) : nat :=
  match s with
  | EmptyString => 0
  | String c s' => (if Ascii.eqb c "?" then 1 else 0) + placeholders s'
  end.

(** ** The state of the service: [GET /status]

    The two implementations send the same two statements one after the
    other.  The handler is run on its own: the [i]-th statement is answered
    under the choice [env i]. *)

(** [SELECT value FROM meta WHERE `key` = ?]. *)
Definition select_meta (ch : Choice) (w : World) (key : string) : Thrown + list string :=
  if db_rejects ch then rejected
  else inr match Db.lookup_meta key (Db.meta (tables w)) with
           | Some value => [value]
           | None => []
           end.

Definition get_status (env : nat -> Choice) (w : World) : Response :=
  match snd (perform (env 0%nat) w QueryCount) with
  | inl _ => internal_error
  | inr total =>
      match select_meta (env 1%nat) w "last_refreshed_at" with
      | inl _ => internal_error
      | inr r =>
          let lastRef := match r with
                         | value :: _ => VStr value
                         | [] => VNull
                         end in
          json (VObj [("total_countries", total); ("last_refreshed_at", lastRef)])
      end
  end.

(** ** The summary image: [generateSummaryImage] and [GET /countries/image] *)



Definition width : Z := 1000.


Section SummaryImage.

Context {rt : Runtime}.

(** [toLocaleString(undefined, { maximumFractionDigits: 2 })], which
    depends on the locale of the process. *)
Variable toLocaleString : num -> string.




End SummaryImage.

(** What a route sends: a JSON response, or the file of the image. *)
Inductive Reply : Type :=
| Json (r : Response)
| File (image : Summary).

(** [fs.access] succeeds when the file is there. *)
Definition get_image (w : World) : Reply :=
  match summary_image w with
  | Some image => File image
  | None => Json (jsonError 404 "Summary image not found" None)
  end.

(** ** More on traces and on catalogs *)

Definition is_release (o : Op) : bool :=
  match o with
  | Release _ => true
  | _ => false
  end.

Definition is_get_connection (o : Op) : bool :=
  match o with
  | GetConnection => true
  | _ => false
  end.

(** The connections that a run has taken from the pool, and those it has
    given back. *)
Definition acquired (e : Event) : bool :=
  is_get_connection (projT1 e) && negb (is_rejection (projT2 e)).

Definition released_conn (e : Event) : bool := is_release (projT1 e).

Definition count (f : Event -> bool) (t : list Event) : nat := List.length (filter f t).

(** The operations of the transaction stage. *)
Definition transaction_event (e : Event) : bool :=
  match projT1 e with
  | BeginTransaction _ | Execute _ _ | Commit _ | QueryCount | QueryTop5
  | GenerateSummaryImage _ _ _ | SetRefreshInProgress false | MathRandom | NewDate => true
  | _ => false
  end.

(** The renderer was called and threw. *)
Definition render_failed (e : Event) : bool :=
  match projT1 e with
  | GenerateSummaryImage _ _ _ => is_rejection (projT2 e)
  | _ => false
  end.

(** An entry on which the body of the loop throws: it is [null] or
    [undefined], or its name is truthy and has no [trim] method while its
    population is there. *)
Definition poisoned (c : JsVal) : Prop :=
  nullish c = true \/
  (truthy (get c "name") = true /\ (forall s, get c "name" <> VStr s) /\
   nullish (get c "population") = false).

(** The worlds that a handler goes through: the one it starts in and the
    one after each of its operations. *)
Fixpoint visited {R : Type} (env : nat -> Choice) (n : nat) (w : World) (p : Prog R)
  : list World :=
  match p with
  | Ret _ => [w]
  | Vis o k => w :: visited env (S n) (fst (perform (env n) w o)) (k (snd (perform (env n) w o)))
  end.


(** ** More sample data *)


(** The store rejects the [i]-th operation of the handler only. *)
Definition rejects_at (i : nat) (catalog ratesData : JsVal) (k : nat) : Choice :=
  if (k =? i)%nat then store_down catalog ratesData else calm catalog ratesData.

(** The renderer throws. *)
Definition render_down (catalog ratesData : JsVal) : Choice :=
  {| countries_reply := Replied 200 (Some catalog);
     rates_reply := Replied 200 (Some ratesData);
     rates_settles_first := false;
     db_rejects := false;
     render_rejects := true;
     random := 1 # 2;
     now := instant |}.

(** An entry whose name is a number. *)
Definition misnamed : JsVal := VObj [("name", of_Z 5); ("population", of_Z 1)].

(** What the rates source sends with status 200 when it refuses. *)
Definition refusal : JsVal := VObj [("result", VStr "error")].

Definition ghana_again : Db.Row :=
  {| Db.name := VStr " GHANA "; Db.normalized_name := "ghana";
     Db.capital := VNull; Db.region := VStr "Africa";
     Db.population := of_Z 32000000; Db.currency_code := VStr "GHS";
     Db.exchange_rate := VNum (Fin 16); Db.estimated_gdp := VNull;
     Db.flag_url := VNull; Db.last_refreshed_at := instant |}.

(** A mapping whose rate for the naira is 0. *)
Definition rates_zero : JsVal := VObj [("NGN", of_Z 0)].

(** Both fetches fail, the one of the rates first. *)
Definition both_down : Choice :=
  {| countries_reply := Replied 500 None;
     rates_reply := Aborted;
     rates_settles_first := true;
     db_rejects := false;
     render_rejects := false;
     random := 1 # 2;
     now := instant |}.

(** * Properties *)

(** ** Strings *)

Lemma is_space_lower_char (c : ascii) : is_space (lower_char c) = is_space c.
Proof. destruct c as [[] [] [] [] [] [] [] []]; reflexivity. Qed.

Lemma trimStart_map_chars (f : ascii -> ascii) (s : string) :
  (forall c, is_space (f c) = is_space c) ->
  trimStart (map_chars f s) = map_chars f (trimStart s).
Proof.
  intros Hf. induction s as [|c s IH]; simpl; [reflexivity|].
  rewrite Hf. destruct (is_space c); [exact IH | reflexivity].
Qed.

Lemma trimEnd_map_chars (f : ascii -> ascii) (s : string) :
  (forall c, is_space (f c) = is_space c) ->
  trimEnd (map_chars f s) = map_chars f (trimEnd s).
Proof.
  intros Hf. induction s as [|c s IH]; simpl; [reflexivity|].
  rewrite IH, Hf.
  destruct (trimEnd s) as [|d t]; simpl; [|reflexivity].
  destruct (is_space c); reflexivity.
Qed.

Lemma toLowerCase_trim (s : string) : toLowerCase (trim s) = trim (toLowerCase s).
Proof.
  unfold trim, toLowerCase.
  rewrite (trimStart_map_chars _ _ is_space_lower_char).
  rewrite (trimEnd_map_chars _ _ is_space_lower_char). reflexivity.
Qed.

Lemma map_chars_app (f : ascii -> ascii) (s t : string) :
  map_chars f (s ++ t) = map_chars f s ++ map_chars f t.
Proof. induction s as [|c s IH]; simpl; [reflexivity | now rewrite IH]. Qed.

Lemma all_space_map_chars (f : ascii -> ascii) (s : string) :
  (forall c, is_space (f c) = is_space c) ->
  all_space (map_chars f s) = all_space s.
Proof.
  intros Hf. induction s as [|c s IH]; simpl; [reflexivity | now rewrite Hf, IH].
Qed.

Lemma trimStart_lead (lead s : string) :
  all_space lead = true -> trimStart (lead ++ s) = trimStart s.
Proof.
  induction lead as [|c lead IH]; simpl; intros H; [reflexivity|].
  apply andb_prop in H as [Hc Hl]. rewrite Hc. auto.
Qed.

Lemma trimEnd_all_space (s : string) : all_space s = true -> trimEnd s = "".
Proof.
  induction s as [|c s IH]; simpl; intros H; [reflexivity|].
  apply andb_prop in H as [Hc Hs]. rewrite (IH Hs), Hc. reflexivity.
Qed.

Lemma trimEnd_trail (s trail : string) :
  all_space trail = true -> trimEnd (s ++ trail) = trimEnd s.
Proof.
  intros H. induction s as [|c s IH]; simpl.
  - now apply trimEnd_all_space.
  - now rewrite IH.
Qed.

Lemma trimStart_empty_all_space (s : string) : trimStart s = "" -> all_space s = true.
Proof.
  induction s as [|c s IH]; simpl; [reflexivity|].
  destruct (is_space c); simpl; [exact IH | discriminate].
Qed.

Lemma trimStart_app (s t : string) :
  trimStart s <> "" -> trimStart (s ++ t) = trimStart s ++ t.
Proof.
  induction s as [|c s IH]; simpl; intros H; [congruence|].
  destruct (is_space c); [auto | reflexivity].
Qed.

Lemma all_space_app (s t : string) :
  all_space (s ++ t) = all_space s && all_space t.
Proof.
  induction s as [|c s IH]; simpl; [reflexivity|].
  now rewrite IH, andb_assoc.
Qed.

Lemma trim_all_space (s : string) : all_space s = true -> trim s = "".
Proof.
  intros H. unfold trim. induction s as [|c s IH]; simpl; [reflexivity|].
  simpl in H. apply andb_prop in H as [Hc Hs]. rewrite Hc. auto.
Qed.

Lemma trim_pad (lead s trail : string) :
  all_space lead = true -> all_space trail = true ->
  trim (lead ++ s ++ trail) = trim s.
Proof.
  intros Hl Ht. unfold trim. rewrite (trimStart_lead _ _ Hl).
  destruct (string_dec (trimStart s) "") as [E|E].
  - assert (Hs : all_space (s ++ trail) = true).
    { rewrite all_space_app, Ht, (trimStart_empty_all_space _ E). reflexivity. }
    fold (trim (s ++ trail)). rewrite (trim_all_space _ Hs).
    rewrite E. reflexivity.
  - rewrite (trimStart_app _ _ E). now apply trimEnd_trail.
Qed.

Lemma normalizeName_string (s : string) :
  normalizeName (VStr s) = inr (toLowerCase (trim s)).
Proof.
  unfold normalizeName, or_else. simpl.
  destruct s as [|c s]; reflexivity.
Qed.

Lemma normalizeName_variant (s v : string) :
  variant s v -> normalizeName (VStr v) = normalizeName (VStr s).
Proof.
  intros [l1 c1 t1 l2 c2 t2 Hl1 Ht1 Hl2 Ht2 E].
  rewrite !normalizeName_string, !toLowerCase_trim.
  unfold toLowerCase in *. rewrite !map_chars_app.
  rewrite !trim_pad; try (rewrite all_space_map_chars; auto using is_space_lower_char).
  now rewrite E.
Qed.

(** ** Running a handler *)

Lemma exec_bind {A B : Type} (env : nat -> Choice) (m : Prog A) (f : A -> Prog B) :
  forall n w,
    exec env n w (bind m f) =
    let '(w1, t1, a) := exec env n w m in
    let '(w2, t2, b) := exec env (n + List.length t1) w1 (f a) in
    (w2, (t1 ++ t2)%list, b).
Proof.
  induction m as [a | o k IH]; intros n w; simpl.
  - rewrite Nat.add_0_r. destruct (exec env n w (f a)) as [[w2 t2] b]. reflexivity.
  - destruct (perform (env n) w o) as [w1 x]. rewrite IH.
    destruct (exec env (S n) w1 (k x)) as [[w2 t1] a]. simpl.
    rewrite Nat.add_succ_r.
    destruct (exec env (S (n + List.length t1)) w2 (f a)) as [[w3 t2] b]. reflexivity.
Qed.


(** ** The derivation of one entry *)

Lemma nullish_get (c : JsVal) (k : string) : nullish c = true -> get c k = VUndefined.
Proof. destruct c; simpl; try discriminate; reflexivity. Qed.

Lemma truthy_string (s : string) : truthy (VStr s) = true <-> s <> "".
Proof. simpl. destruct s; simpl; split; intros; congruence. Qed.

Lemma named_not_nullish (c : JsVal) : named c -> nullish c = false.
Proof.
  intros [s [H _]]. destruct (nullish c) eqn:E; [|reflexivity].
  rewrite (nullish_get _ _ E) in H. discriminate.
Qed.

Lemma truthy_not_nullish (v : JsVal) : truthy v = true -> nullish v = false.
Proof. destruct v; simpl; congruence. Qed.

Lemma exec_randomMultiplier (env : nat -> Choice) (n : nat) (w : World) :
  exec env n w randomMultiplier =
  (w, [existT _ MathRandom (random (env n))], (Qfloor (random (env n) * 1001) + 1000)%Z).
Proof. reflexivity. Qed.

Lemma App_exec_computeEstimatedGDP {rt : Runtime} (population exchangeRate : JsVal) env n w :
  exec env n w (App.computeEstimatedGDP population exchangeRate) =
  if negb (truthy population) || negb (truthy exchangeRate) || num_is_zero (ToNumber exchangeRate)
  then (w, [], VNull)
  else (w, [existT _ MathRandom (random (env n))],
        gdp_formula population exchangeRate (random (env n))).
Proof.
  unfold App.computeEstimatedGDP.
  destruct (negb (truthy population) || negb (truthy exchangeRate)
            || num_is_zero (ToNumber exchangeRate)); reflexivity.
Qed.

Lemma Server_exec_computeEstimatedGDP {rt : Runtime} (population exchangeRate : JsVal) env n w :
  exec env n w (Server.computeEstimatedGDP population exchangeRate) =
  if nullish population || nullish exchangeRate || num_is_zero (ToNumber exchangeRate)
  then (w, [], VNull)
  else (w, [existT _ MathRandom (random (env n))],
        gdp_formula population exchangeRate (random (env n))).
Proof.
  unfold Server.computeEstimatedGDP.
  destruct (nullish population), (nullish exchangeRate),
    (num_is_zero (ToNumber exchangeRate)); reflexivity.
Qed.

Lemma App_exec_resolve {rt : Runtime} (population : JsVal) (code : string) (rates : JsVal) env n w :
  exec env n w (App.resolve population code rates) =
  if negb (code =? "N/A") && hasOwnProperty rates code then
    if negb (truthy population) || negb (truthy (get rates code))
       || num_is_zero (ToNumber (get rates code))
    then (w, [], (get rates code, VNull))
    else (w, [existT _ MathRandom (random (env n))],
          (get rates code, gdp_formula population (get rates code) (random (env n))))
  else (w, [], (VNull, of_Z 0)).
Proof.
  unfold App.resolve.
  destruct (negb (code =? "N/A") && hasOwnProperty rates code); [|reflexivity].
  rewrite exec_bind, App_exec_computeEstimatedGDP.
  destruct (negb (truthy population) || negb (truthy (get rates code))
            || num_is_zero (ToNumber (get rates code))); reflexivity.
Qed.

Lemma Server_exec_resolve {rt : Runtime} (population code rates : JsVal) env n w :
  exec env n w (Server.resolve population code rates) =
  if negb (truthy code) then (w, [], (VNull, of_Z 0))
  else if hasOwnProperty rates (ToString code) then
    if nullish population || nullish (get rates (ToString code))
       || num_is_zero (ToNumber (get rates (ToString code)))
    then (w, [], (get rates (ToString code), VNull))
    else (w, [existT _ MathRandom (random (env n))],
          (get rates (ToString code),
           gdp_formula population (get rates (ToString code)) (random (env n))))
  else (w, [], (VNull, VNull)).
Proof.
  unfold Server.resolve.
  destruct (negb (truthy code)); [reflexivity|].
  destruct (hasOwnProperty rates (ToString code)); [|reflexivity].
  rewrite exec_bind, Server_exec_computeEstimatedGDP.
  destruct (nullish population || nullish (get rates (ToString code))
            || num_is_zero (ToNumber (get rates (ToString code)))); reflexivity.
Qed.

(** The derivation of an entry that qualifies: the two columns come from
    [resolve], the time from the clock. *)
Lemma App_exec_derive {rt : Runtime} (c rates : JsVal) env n w :
  qualifies c ->
  exec env n w (App.derive c rates) =
  let code := if has_currency_code c then first_currency_code c else "N/A" in
  let '(w1, t1, (rate, gdp)) := exec env n w (App.resolve (get c "population") code rates) in
  let at_ := now (env (n + List.length t1)%nat) in
  (w1, (t1 ++ [existT _ NewDate at_])%list,
   inr (Some (row_of c (toLowerCase (trim (ToString (get c "name")))) (VStr code) rate gdp at_))).
Proof.
  intros [Hn Hp]. pose proof (named_not_nullish c Hn) as Hc.
  destruct Hn as [s [Hs Hne]]. unfold populated in Hp.
  unfold App.derive, row_of, or_else. rewrite Hc, Hp, Hs.
  cbn [negb]. rewrite Hp, !(proj2 (truthy_string s) Hne). cbn [negb orb].
  rewrite exec_bind. cbv zeta.
  destruct (exec env n w (App.resolve (get c "population") _ rates)) as [[w1 t1] [rate gdp]].
  rewrite normalizeName_string. reflexivity.
Qed.

Lemma Server_exec_derive {rt : Runtime} (c rates : JsVal) env n w :
  qualifies c ->
  exec env n w (Server.derive c rates) =
  let code := if has_currency_code c then VStr (first_currency_code c) else VNull in
  let '(w1, t1, (rate, gdp)) := exec env n w (Server.resolve (get c "population") code rates) in
  let at_ := now (env (n + List.length t1)%nat) in
  (w1, (t1 ++ [existT _ NewDate at_])%list,
   inr (Some (row_of c (toLowerCase (trim (ToString (get c "name")))) code rate gdp at_))).
Proof.
  intros [Hn Hp]. pose proof (named_not_nullish c Hn) as Hc.
  destruct Hn as [s [Hs Hne]]. unfold populated in Hp.
  unfold Server.derive, row_of, or_else. rewrite Hc, Hp, Hs.
  cbn [negb]. rewrite Hp, !(proj2 (truthy_string s) Hne). cbn [negb orb].
  rewrite exec_bind. cbv zeta.
  destruct (exec env n w (Server.resolve (get c "population") _ rates)) as [[w1 t1] [rate gdp]].
  rewrite normalizeName_string. reflexivity.
Qed.

Lemma App_resolve_quiet {rt : Runtime} (population : JsVal) (code : string) (rates : JsVal) env n w :
  final (exec env n w (App.resolve population code rates)) = w /\
  forallb quiet (trace (exec env n w (App.resolve population code rates))) = true.
Proof.
  rewrite App_exec_resolve.
  destruct (negb (code =? "N/A") && hasOwnProperty rates code); [|split; reflexivity].
  destruct (negb (truthy population) || negb (truthy (get rates code))
            || num_is_zero (ToNumber (get rates code))); split; reflexivity.
Qed.

Lemma Server_resolve_quiet {rt : Runtime} (population code rates : JsVal) env n w :
  final (exec env n w (Server.resolve population code rates)) = w /\
  forallb quiet (trace (exec env n w (Server.resolve population code rates))) = true.
Proof.
  rewrite Server_exec_resolve.
  destruct (negb (truthy code)); [split; reflexivity|].
  destruct (hasOwnProperty rates (ToString code)); [|split; reflexivity].
  destruct (nullish population || nullish (get rates (ToString code))
            || num_is_zero (ToNumber (get rates (ToString code)))); split; reflexivity.
Qed.

Lemma forallb_app_true {A : Type} (f : A -> bool) (l1 l2 : list A) :
  forallb f l1 = true -> forallb f l2 = true -> forallb f (l1 ++ l2)%list = true.
Proof. intros H1 H2. rewrite forallb_app, H1, H2. reflexivity. Qed.

(** The derivation changes nothing in the world, and it returns a row
    for the entries that qualify only. *)
Lemma App_derive_quiet {rt : Runtime} (c rates : JsVal) env n w :
  final (exec env n w (App.derive c rates)) = w /\
  forallb quiet (trace (exec env n w (App.derive c rates))) = true /\
  (forall row, result (exec env n w (App.derive c rates)) = inr (Some row) -> qualifies c) /\
  (forall e, result (exec env n w (App.derive c rates)) = inl e -> e = TypeError).
Proof.
  unfold App.derive.
  destruct (nullish c) eqn:Hc.
  { simpl. repeat split; try discriminate. intros e [= <-]. reflexivity. }
  destruct (truthy (or_else (get c "name") VNull)) eqn:Hn; cbn [negb orb];
    [|simpl; repeat split; discriminate].
  destruct (nullish (get c "population")) eqn:Hp; cbn [negb];
    [simpl; repeat split; discriminate|].
  rewrite Hp. rewrite exec_bind.
  pose proof (App_resolve_quiet (get c "population")
                (if has_currency_code c then first_currency_code c else "N/A") rates env n w)
    as [Hw Ht].
  destruct (exec env n w (App.resolve _ _ rates)) as [[w1 t1] [rate gdp]].
  unfold final, trace in Hw, Ht. simpl in Hw, Ht. subst w1.
  destruct (normalizeName (or_else (get c "name") VNull)) as [e|s] eqn:Hnorm; simpl.
  - unfold final, trace, result; simpl. rewrite app_nil_r.
    repeat split; auto; try discriminate.
    intros e' [= <-]. unfold normalizeName in Hnorm.
    destruct (or_else (or_else (get c "name") VNull) (VStr "")); congruence.
  - unfold final, trace, result; simpl. repeat split; try discriminate.
    + apply forallb_app_true; [exact Ht | reflexivity].
    + unfold or_else in Hn, Hnorm.
      destruct (truthy (get c "name")) eqn:Hname; [|discriminate].
      unfold normalizeName, or_else in Hnorm. rewrite Hname in Hnorm.
      destruct (get c "name") eqn:Hget; try discriminate.
      exists s0. split; [exact Hget | now apply truthy_string].
    + exact Hp.
Qed.

Lemma Server_derive_quiet {rt : Runtime} (c rates : JsVal) env n w :
  final (exec env n w (Server.derive c rates)) = w /\
  forallb quiet (trace (exec env n w (Server.derive c rates))) = true /\
  (forall row, result (exec env n w (Server.derive c rates)) = inr (Some row) -> qualifies c) /\
  (forall e, result (exec env n w (Server.derive c rates)) = inl e -> e = TypeError).
Proof.
  unfold Server.derive.
  destruct (nullish c) eqn:Hc.
  { simpl. repeat split; try discriminate. intros e [= <-]. reflexivity. }
  destruct (truthy (or_else (get c "name") VNull)) eqn:Hn; cbn [negb orb];
    [|simpl; repeat split; discriminate].
  destruct (nullish (get c "population")) eqn:Hp; cbn [negb];
    [simpl; repeat split; discriminate|].
  rewrite Hp. rewrite exec_bind.
  pose proof (Server_resolve_quiet (get c "population")
                (if has_currency_code c then VStr (first_currency_code c) else VNull)
                rates env n w) as [Hw Ht].
  destruct (exec env n w (Server.resolve _ _ rates)) as [[w1 t1] [rate gdp]].
  unfold final, trace in Hw, Ht. simpl in Hw, Ht. subst w1.
  destruct (normalizeName (or_else (get c "name") VNull)) as [e|s] eqn:Hnorm; simpl.
  - unfold final, trace, result; simpl. rewrite app_nil_r.
    repeat split; auto; try discriminate.
    intros e' [= <-]. unfold normalizeName in Hnorm.
    destruct (or_else (or_else (get c "name") VNull) (VStr "")); congruence.
  - unfold final, trace, result; simpl. repeat split; try discriminate.
    + apply forallb_app_true; [exact Ht | reflexivity].
    + unfold or_else in Hn, Hnorm.
      destruct (truthy (get c "name")) eqn:Hname; [|discriminate].
      unfold normalizeName, or_else in Hnorm. rewrite Hname in Hnorm.
      destruct (get c "name") eqn:Hget; try discriminate.
      exists s0. split; [exact Hget | now apply truthy_string].
    + exact Hp.
Qed.

Lemma quiet_excludes (g : Event -> bool) (t : list Event) :
  (forall e, quiet e = true -> g e = false) ->
  forallb quiet t = true -> existsb g t = false.
Proof.
  intros Hg. induction t as [|e t IH]; simpl; [reflexivity|].
  intros H. apply andb_prop in H as [He Ht]. now rewrite (Hg e He), IH.
Qed.


Lemma quiet_not_failed (e : Event) : quiet e = true -> failed_statement e = false.
Proof. destruct e as [[] a]; cbn; intros H; try discriminate H; reflexivity. Qed.

Lemma quiet_not_storage (e : Event) : quiet e = true -> storage_call e = false.
Proof. destruct e as [[] a]; cbn; intros H; try discriminate H; reflexivity. Qed.

Lemma quiet_not_committed (e : Event) : quiet e = true -> committed e = false.
Proof. destruct e as [[] a]; cbn; intros H; try discriminate H; reflexivity. Qed.

(** One turn of the loop over the catalog. *)
Lemma upsert_each_cons (derive : JsVal -> M Derived) (conn : Conn) (c : JsVal)
  (rest : list JsVal) env n w :
  exec env n w (upsert_each derive conn (c :: rest)) =
  let '(w1, t1, d) := exec env n w (derive c) in
  let n1 := (n + List.length t1)%nat in
  match d with
  | inl e => (w1, t1, inl e)
  | inr None =>
      let '(w2, t2, r) := exec env n1 w1 (upsert_each derive conn rest) in
      (w2, (t1 ++ t2)%list, r)
  | inr (Some row) =>
      let (w2, a) := perform (env n1) w1 (Execute conn (Db.UpsertCountry row)) in
      let ev : Event := existT _ (Execute conn (Db.UpsertCountry row)) a in
      match a with
      | inl e => (w2, (t1 ++ [ev])%list, inl e)
      | inr _ =>
          let '(w3, t3, r) := exec env (S n1) w2 (upsert_each derive conn rest) in
          (w3, (t1 ++ ev :: t3)%list, r)
      end
  end.
Proof.
  cbn [upsert_each]. unfold bindE at 1. rewrite exec_bind.
  destruct (exec env n w (derive c)) as [[w1 t1] [e|[row|]]]; cbv zeta.
  - simpl. now rewrite app_nil_r.
  - simpl. destruct (perform (env (n + List.length t1)%nat) w1
                      (Execute conn (Db.UpsertCountry row))) as [w2 [e|[]]]; simpl.
    + reflexivity.
    + destruct (exec env (S (n + List.length t1)) w2 (upsert_each derive conn rest))
        as [[w3 t3] r]. reflexivity.
  - reflexivity.
Qed.

Lemma App_derive_qualifies {rt : Runtime} (c rates : JsVal) env n w :
  qualifies c -> exists row, result (exec env n w (App.derive c rates)) = inr (Some row).
Proof.
  intros H. rewrite (App_exec_derive c rates env n w H). cbv zeta.
  destruct (exec env n w (App.resolve _ _ rates)) as [[w1 t1] [rate gdp]].
  eexists. reflexivity.
Qed.

Lemma Server_derive_qualifies {rt : Runtime} (c rates : JsVal) env n w :
  qualifies c -> exists row, result (exec env n w (Server.derive c rates)) = inr (Some row).
Proof.
  intros H. rewrite (Server_exec_derive c rates env n w H). cbv zeta.
  destruct (exec env n w (Server.resolve _ _ rates)) as [[w1 t1] [rate gdp]].
  eexists. reflexivity.
Qed.

Lemma existsb_app_false {A : Type} (f : A -> bool) (l1 l2 : list A) :
  existsb f l1 = false -> existsb f l2 = false -> existsb f (l1 ++ l2)%list = false.
Proof. intros H1 H2. rewrite existsb_app, H1, H2. reflexivity. Qed.





(** ** Entries without a currency code *)


Lemma upsert_country_stores (r : Db.Row) (t : list Db.Row) :
  exists stored,
    In stored (Db.upsert_country r t) /\
    Db.normalized_name stored = Db.normalized_name r /\
    Db.on_duplicate_key_update stored r = stored.
Proof.
  induction t as [|x t IH]; simpl.
  - exists r. split; [now left|]. split; [reflexivity|]. destruct r; reflexivity.
  - unfold Db.duplicate_key. destruct (Db.normalized_name x =? Db.normalized_name r) eqn:E.
    + apply String.eqb_eq in E.
      exists (Db.on_duplicate_key_update x r). split; [now left|].
      split; [exact E | reflexivity].
    + destruct IH as (stored & Hin & Hk & Hu). exists stored. split; [now right | auto].
Qed.

Lemma App_resolve_no_code {rt : Runtime} (population rates : JsVal) env n w :
  exec env n w (App.resolve population "N/A" rates) = (w, [], (VNull, of_Z 0)).
Proof. rewrite App_exec_resolve. reflexivity. Qed.

Lemma Server_resolve_no_code {rt : Runtime} (population rates : JsVal) env n w :
  exec env n w (Server.resolve population VNull rates) = (w, [], (VNull, of_Z 0)).
Proof. rewrite Server_exec_resolve. reflexivity. Qed.

(** ** A currency code that the rate mapping does not have *)

(** On the second implementation the claim C2 holds: a code that is
    present (not empty once trimmed) and is not a key of the mapping
    leaves both columns [null]. *)
Lemma Server_unmapped_code_null {rt : Runtime} (c rates : JsVal) env n w :
  qualifies c -> has_currency_code c = true -> first_currency_code c <> "" ->
  hasOwnProperty rates (first_currency_code c) = false ->
  exists row,
    result (exec env n w (Server.derive c rates)) = inr (Some row) /\
    Db.exchange_rate row = VNull /\ Db.estimated_gdp row = VNull.
Proof.
  intros Hq Hc Hne Hr. rewrite (Server_exec_derive c rates env n w Hq), Hc. cbv zeta.
  rewrite Server_exec_resolve. rewrite (proj2 (truthy_string _) Hne). cbn [negb ToString].
  rewrite Hr. eexists. repeat split.
Qed.

(** The first implementation leaves [estimated_gdp] at its initial value
    0 in that case. *)
Lemma App_unmapped_code_zero {rt : Runtime} (c rates : JsVal) env n w :
  qualifies c ->
  hasOwnProperty rates (if has_currency_code c then first_currency_code c else "N/A") = false ->
  exists row,
    result (exec env n w (App.derive c rates)) = inr (Some row) /\
    Db.exchange_rate row = VNull /\ Db.estimated_gdp row = of_Z 0.
Proof.
  intros Hq Hr. rewrite (App_exec_derive c rates env n w Hq). cbv zeta.
  rewrite App_exec_resolve, Hr, andb_false_r. eexists. repeat split.
Qed.

(** ** A currency code with a rate *)





(** ** The two derivations compared *)

Lemma derive_same_decision {rt : Runtime} (c rates : JsVal) env n w :
  same_decision (result (exec env n w (App.derive c rates)))
                (result (exec env n w (Server.derive c rates))).
Proof.
  unfold App.derive, Server.derive.
  destruct (nullish c); [reflexivity|].
  destruct (negb (truthy (or_else (get c "name") VNull))
            || nullish (if negb (nullish (get c "population"))
                        then get c "population" else VNull)); [exact I|].
  rewrite !exec_bind.
  destruct (exec env n w (App.resolve _ _ rates)) as [[w1 t1] [rate1 gdp1]].
  destruct (exec env n w (Server.resolve _ _ rates)) as [[w2 t2] [rate2 gdp2]].
  destruct (normalizeName (or_else (get c "name") VNull)) as [e|s]; simpl; auto.
Qed.

(** The two tests of [computeEstimatedGDP] agree on a rate once the
    population is truthy. *)
Lemma rate_tests_agree {rt : Runtime} (rate : JsVal) :
  rate <> VNum NaN ->
  negb (truthy rate) || num_is_zero (ToNumber rate) =
  nullish rate || num_is_zero (ToNumber rate).
Proof.
  intros H. destruct rate as [| | [|] | [|q] | [|a s] | |]; simpl; try reflexivity.
  - congruence.
  - now destruct (Qeq_bool q 0).
  - now rewrite StringToNumber_empty.
Qed.

Lemma derive_same_when_resolved {rt : Runtime} (c rates : JsVal) env n w :
  qualifies c -> has_currency_code c = true ->
  first_currency_code c <> "" -> first_currency_code c <> "N/A" ->
  hasOwnProperty rates (first_currency_code c) = true ->
  get rates (first_currency_code c) <> VNum NaN ->
  truthy (get c "population") = true ->
  exec env n w (App.derive c rates) = exec env n w (Server.derive c rates).
Proof.
  intros Hq Hc Hne Hna Hr Hnan Hp.
  rewrite (App_exec_derive c rates env n w Hq), (Server_exec_derive c rates env n w Hq), Hc.
  cbv zeta. rewrite App_exec_resolve, Server_exec_resolve.
  rewrite (proj2 (String.eqb_neq _ _) Hna), (proj2 (truthy_string _) Hne).
  cbn [negb andb ToString]. rewrite Hr, Hp, (truthy_not_nullish _ Hp). cbn [negb orb].
  rewrite (rate_tests_agree _ Hnan). reflexivity.
Qed.

(** ** Tables keyed by the normalised name *)

Lemma upsert_country_keys (r : Db.Row) (t : list Db.Row) :
  map Db.normalized_name (Db.upsert_country r t) =
  if existsb (fun x => Db.duplicate_key x r) t then map Db.normalized_name t
  else (map Db.normalized_name t ++ [Db.normalized_name r])%list.
Proof.
  induction t as [|x t IH]; simpl; [reflexivity|].
  destruct (Db.duplicate_key x r); simpl; [reflexivity|].
  rewrite IH. now destruct (existsb (fun x0 => Db.duplicate_key x0 r) t).
Qed.

Lemma no_duplicate_key_not_in (r : Db.Row) (t : list Db.Row) :
  existsb (fun x => Db.duplicate_key x r) t = false ->
  ~ In (Db.normalized_name r) (map Db.normalized_name t).
Proof.
  induction t as [|x t IH]; simpl; [tauto|].
  intros H. apply orb_false_elim in H as [Hx Ht].
  intros [E|Hin]; [|now apply IH].
  unfold Db.duplicate_key in Hx. rewrite E, String.eqb_refl in Hx. discriminate.
Qed.

Lemma NoDup_snoc {A : Type} (l : list A) (a : A) :
  NoDup l -> ~ In a l -> NoDup (l ++ [a])%list.
Proof.
  induction l as [|x l IH]; simpl; intros Hnd Hin.
  - constructor; [tauto | constructor].
  - inversion Hnd as [|? ? Hx Hl]; subst. constructor.
    + rewrite in_app_iff. simpl. intros [H|[H|[]]]; [tauto|]. subst. tauto.
    + apply IH; tauto.
Qed.

Lemma upsert_country_normalized (r : Db.Row) (t : list Db.Row) :
  row_normalized r -> Forall row_normalized t -> Forall row_normalized (Db.upsert_country r t).
Proof.
  intros Hr. induction t as [|x t IH]; simpl; intros Ht.
  - now constructor.
  - inversion Ht as [|? ? Hx Ht']; subst.
    destruct (Db.duplicate_key x r) eqn:E.
    + constructor; [|exact Ht']. destruct Hr as (s & Hname & Hnorm).
      exists s. simpl. split; [exact Hname|].
      unfold Db.duplicate_key in E. apply String.eqb_eq in E. congruence.
    + constructor; [exact Hx | now apply IH].
Qed.

Lemma upsert_country_ok (r : Db.Row) (t : list Db.Row) :
  row_normalized r -> table_ok t -> table_ok (Db.upsert_country r t).
Proof.
  intros Hr [Hn Hd]. split; [now apply upsert_country_normalized|].
  rewrite upsert_country_keys.
  destruct (existsb (fun x => Db.duplicate_key x r) t) eqn:E; [exact Hd|].
  apply NoDup_snoc; [exact Hd | now apply no_duplicate_key_not_in].
Qed.

Lemma select_unique (r : Db.Row) (t : list Db.Row) :
  NoDup (map Db.normalized_name t) -> In r t ->
  Db.select_by_name (Db.normalized_name r) t = [r].
Proof.
  unfold Db.select_by_name. induction t as [|x t IH]; simpl; [tauto|].
  intros Hnd Hin. inversion Hnd as [|? ? Hx Hd]; subst.
  destruct Hin as [->|Hin].
  - rewrite String.eqb_refl. f_equal.
    clear IH Hnd Hd. induction t as [|y t IH]; simpl; [reflexivity|].
    destruct (Db.normalized_name y =? Db.normalized_name r) eqn:E.
    + apply String.eqb_eq in E. exfalso. apply Hx. simpl. now left.
    + apply IH. intros H. apply Hx. simpl. now right.
  - destruct (Db.normalized_name x =? Db.normalized_name r) eqn:E.
    + apply String.eqb_eq in E. exfalso. apply Hx. rewrite E. now apply in_map.
    + now apply IH.
Qed.

Lemma delete_removes (r : Db.Row) (t : list Db.Row) :
  NoDup (map Db.normalized_name t) -> In r t ->
  ~ In r (Db.delete_by_name (Db.normalized_name r) t) /\
  forall x, In x t -> x <> r -> In x (Db.delete_by_name (Db.normalized_name r) t).
Proof.
  intros Hnd Hin. unfold Db.delete_by_name. split.
  - rewrite filter_In. intros [_ H]. rewrite String.eqb_refl in H. discriminate.
  - intros x Hx Hne. rewrite filter_In. split; [exact Hx|].
    destruct (Db.normalized_name x =? Db.normalized_name r) eqn:E; [|reflexivity].
    apply String.eqb_eq in E. exfalso. apply Hne.
    pose proof (select_unique r t Hnd Hin) as Hsel.
    assert (Hxs : In x (Db.select_by_name (Db.normalized_name r) t)).
    { unfold Db.select_by_name. rewrite filter_In. split; [exact Hx|].
      now apply String.eqb_eq. }
    rewrite Hsel in Hxs. destruct Hxs as [->|[]]. reflexivity.
Qed.

Lemma derived_row_normalized (c : JsVal) (s : string) (code rate gdp : JsVal) (at_ : Date) :
  get c "name" = VStr s -> s <> "" ->
  row_normalized (row_of c (toLowerCase (trim s)) code rate gdp at_).
Proof.
  intros Hs Hne. exists s. simpl. unfold or_else.
  rewrite Hs, (proj2 (truthy_string s) Hne). split; [reflexivity | apply toLowerCase_trim].
Qed.

Lemma App_derive_row_normalized {rt : Runtime} (c rates : JsVal) env n w (row : Db.Row) :
  result (exec env n w (App.derive c rates)) = inr (Some row) -> row_normalized row.
Proof.
  intros H. destruct (App_derive_quiet c rates env n w) as (_ & _ & Hq & _).
  specialize (Hq row H). rewrite (App_exec_derive c rates env n w Hq) in H. cbv zeta in H.
  destruct (exec env n w (App.resolve _ _ rates)) as [[w1 t1] [rate gdp]].
  unfold result in H. simpl in H. injection H as <-.
  destruct Hq as [(s & Hs & Hne) _]. rewrite Hs. now apply derived_row_normalized.
Qed.

Lemma Server_derive_row_normalized {rt : Runtime} (c rates : JsVal) env n w (row : Db.Row) :
  result (exec env n w (Server.derive c rates)) = inr (Some row) -> row_normalized row.
Proof.
  intros H. destruct (Server_derive_quiet c rates env n w) as (_ & _ & Hq & _).
  specialize (Hq row H). rewrite (Server_exec_derive c rates env n w Hq) in H. cbv zeta in H.
  destruct (exec env n w (Server.resolve _ _ rates)) as [[w1 t1] [rate gdp]].
  unfold result in H. simpl in H. injection H as <-.
  destruct Hq as [(s & Hs & Hne) _]. rewrite Hs. now apply derived_row_normalized.
Qed.

(** ** Lookup and deletion by name *)

Lemma exec_get_country (param : string) env n w :
  db_rejects (env n) = false ->
  exec env n w (get_country param) =
  (w, [existT _ (SelectByName (toLowerCase (trim param)))
         (inr (Db.select_by_name (toLowerCase (trim param)) (Db.countries (tables w))))],
   match Db.select_by_name (toLowerCase (trim param)) (Db.countries (tables w)) with
   | [] => not_found
   | row :: _ => json (row_json row)
   end).
Proof.
  intros Hdb. unfold get_country. rewrite normalizeName_string. cbn.
  unfold perform. rewrite Hdb.
  destruct (Db.select_by_name (toLowerCase (trim param)) (Db.countries (tables w)));
    reflexivity.
Qed.

Lemma exec_delete_country (param : string) env n w :
  db_rejects (env n) = false ->
  final (exec env n w (delete_country param)) =
    with_tables {| Db.countries := Db.delete_by_name (toLowerCase (trim param))
                                                     (Db.countries (tables w));
                   Db.meta := Db.meta (tables w) |} w /\
  result (exec env n w (delete_country param)) =
    match Db.select_by_name (toLowerCase (trim param)) (Db.countries (tables w)) with
    | [] => not_found
    | _ :: _ => deleted
    end.
Proof.
  intros Hdb. unfold delete_country. rewrite normalizeName_string. cbn.
  unfold perform. rewrite Hdb.
  destruct (Db.select_by_name (toLowerCase (trim param)) (Db.countries (tables w)));
    split; reflexivity.
Qed.

Lemma stored_key (t : list Db.Row) (r : Db.Row) (s v : string) :
  table_ok t -> In r t -> Db.name r = VStr s -> variant s v ->
  toLowerCase (trim v) = Db.normalized_name r.
Proof.
  intros [Hn _] Hin Hs Hv. rewrite Forall_forall in Hn.
  destruct (Hn r Hin) as (s' & Hs' & Hk). rewrite Hs in Hs'. injection Hs' as <-.
  pose proof (normalizeName_variant s v Hv) as E.
  rewrite !normalizeName_string in E. injection E as E.
  now rewrite E, toLowerCase_trim.
Qed.

(** ** Connections and transactions *)

Lemma set_conn_length (c : Conn) (st : ConnState) (cs : list ConnState) :
  List.length (set_conn c st cs) = List.length cs.
Proof.
  revert c. induction cs as [|x cs IH]; intros [|c]; simpl; auto.
Qed.

Lemma nth_set_conn (c : Conn) (st : ConnState) (cs : list ConnState) :
  (c < List.length cs)%nat -> nth c (set_conn c st cs) None = st.
Proof.
  revert c. induction cs as [|x cs IH]; intros [|c]; simpl; intros H; try lia; auto.
  apply IH. lia.
Qed.

Lemma set_conn_twice (c : Conn) (st st' : ConnState) (cs : list ConnState) :
  set_conn c st (set_conn c st' cs) = set_conn c st cs.
Proof.
  revert c. induction cs as [|x cs IH]; intros [|c]; simpl; auto. now rewrite IH.
Qed.

Lemma set_conn_same (c : Conn) (cs : list ConnState) :
  (c < List.length cs)%nat -> set_conn c (nth c cs None) cs = cs.
Proof.
  revert c. induction cs as [|x cs IH]; intros [|c]; simpl; intros H; try lia; auto.
  rewrite IH; [reflexivity | lia].
Qed.

Lemma nth_some_lt (c : Conn) (cs : list ConnState) (l : list Db.Stmt) :
  nth c cs None = Some l -> (c < List.length cs)%nat.
Proof.
  intros H. destruct (Nat.lt_ge_cases c (List.length cs)) as [Hlt|Hge]; [exact Hlt|].
  rewrite (nth_overflow _ _ Hge) in H. discriminate.
Qed.

Lemma with_connections_same (w : World) : with_connections (connections w) w = w.
Proof. destruct w; reflexivity. Qed.

Lemma with_tables_same (w : World) : with_tables (tables w) w = w.
Proof. destruct w; reflexivity. Qed.

Lemma failed_statement_upsert_ok (conn : Conn) (s : Db.Stmt) (u : unit) :
  failed_statement (existT _ (Execute conn s) (inr u)) = false.
Proof. reflexivity. Qed.

Lemma loop_event_excludes (g : Event -> bool) (t : list Event) :
  (forall e, loop_event e = true -> g e = false) ->
  forallb loop_event t = true -> existsb g t = false.
Proof.
  intros Hg. induction t as [|e t IH]; simpl; [reflexivity|].
  intros H. apply andb_prop in H as [He Ht]. now rewrite (Hg e He), IH.
Qed.

Lemma quiet_loop_event (t : list Event) :
  forallb quiet t = true -> forallb loop_event t = true.
Proof.
  induction t as [|e t IH]; simpl; [reflexivity|].
  intros H. apply andb_prop in H as [He Ht]. unfold loop_event at 1. now rewrite He, IH.
Qed.

Section Loop.

Variable derive : JsVal -> M Derived.

Hypothesis derive_quiet : forall c env n w,
  final (exec env n w (derive c)) = w /\
  forallb quiet (trace (exec env n w (derive c))) = true /\
  (forall row, result (exec env n w (derive c)) = inr (Some row) ->
               row_normalized row /\ qualifies c) /\
  (forall e, result (exec env n w (derive c)) = inl e -> e = TypeError).

(** The loop, run inside a transaction of [conn]: it touches nothing but
    the pending statements of [conn], to which it adds the upserts. *)
Lemma upsert_each_run (conn : Conn) (catalog : list JsVal) :
  forall env n w l,
    conn_state w conn = Some l ->
    exists added,
      final (exec env n w (upsert_each derive conn catalog)) =
        with_connections (set_conn conn (Some (l ++ added)%list) (connections w)) w /\
      Forall stmt_ok added /\
      forallb loop_event (trace (exec env n w (upsert_each derive conn catalog))) = true /\
      (result (exec env n w (upsert_each derive conn catalog)) = inr tt ->
       existsb failed_statement (trace (exec env n w (upsert_each derive conn catalog)))
       = false) /\
      (forall e, result (exec env n w (upsert_each derive conn catalog)) = inl e ->
                 e = TypeError \/ e = DriverError) /\
      ((forall c, In c catalog -> ~ qualifies c) -> added = []).
Proof.
  induction catalog as [|c rest IH]; intros env n w l Hl.
  - exists []. simpl. unfold final, trace, result; simpl. rewrite app_nil_r.
    unfold conn_state in Hl. rewrite <- Hl, set_conn_same, with_connections_same.
    + repeat split; auto. discriminate.
    + eapply nth_some_lt. exact Hl.
  - rewrite upsert_each_cons.
    destruct (derive_quiet c env n w) as (Hw & Hq & Hsome & Herr).
    destruct (exec env n w (derive c)) as [[w1 t1] d].
    unfold final, trace, result in Hw, Hq, Hsome, Herr. simpl in Hw, Hq, Hsome, Herr.
    subst w1. cbv zeta. destruct d as [e|[row|]].
    + exists []. unfold final, trace, result; simpl. rewrite app_nil_r.
      unfold conn_state in Hl. rewrite <- Hl, set_conn_same, with_connections_same
        by (eapply nth_some_lt; exact Hl).
      repeat split; auto; try discriminate.
      * now apply quiet_loop_event.
      * intros e' [= <-]. left. now apply Herr.
    + destruct (Hsome row eq_refl) as [Hrow Hc].
      unfold perform. destruct (db_rejects (env (n + List.length t1)%nat)).
      * exists []. unfold final, trace, result; simpl. rewrite app_nil_r.
        unfold conn_state in Hl. rewrite <- Hl, set_conn_same, with_connections_same
          by (eapply nth_some_lt; exact Hl).
        repeat split; auto; try discriminate.
        -- rewrite forallb_app, (quiet_loop_event _ Hq). reflexivity.
        -- intros e [= <-]. now right.
      * rewrite Hl.
        set (w2 := with_connections
                     (set_conn conn (Some (l ++ [Db.UpsertCountry row])%list) (connections w))
                     w).
        assert (Hl2 : conn_state w2 conn = Some (l ++ [Db.UpsertCountry row])%list).
        { unfold conn_state, w2. simpl. apply nth_set_conn. eapply nth_some_lt. exact Hl. }
        destruct (IH env (S (n + List.length t1)) w2 _ Hl2)
          as (added & Hfin & Hok & Hev & Hres & Herr' & _).
        destruct (exec env (S (n + List.length t1)) w2 (upsert_each derive conn rest))
          as [[w3 t3] r].
        unfold final, trace, result in *. simpl in *.
        exists (Db.UpsertCountry row :: added). subst w3.
        repeat split.
        -- unfold w2. simpl. rewrite set_conn_twice, <- app_assoc. reflexivity.
        -- constructor; [exact Hrow | exact Hok].
        -- rewrite forallb_app, (quiet_loop_event _ Hq). simpl.
           unfold loop_event at 1. simpl. exact Hev.
        -- intros Hr. rewrite existsb_app. simpl.
           rewrite (quiet_excludes _ _ quiet_not_failed Hq), (Hres Hr). reflexivity.
        -- exact Herr'.
        -- intros Hnone. exfalso. apply (Hnone c); [now left | exact Hc].
    + destruct (IH env (n + List.length t1)%nat w l Hl)
        as (added & Hfin & Hok & Hev & Hres & Herr' & Hnone).
      destruct (exec env (n + List.length t1) w (upsert_each derive conn rest))
        as [[w2 t2] r].
      unfold final, trace, result in *. simpl in *.
      exists added. repeat split; auto.
      * rewrite forallb_app, (quiet_loop_event _ Hq). exact Hev.
      * intros Hr. rewrite existsb_app.
        rewrite (quiet_excludes _ _ quiet_not_failed Hq), (Hres Hr). reflexivity.
Qed.

End Loop.

Lemma conn_state_set (w : World) (conn : Conn) (cs : list ConnState) (st : ConnState) :
  (conn < List.length cs)%nat ->
  conn_state (with_connections (set_conn conn st cs) w) conn = st.
Proof. intros H. unfold conn_state. simpl. now apply nth_set_conn. Qed.

Lemma loop_event_not_committed (e : Event) : loop_event e = true -> committed e = false.
Proof. destruct e as [[] a]; cbn; intros H; try discriminate H; reflexivity. Qed.

Section Transaction.

Variable derive : JsVal -> M Derived.

Hypothesis derive_quiet : forall c env n w,
  final (exec env n w (derive c)) = w /\
  forallb quiet (trace (exec env n w (derive c))) = true /\
  (forall row, result (exec env n w (derive c)) = inr (Some row) ->
               row_normalized row /\ qualifies c) /\
  (forall e, result (exec env n w (derive c)) = inl e -> e = TypeError).

Lemma transaction_run (conn : Conn) (catalog : list JsVal) env n w :
  conn_state w conn = None -> (conn < List.length (connections w))%nat ->
  aborted_before_commit w (exec env n w (transaction_with derive conn catalog)) \/
  committed_run w catalog (exec env n w (transaction_with derive conn catalog)).
Proof.
  intros Hnone Hlt.
  remember (exec env n w (transaction_with derive conn catalog)) as run eqn:Hrun.
  unfold transaction_with in Hrun.
  simpl in Hrun. unfold perform at 1 in Hrun. destruct (db_rejects (env n)) eqn:D0.
  { subst run. left. unfold aborted_before_commit, final, trace, result. simpl.
    repeat split; auto. exists DriverError. auto. }
  unfold pending in Hrun. rewrite Hnone in Hrun. cbn [Db.apply_all fold_left] in Hrun.
  rewrite with_tables_same in Hrun.
  set (w1 := with_connections (set_conn conn (Some []) (connections w)) w) in *.
  assert (H1 : conn_state w1 conn = Some []) by (now apply conn_state_set).
  unfold bindE at 1 in Hrun. rewrite exec_bind in Hrun.
  destruct (upsert_each_run derive derive_quiet conn catalog env (S n) w1 [] H1)
    as (added & Hfin & Hok & Hev & Hres & Herr & Hskip).
  destruct (exec env (S n) w1 (upsert_each derive conn catalog)) as [[w2 t2] r2].
  unfold final, trace, result in Hfin, Hev, Hres, Herr. simpl in Hfin, Hev, Hres, Herr.
  pose proof (loop_event_excludes _ _ loop_event_not_committed Hev) as Hnc.
  assert (H2 : conn_state w2 conn = Some added).
  { subst w2. rewrite set_conn_twice. unfold w1. now apply conn_state_set. }
  assert (Ht2 : tables w2 = tables w) by (subst w2; reflexivity).
  assert (Hg2 : refreshInProgress w2 = refreshInProgress w) by (subst w2; reflexivity).
  assert (Hi2 : summary_image w2 = summary_image w) by (subst w2; reflexivity).
  assert (Hl2 : (conn < List.length (connections w2))%nat).
  { subst w2. simpl. now rewrite !set_conn_length. }
  clear Hfin. destruct r2 as [e|[]].
  { subst run. left. unfold aborted_before_commit, final, trace, result. simpl.
    rewrite app_nil_r. repeat split; auto. exists e. split; [reflexivity | now apply Herr]. }
  specialize (Hres eq_refl). clear Herr.
  simpl in Hrun. unfold perform at 1 in Hrun.
  destruct (db_rejects (env (S (S (n + List.length t2))))) eqn:D1.
  { subst run. left. unfold aborted_before_commit, final, trace, result. simpl.
    rewrite existsb_app, Hnc. simpl. repeat split; auto. exists DriverError. auto. }
  rewrite H2 in Hrun.
  set (ts := now (env (S (n + List.length t2)))) in *.
  set (meta := Db.UpsertMeta "last_refreshed_at" ts) in *.
  set (w3 := with_connections (set_conn conn (Some (added ++ [meta])%list) (connections w2)) w2)
    in *.
  assert (H3 : pending w3 conn = (added ++ [meta])%list).
  { unfold pending, w3. now rewrite conn_state_set. }
  simpl in Hrun. unfold perform at 1 in Hrun.
  destruct (db_rejects (env (S (S (S (n + List.length t2)))))) eqn:D2.
  { subst run. left. unfold aborted_before_commit, final, trace, result. simpl.
    rewrite existsb_app, Hnc. simpl. repeat split; auto. exists DriverError. auto. }
  rewrite H3 in Hrun.
  set (w4 := with_connections (set_conn conn None (connections w3))
               (with_tables (Db.apply_all (tables w3) (added ++ [meta])%list) w3)) in *.
  assert (Ht4 : tables w4 = Db.apply_all (tables w) (added ++ [meta])%list).
  { unfold w4. simpl. now rewrite Ht2. }
  assert (Hg4 : refreshInProgress w4 = refreshInProgress w) by (unfold w4; simpl; exact Hg2).
  right. unfold committed_run.
  assert (Hfs : forall tail, existsb failed_statement tail = false ->
                existsb failed_statement
                  (existT Ans (BeginTransaction conn) (inr tt)
                   :: t2 ++ existT Ans NewDate ts
                         :: existT Ans (Execute conn meta) (inr tt)
                         :: existT Ans (Commit conn) (inr tt) :: tail)%list = false).
  { intros tail Htail. simpl. rewrite existsb_app, Hres. simpl. exact Htail. }
  simpl in Hrun. unfold perform at 1 in Hrun.
  destruct (db_rejects (env (S (S (S (S (n + List.length t2))))))) eqn:D3.
  { subst run. unfold final, trace, result. simpl. split; [apply Hfs; reflexivity|].
    exists added, ts. repeat split; auto. }
  simpl in Hrun. unfold perform at 1 in Hrun.
  destruct (db_rejects (env (S (S (S (S (S (n + List.length t2)))))))) eqn:D4.
  { subst run. unfold final, trace, result. simpl. split; [apply Hfs; reflexivity|].
    exists added, ts. repeat split; auto. }
  simpl in Hrun. unfold perform in Hrun.
  destruct (render_rejects (env (S (S (S (S (S (S (n + List.length t2))))))))) eqn:D5;
    simpl in Hrun; subst run; unfold final, trace, result; simpl;
    (split; [apply Hfs; reflexivity|]);
    exists added, ts; repeat split; auto.
Qed.

End Transaction.

(** ** The refresh handlers, stage by stage *)

Lemma perform_fetch (ch : Choice) (w : World) : perform ch w FetchAll = (w, fetched ch).
Proof. reflexivity. Qed.

Lemma App_exec_refresh {rt : Runtime} env n w :
  refreshInProgress w = false ->
  exec env n w App.refresh =
  let w1 := with_guard true w in
  let head := [ev GetRefreshInProgress false; ev (SetRefreshInProgress true) tt;
               ev FetchAll (fetched (env (2 + n)%nat))] in
  let failed (t : list Event) (r : Response) :=
    (with_guard false w1, (head ++ t ++ [ev (SetRefreshInProgress false) tt])%list, r) in
  match fetched (env (2 + n)%nat) with
  | inl err => failed [] (error_response err)
  | inr (countriesData, ratesData) =>
      if negb (isArray countriesData) then failed [] (service_unavailable "Countries API")
      else if db_rejects (env (3 + n)%nat) then failed [ev GetConnection rejected] internal_error
      else
        let conn := List.length (connections w) in
        let w2 := with_connections (connections w ++ [None])%list w1 in
        let got := ev GetConnection (inr conn) in
        let '(w3, t3, done) :=
          exec env (4 + n) w2 (App.transaction conn (rates_of ratesData)
                                               (elements countriesData)) in
        match done with
        | inr response => (w3, (head ++ got :: t3)%list, response)
        | inl err =>
            let '(w4, t4, response) :=
              exec env (4 + n + List.length t3) w3 (App.refresh_catch (Some conn) err) in
            (w4, (head ++ got :: t3 ++ t4)%list, response)
        end
  end.
Proof.
  intros Hg. unfold App.refresh.
  cbn -[perform App.transaction App.refresh_catch].
  unfold perform at 1. rewrite Hg.
  cbn -[perform App.transaction App.refresh_catch].
  unfold perform at 1.
  cbn -[perform App.transaction App.refresh_catch].
  rewrite perform_fetch.
  destruct (fetched (env (S (S n)))) as [err|[cd rd]].
  - reflexivity.
  - destruct (isArray cd); cbn -[perform App.transaction App.refresh_catch]; [|reflexivity].
    unfold perform at 1. destruct (db_rejects (env (S (S (S n))))).
    + reflexivity.
    + cbn -[perform App.transaction App.refresh_catch]. rewrite exec_bind.
      destruct (exec env (S (S (S (S n)))) _ (App.transaction _ _ _)) as [[w3 t3] [err|resp]].
      * cbn -[perform App.transaction App.refresh_catch].
        destruct (exec env _ w3 (App.refresh_catch _ err)) as [[w4 t4] resp]. reflexivity.
      * cbn. rewrite app_nil_r. reflexivity.
Qed.

Lemma Server_exec_refresh {rt : Runtime} env n w :
  refreshInProgress w = false ->
  exec env n w Server.refresh =
  let w1 := with_guard true w in
  let head := [ev GetRefreshInProgress false; ev (SetRefreshInProgress true) tt;
               ev FetchAll (fetched (env (2 + n)%nat))] in
  let failed (t : list Event) (r : Response) :=
    (with_guard false w1, (head ++ t ++ [ev (SetRefreshInProgress false) tt])%list, r) in
  match fetched (env (2 + n)%nat) with
  | inl err => failed [] (error_response err)
  | inr (countriesResp, ratesResp) =>
      if negb (isArray countriesResp) then failed [] (service_unavailable "Countries API")
      else if db_rejects (env (3 + n)%nat) then failed [ev GetConnection rejected] internal_error
      else
        let conn := List.length (connections w) in
        let w2 := with_connections (connections w ++ [None])%list w1 in
        let got := ev GetConnection (inr conn) in
        let '(w3, t3, inner) :=
          exec env (4 + n) w2 (Server.transaction conn (rates_of ratesResp)
                                                  (elements countriesResp)) in
        match inner with
        | inr response => (w3, (head ++ got :: t3 ++ [ev (Release conn) tt])%list, response)
        | inl dbErr =>
            let (w4, a) := perform (env (4 + n + List.length t3)%nat) w3 (Rollback conn) in
            (with_guard false w4,
             (head ++ got :: t3 ++ [ev (Rollback conn) a; ev (SetRefreshInProgress false) tt;
                                    ev (Release conn) tt])%list,
             internal_error)
        end
  end.
Proof.
  intros Hg. unfold Server.refresh.
  cbn -[perform Server.transaction].
  unfold perform at 1. rewrite Hg.
  cbn -[perform Server.transaction].
  unfold perform at 1.
  cbn -[perform Server.transaction].
  rewrite perform_fetch.
  destruct (fetched (env (S (S n)))) as [err|[cd rd]].
  - reflexivity.
  - destruct (isArray cd); cbn -[perform Server.transaction]; [|reflexivity].
    unfold perform at 1. destruct (db_rejects (env (S (S (S n))))).
    + reflexivity.
    + cbn -[perform Server.transaction]. rewrite !exec_bind.
      destruct (exec env (S (S (S (S n)))) _ (Server.transaction _ _ _))
        as [[w3 t3] [err|resp]].
      * cbn -[perform Server.transaction].
        destruct (perform (env (S (S (S (S (n + List.length t3))))))%nat w3 (Rollback _))
          as [w4 a].
        unfold perform. cbn. rewrite app_nil_r. reflexivity.
      * cbn -[perform Server.transaction]. unfold perform. cbn.
        rewrite app_nil_r. reflexivity.
Qed.

(** ** The sources fail *)

Lemma fetch_fails_on_timeout : fetchWithTimeout Aborted = inl AbortError.
Proof. reflexivity. Qed.

Lemma fetch_fails_outside_2xx (st : Z) (payload : option JsVal) :
  (st < 200 \/ 299 < st)%Z -> exists e, fetchWithTimeout (Replied st payload) = inl e.
Proof.
  intros H. unfold fetchWithTimeout.
  assert (E : ((200 <=? st) && (st <=? 299))%Z = false).
  { apply andb_false_iff. destruct H; [left; apply Z.leb_gt | right; apply Z.leb_gt]; lia. }
  rewrite E. simpl. eauto.
Qed.

Lemma fetch_stage_unavailable {rt : Runtime} (ch : Choice) :
  countries_unavailable ch \/ rates_unavailable ch ->
  exists source,
    unavailable source ch /\
    match fetched ch with
    | inl err => error_response err = service_unavailable source
    | inr (countriesData, _) => isArray countriesData = false /\ source = "Countries API"
    end.
Proof.
  intros H. unfold fetched, unavailable, countries_unavailable, rates_unavailable in *.
  destruct (fetchWithTimeout (countries_reply ch)) as [ec|vc] eqn:Ec;
    destruct (fetchWithTimeout (rates_reply ch)) as [er|vr] eqn:Er; simpl.
  - destruct (rates_settles_first ch).
    + exists "Exchange Rates API". split; [right; eauto | reflexivity].
    + exists "Countries API". split; [left; eauto | reflexivity].
  - exists "Countries API". split; [left; eauto | reflexivity].
  - exists "Exchange Rates API". split; [right; eauto | reflexivity].
  - exists "Countries API".
    destruct H as [[[e He] | (v & Hv & Harr)] | [e He]]; try discriminate.
    injection Hv as <-. split; [left; split; [reflexivity|]; right; eauto | auto].
Qed.

(** ** The storage stage *)

Lemma App_derive_facts {rt : Runtime} (rates : JsVal) :
  forall c env n w,
    final (exec env n w (App.derive c rates)) = w /\
    forallb quiet (trace (exec env n w (App.derive c rates))) = true /\
    (forall row, result (exec env n w (App.derive c rates)) = inr (Some row) ->
                 row_normalized row /\ qualifies c) /\
    (forall e, result (exec env n w (App.derive c rates)) = inl e -> e = TypeError).
Proof.
  intros c env n w. destruct (App_derive_quiet c rates env n w) as (H1 & H2 & H3 & H4).
  split; [exact H1|]. split; [exact H2|]. split; [|exact H4].
  intros row Hr. split; [|exact (H3 row Hr)].
  now apply (App_derive_row_normalized c rates env n w).
Qed.

Lemma Server_derive_facts {rt : Runtime} (rates : JsVal) :
  forall c env n w,
    final (exec env n w (Server.derive c rates)) = w /\
    forallb quiet (trace (exec env n w (Server.derive c rates))) = true /\
    (forall row, result (exec env n w (Server.derive c rates)) = inr (Some row) ->
                 row_normalized row /\ qualifies c) /\
    (forall e, result (exec env n w (Server.derive c rates)) = inl e -> e = TypeError).
Proof.
  intros c env n w. destruct (Server_derive_quiet c rates env n w) as (H1 & H2 & H3 & H4).
  split; [exact H1|]. split; [exact H2|]. split; [|exact H4].
  intros row Hr. split; [|exact (H3 row Hr)].
  now apply (Server_derive_row_normalized c rates env n w).
Qed.

Lemma fresh_connection (w : World) (b : bool) :
  let w2 := with_connections (connections w ++ [None])%list (with_guard b w) in
  conn_state w2 (List.length (connections w)) = None /\
  (List.length (connections w) < List.length (connections w2))%nat.
Proof.
  cbv zeta. unfold conn_state. simpl. split.
  - rewrite app_nth2, Nat.sub_diag; [reflexivity | lia].
  - rewrite length_app. simpl. lia.
Qed.

Lemma perform_rollback (ch : Choice) (w : World) (conn : Conn) :
  tables (fst (perform ch w (Rollback conn))) = tables w /\
  refreshInProgress (fst (perform ch w (Rollback conn))) = refreshInProgress w.
Proof. unfold perform. destruct (db_rejects ch); split; reflexivity. Qed.

Lemma App_exec_refresh_catch {rt : Runtime} (conn : Conn) (err : Thrown) env n w :
  exec env n w (App.refresh_catch (Some conn) err) =
  let (w1, a) := perform (env (S n)) (with_guard false w) (Rollback conn) in
  (w1, [ev (SetRefreshInProgress false) tt; ev (Rollback conn) a; ev (Release conn) tt],
   error_response err).
Proof.
  unfold App.refresh_catch. cbn -[perform]. unfold perform at 1.
  destruct (perform (env (S n)) (with_guard false w) (Rollback conn)) as [w1 a].
  reflexivity.
Qed.

Lemma error_response_internal {rt : Runtime} (e : Thrown) :
  e = TypeError \/ e = DriverError -> error_response e = internal_error.
Proof. intros [-> | ->]; reflexivity. Qed.

(** ** A cycle in which no entry qualifies *)

Lemma lookup_upsert_meta (key value : string) (m : list (string * string)) :
  Db.lookup_meta key (Db.upsert_meta key value m) = Some value.
Proof.
  induction m as [|[k v] m IH]; simpl.
  - now rewrite String.eqb_refl.
  - destruct (k =? key) eqn:E; simpl; rewrite E; [reflexivity | exact IH].
Qed.

(** ** The discipline of the guard *)



Lemma cleared_weaken {R : Type} (Q Q' : R -> Prop) (p : Prog R) :
  (forall r, Q r -> Q' r) -> cleared Q p -> cleared Q' p.
Proof. intros HQ H. induction H; constructor; auto. Qed.



























(** ** One cycle at a time *)

















(** The first implementation clears the guard before it awaits
    [conn.rollback()] (the second awaits the rollback first): the process
    is back to idle, and open to a new cycle, while the handler of the
    failed cycle is still suspended at its rollback. *)
Lemma App_guard_cleared_before_rollback {rt : Runtime} :
  exists s,
    reachable App.refresh (boot empty_world) s /\
    idle s /\
    match suspended s with
    | [Vis (Rollback _) _] => True
    | _ => False
    end.
Proof.
  pose (ok := fun _ : nat => calm (VArr []) no_rates).
  pose (down := fun _ : nat => store_down (VArr []) no_rates).
  eexists. split; [|split].
  - eapply reachable_step.
    + eapply reachable_step.
      * eapply reachable_step.
        -- eapply reachable_step; [apply reachable_start|].
           apply (step_arrive App.refresh ok PostRefresh).
        -- apply (step_resume App.refresh ok _ [] []). reflexivity.
      * apply (step_resume App.refresh ok _ [] []). reflexivity.
    + apply (step_resume App.refresh down _ [] []). reflexivity.
  - split; [reflexivity|]. repeat constructor; try reflexivity.
  - exact I.
Qed.

(** ** All or nothing *)

Lemma App_exec_refresh_busy {rt : Runtime} env n w :
  refreshInProgress w = true ->
  exec env n w App.refresh = (w, [ev GetRefreshInProgress true], already_in_progress).
Proof.
  intros H. unfold App.refresh. cbn -[perform App.transaction App.refresh_catch].
  unfold perform. rewrite H. reflexivity.
Qed.

Lemma Server_exec_refresh_busy {rt : Runtime} env n w :
  refreshInProgress w = true ->
  exec env n w Server.refresh = (w, [ev GetRefreshInProgress true], already_in_progress).
Proof.
  intros H. unfold Server.refresh. cbn -[perform Server.transaction].
  unfold perform. rewrite H. reflexivity.
Qed.

(** A cycle leaves the tables as they were, or applies to them all the
    upserts of the cycle and the time of the refresh. *)
Lemma App_refresh_all_or_nothing {rt : Runtime} env n w :
  tables (final (exec env n w App.refresh)) = tables w \/
  exists added ts,
    Forall stmt_ok added /\
    tables (final (exec env n w App.refresh)) =
      Db.apply_all (tables w) (added ++ [Db.UpsertMeta "last_refreshed_at" ts])%list.
Proof.
  destruct (refreshInProgress w) eqn:Hg.
  { left. now rewrite App_exec_refresh_busy. }
  rewrite (App_exec_refresh env n w Hg). cbv zeta.
  destruct (fetched (env (2 + n)%nat)) as [err|[cd rd]]; [now left|].
  destruct (isArray cd); cbn [negb]; [|now left].
  destruct (db_rejects (env (3 + n)%nat)); [now left|].
  destruct (fresh_connection w true) as [Hnone Hlt]. cbv zeta in Hnone, Hlt.
  pose proof (transaction_run _ (App_derive_facts (rates_of rd))
                (List.length (connections w)) (elements cd) env (4 + n) _ Hnone Hlt) as Hrun.
  fold (App.transaction (List.length (connections w)) (rates_of rd) (elements cd)) in Hrun.
  destruct (exec env (4 + n) _ (App.transaction _ _ _)) as [[w3 t3] done].
  unfold aborted_before_commit, committed_run, final, trace, result in Hrun.
  cbn [fst snd] in Hrun.
  assert (Hcatch : forall e,
             tables (final (exec env (4 + n + List.length t3) w3
                                 (App.refresh_catch (Some (List.length (connections w))) e)))
             = tables w3).
  { intros e. rewrite App_exec_refresh_catch.
    destruct (perform_rollback (env (S (4 + n + List.length t3)))
                (with_guard false w3) (List.length (connections w))) as [Hrt _].
    destruct (perform _ (with_guard false w3) (Rollback _)) as [w4 a]. exact Hrt. }
  destruct Hrun as [(_ & Ht & _ & _ & e & He & _) | (_ & added & ts & Hok & _ & Ht & Hres)];
    simpl in Ht.
  - left. subst done. specialize (Hcatch e).
    destruct (exec env _ w3 (App.refresh_catch _ e)) as [[w4 t4] r].
    unfold final in *. cbn [fst] in *. congruence.
  - right. exists added, ts. split; [exact Hok|].
    destruct Hres as [[-> _] | [-> _]].
    + specialize (Hcatch DriverError).
      destruct (exec env _ w3 (App.refresh_catch _ DriverError)) as [[w4 t4] r].
      unfold final in *. cbn [fst] in *. congruence.
    + exact Ht.
Qed.

Lemma Server_refresh_all_or_nothing {rt : Runtime} env n w :
  tables (final (exec env n w Server.refresh)) = tables w \/
  exists added ts,
    Forall stmt_ok added /\
    tables (final (exec env n w Server.refresh)) =
      Db.apply_all (tables w) (added ++ [Db.UpsertMeta "last_refreshed_at" ts])%list.
Proof.
  destruct (refreshInProgress w) eqn:Hg.
  { left. now rewrite Server_exec_refresh_busy. }
  rewrite (Server_exec_refresh env n w Hg). cbv zeta.
  destruct (fetched (env (2 + n)%nat)) as [err|[cd rd]]; [now left|].
  destruct (isArray cd); cbn [negb]; [|now left].
  destruct (db_rejects (env (3 + n)%nat)); [now left|].
  destruct (fresh_connection w true) as [Hnone Hlt]. cbv zeta in Hnone, Hlt.
  pose proof (transaction_run _ (Server_derive_facts (rates_of rd))
                (List.length (connections w)) (elements cd) env (4 + n) _ Hnone Hlt) as Hrun.
  fold (Server.transaction (List.length (connections w)) (rates_of rd) (elements cd)) in Hrun.
  destruct (exec env (4 + n) _ (Server.transaction _ _ _)) as [[w3 t3] inner].
  unfold aborted_before_commit, committed_run, final, trace, result in Hrun.
  cbn [fst snd] in Hrun.
  destruct (perform_rollback (env (4 + n + List.length t3)%nat) w3
              (List.length (connections w))) as [Hrt _].
  destruct Hrun as [(_ & Ht & _ & _ & e & He & _) | (_ & added & ts & Hok & _ & Ht & Hres)];
    simpl in Ht.
  - left. subst inner. destruct (perform _ w3 (Rollback _)) as [w4 a].
    unfold final. cbn [fst] in *. simpl. congruence.
  - right. exists added, ts. split; [exact Hok|].
    destruct Hres as [[-> _] | [-> _]].
    + destruct (perform _ w3 (Rollback _)) as [w4 a].
      unfold final. cbn [fst] in *. simpl. congruence.
    + exact Ht.
Qed.

Lemma apply_all_table_ok (l : list Db.Stmt) (t : Db.Tables) :
  Forall stmt_ok l -> table_ok (Db.countries t) ->
  table_ok (Db.countries (Db.apply_all t l)).
Proof.
  unfold Db.apply_all. revert t. induction l as [|s l IH]; intros t Hl Ht; [exact Ht|].
  inversion Hl as [|? ? Hs Hl']; subst. simpl. apply IH; [exact Hl'|].
  destruct s as [r | key value]; simpl; [|exact Ht]. now apply upsert_country_ok.
Qed.

Lemma NoDup_map_filter {A B : Type} (f : A -> B) (g : A -> bool) (l : list A) :
  NoDup (map f l) -> NoDup (map f (filter g l)).
Proof.
  induction l as [|x l IH]; simpl; intros H; [exact H|].
  inversion H as [|? ? Hx Hl]; subst. destruct (g x); simpl; [|now apply IH].
  constructor; [|now apply IH]. intros Hin. apply Hx.
  apply in_map_iff in Hin as (y & Hy & Hin). apply filter_In in Hin as [Hin _].
  rewrite <- Hy. now apply in_map.
Qed.

Lemma delete_by_name_ok (key : string) (t : list Db.Row) :
  table_ok t -> table_ok (Db.delete_by_name key t).
Proof.
  intros [Hn Hd]. unfold Db.delete_by_name. split.
  - rewrite Forall_forall in *. intros r Hr. apply filter_In in Hr as [Hr _]. auto.
  - now apply NoDup_map_filter.
Qed.

(** The table stays normalised and keyed through refresh cycles and
    deletions. *)
Lemma handlers_keep_table_ok {rt : Runtime} env n w :
  table_ok (Db.countries (tables w)) ->
  table_ok (Db.countries (tables (final (exec env n w App.refresh)))) /\
  table_ok (Db.countries (tables (final (exec env n w Server.refresh)))) /\
  forall param,
    table_ok (Db.countries (tables (final (exec env n w (delete_country param))))).
Proof.
  intros Hok. split; [|split].
  - destruct (App_refresh_all_or_nothing env n w) as [-> | (added & ts & Ha & ->)];
      [exact Hok|].
    apply apply_all_table_ok; [|exact Hok]. rewrite Forall_app. split; [exact Ha|].
    constructor; [exact I | constructor].
  - destruct (Server_refresh_all_or_nothing env n w) as [-> | (added & ts & Ha & ->)];
      [exact Hok|].
    apply apply_all_table_ok; [|exact Hok]. rewrite Forall_app. split; [exact Ha|].
    constructor; [exact I | constructor].
  - intros param. unfold delete_country. rewrite normalizeName_string. cbn -[perform].
    unfold perform. destruct (db_rejects (env n)); [exact Hok|]. simpl.
    destruct (List.length _ =? 0)%nat; simpl; now apply delete_by_name_ok.
Qed.

(** * The claims *)

(** C1: when a statement of the transaction (an upsert or the write of
    the refresh time) is rejected, each implementation leaves both tables
    as they were before the cycle, never commits, calls [rollback], answers
    500 and clears the guard; and whatever happens in a cycle, the tables
    end either as they were or with all the upserts of the cycle and the
    time of the refresh applied. *)
Theorem C1_failed_statement_rolls_back {rt : Runtime}
  (env : nat -> Choice) (n : nat) (w : World) :
  refreshInProgress w = false ->
  (tables (final (exec env n w App.refresh)) = tables w \/
   exists added ts,
     Forall stmt_ok added /\
     tables (final (exec env n w App.refresh)) =
       Db.apply_all (tables w) (added ++ [Db.UpsertMeta "last_refreshed_at" ts])%list) /\
  (tables (final (exec env n w Server.refresh)) = tables w \/
   exists added ts,
     Forall stmt_ok added /\
     tables (final (exec env n w Server.refresh)) =
       Db.apply_all (tables w) (added ++ [Db.UpsertMeta "last_refreshed_at" ts])%list) /\
  (existsb failed_statement (trace (exec env n w App.refresh)) = true ->
   tables (final (exec env n w App.refresh)) = tables w /\
   result (exec env n w App.refresh) = internal_error /\
   status (result (exec env n w App.refresh)) = 500%Z /\
   existsb committed (trace (exec env n w App.refresh)) = false /\
   existsb rolled_back (trace (exec env n w App.refresh)) = true /\
   refreshInProgress (final (exec env n w App.refresh)) = false) /\
  (existsb failed_statement (trace (exec env n w Server.refresh)) = true ->
   tables (final (exec env n w Server.refresh)) = tables w /\
   result (exec env n w Server.refresh) = internal_error /\
   status (result (exec env n w Server.refresh)) = 500%Z /\
   existsb committed (trace (exec env n w Server.refresh)) = false /\
   existsb rolled_back (trace (exec env n w Server.refresh)) = true /\
   refreshInProgress (final (exec env n w Server.refresh)) = false).
Proof.
  intros Hg.
  split; [apply App_refresh_all_or_nothing|].
  split; [apply Server_refresh_all_or_nothing|].
  split.
  - rewrite (App_exec_refresh env n w Hg). cbv zeta.
    destruct (fetched (env (2 + n)%nat)) as [err|[cd rd]]; [discriminate|].
    destruct (isArray cd); cbn [negb]; [|discriminate].
    destruct (db_rejects (env (3 + n)%nat)); [discriminate|].
    destruct (fresh_connection w true) as [Hnone Hlt]. cbv zeta in Hnone, Hlt.
    pose proof (transaction_run _ (App_derive_facts (rates_of rd))
                  (List.length (connections w)) (elements cd) env (4 + n) _ Hnone Hlt)
      as Hrun.
    fold (App.transaction (List.length (connections w)) (rates_of rd) (elements cd)) in Hrun.
    destruct (exec env (4 + n) _ (App.transaction _ _ _)) as [[w3 t3] done].
    unfold aborted_before_commit, committed_run, final, trace, result in Hrun.
    cbn [fst snd] in Hrun.
    destruct Hrun as [(Hnc & Ht & Hgd & _ & e & He & Hcase)
                     | (Hnf & added & ts & _ & _ & _ & Hres)].
    + subst done. rewrite App_exec_refresh_catch.
      destruct (perform_rollback (env (S (4 + n + List.length t3)))
                  (with_guard false w3) (List.length (connections w))) as [Hrt Hrg].
      destruct (perform _ (with_guard false w3) (Rollback _)) as [w4 a].
      unfold final, trace, result. cbn [fst snd] in *. simpl in Hrt, Hrg. intros _.
      rewrite Hrt, Hrg, Ht, (error_response_internal e Hcase).
      repeat split.
      * simpl. rewrite existsb_app, Hnc. reflexivity.
      * simpl. rewrite existsb_app. simpl. apply orb_true_r.
    + destruct Hres as [[-> _] | [-> _]].
      * rewrite App_exec_refresh_catch.
        destruct (perform _ (with_guard false w3) (Rollback _)) as [w4 a].
        unfold trace. simpl. rewrite existsb_app, Hnf. simpl. discriminate.
      * unfold trace. simpl. rewrite Hnf. discriminate.
  - rewrite (Server_exec_refresh env n w Hg). cbv zeta.
    destruct (fetched (env (2 + n)%nat)) as [err|[cd rd]]; [discriminate|].
    destruct (isArray cd); cbn [negb]; [|discriminate].
    destruct (db_rejects (env (3 + n)%nat)); [discriminate|].
    destruct (fresh_connection w true) as [Hnone Hlt]. cbv zeta in Hnone, Hlt.
    pose proof (transaction_run _ (Server_derive_facts (rates_of rd))
                  (List.length (connections w)) (elements cd) env (4 + n) _ Hnone Hlt)
      as Hrun.
    fold (Server.transaction (List.length (connections w)) (rates_of rd) (elements cd))
      in Hrun.
    destruct (exec env (4 + n) _ (Server.transaction _ _ _)) as [[w3 t3] inner].
    unfold aborted_before_commit, committed_run, final, trace, result in Hrun.
    cbn [fst snd] in Hrun.
    destruct Hrun as [(Hnc & Ht & Hgd & _ & e & He & Hcase)
                     | (Hnf & added & ts & _ & _ & _ & Hres)].
    + subst inner.
      destruct (perform_rollback (env (4 + n + List.length t3)%nat)
                  w3 (List.length (connections w))) as [Hrt Hrg].
      destruct (perform _ w3 (Rollback _)) as [w4 a].
      unfold final, trace, result. cbn [fst snd] in *. simpl in Hrt, Hrg. intros _.
      simpl. rewrite Hrt, Ht.
      repeat split.
      * simpl. rewrite existsb_app, Hnc. reflexivity.
      * simpl. rewrite existsb_app. simpl. apply orb_true_r.
    + destruct Hres as [[-> _] | [-> _]].
      * destruct (perform _ w3 (Rollback _)) as [w4 a].
        unfold trace. simpl. rewrite existsb_app, Hnf. simpl. discriminate.
      * unfold trace. simpl. rewrite existsb_app, Hnf. simpl. discriminate.
Qed.

(** C2: the entry of the scenario of the specification, with a rate
    mapping that lacks its code [NGN].  The first implementation derives
    [exchange_rate = null] and [estimated_gdp = 0], where the claim (and the
    second implementation) has [null]. *)
Theorem C2_first_implementation_unmapped_code_gdp_zero {rt : Runtime}
  (env : nat -> Choice) (n : nat) (w : World) :
  hasOwnProperty no_rates "NGN" = false /\
  exists row,
    result (exec env n w (App.derive nigeria no_rates)) = inr (Some row) /\
    Db.currency_code row = VStr "NGN" /\
    Db.exchange_rate row = VNull /\
    Db.estimated_gdp row = of_Z 0 /\
    Db.estimated_gdp row <> VNull.
Proof.
  split; [reflexivity|]. eexists. split; [reflexivity|]. repeat split. discriminate.
Qed.

(** C3: an entry with population 0 and a currency whose rate is 10.5.
    The first implementation tests [!population] and derives
    [estimated_gdp = null]; the claim (and the second implementation) has
    0 * m / 10.5 = 0. *)
Theorem C3_first_implementation_population_zero_gdp_null {rt : Runtime}
  (env : nat -> Choice) (n : nat) (w : World) :
  qualifies bouvet_island /\
  own_property rates_nok "NOK" = Some (VNum (Fin (21 # 2))) /\
  (exists row,
      result (exec env n w (App.derive bouvet_island rates_nok)) = inr (Some row) /\
      Db.population row = of_Z 0 /\
      Db.exchange_rate row = VNum (Fin (21 # 2)) /\
      Db.estimated_gdp row = VNull) /\
  (exists row,
      result (exec env n w (Server.derive bouvet_island rates_nok)) = inr (Some row) /\
      Db.estimated_gdp row =
        VNum (Fin (0 * inject_Z (Qfloor (random (env n) * 1001) + 1000) / (21 # 2)))).
Proof.
  split.
  { split; [exists "Bouvet Island"; split; [reflexivity | discriminate] | reflexivity]. }
  split; [reflexivity|]. split.
  - eexists. split; [reflexivity|]. repeat split.
  - eexists. split; [reflexivity|]. reflexivity.
Qed.


(** C5: when a fetch fails (the timer aborts it, the status is outside
    200..299, the body cannot be read) or the catalog that arrives is not
    an array, each implementation answers 503 with details that name a
    source that failed, leaves the tables as they were and makes no call to
    the store; the guard is cleared. *)
Theorem C5_external_failure_answers_503 {rt : Runtime}
  (env : nat -> Choice) (n : nat) (w : World) :
  refreshInProgress w = false ->
  countries_unavailable (env (2 + n)%nat) \/ rates_unavailable (env (2 + n)%nat) ->
  (exists source,
      unavailable source (env (2 + n)%nat) /\
      result (exec env n w App.refresh) = service_unavailable source /\
      tables (final (exec env n w App.refresh)) = tables w /\
      existsb storage_call (trace (exec env n w App.refresh)) = false /\
      refreshInProgress (final (exec env n w App.refresh)) = false) /\
  (exists source,
      unavailable source (env (2 + n)%nat) /\
      result (exec env n w Server.refresh) = service_unavailable source /\
      tables (final (exec env n w Server.refresh)) = tables w /\
      existsb storage_call (trace (exec env n w Server.refresh)) = false /\
      refreshInProgress (final (exec env n w Server.refresh)) = false) /\
  fetchWithTimeout Aborted = inl AbortError /\
  (forall st payload, (st < 200 \/ 299 < st)%Z ->
                      exists e, fetchWithTimeout (Replied st payload) = inl e).
Proof.
  intros Hg Hu.
  destruct (fetch_stage_unavailable (env (2 + n)%nat) Hu) as (source & Hs & Hf).
  split; [|split; [|split; [apply fetch_fails_on_timeout | apply fetch_fails_outside_2xx]]].
  - exists source. split; [exact Hs|].
    rewrite (App_exec_refresh env n w Hg). cbv zeta.
    destruct (fetched (env (2 + n)%nat)) as [err|[cd rd]].
    + rewrite Hf. repeat split.
    + destruct Hf as [Harr ->]. rewrite Harr. repeat split.
  - exists source. split; [exact Hs|].
    rewrite (Server_exec_refresh env n w Hg). cbv zeta.
    destruct (fetched (env (2 + n)%nat)) as [err|[cd rd]].
    + rewrite Hf. repeat split.
    + destruct Hf as [Harr ->]. rewrite Harr. repeat split.
Qed.


(** C7: [normalizeName] of a string is [trim(lower(name))]; every row that
    a refresh derives carries the normalisation of its own name, the upsert
    keeps every stored row in that state, and so do whole refresh cycles and
    deletions, from the empty table on; and [GET] or [DELETE] by any
    spelling of a stored name that differs by case or by white space around
    it finds the stored row. *)
Theorem C7_normalized_name_and_lookup {rt : Runtime} :
  (forall s, normalizeName (VStr s) = inr (trim (toLowerCase s))) /\
  (forall c rates env n w row,
      result (exec env n w (App.derive c rates)) = inr (Some row) \/
      result (exec env n w (Server.derive c rates)) = inr (Some row) ->
      row_normalized row) /\
  (forall row t, row_normalized row -> table_ok t -> table_ok (Db.upsert_country row t)) /\
  table_ok [] /\
  (forall env n w,
      table_ok (Db.countries (tables w)) ->
      table_ok (Db.countries (tables (final (exec env n w App.refresh)))) /\
      table_ok (Db.countries (tables (final (exec env n w Server.refresh)))) /\
      forall param,
        table_ok (Db.countries (tables (final (exec env n w (delete_country param)))))) /\
  (forall w r s v env n,
      table_ok (Db.countries (tables w)) -> In r (Db.countries (tables w)) ->
      Db.name r = VStr s -> variant s v -> db_rejects (env n) = false ->
      result (exec env n w (get_country v)) = json (row_json r) /\
      result (exec env n w (delete_country v)) = deleted /\
      let left := Db.countries (tables (final (exec env n w (delete_country v)))) in
      ~ In r left /\
      forall x, In x (Db.countries (tables w)) -> x <> r -> In x left).
Proof.
  split; [intros s; now rewrite normalizeName_string, toLowerCase_trim|].
  split.
  { intros c rates env n w row [H|H];
      [eapply App_derive_row_normalized | eapply Server_derive_row_normalized]; exact H. }
  split; [apply upsert_country_ok|].
  split; [split; constructor|].
  split; [intros env n w; apply handlers_keep_table_ok|].
  intros w r s v env n Hok Hin Hs Hv Hdb.
  pose proof (stored_key _ r s v Hok Hin Hs Hv) as Hk.
  pose proof (select_unique r _ (proj2 Hok) Hin) as Hsel.
  destruct (exec_delete_country v env n w Hdb) as [Hfin Hres].
  rewrite (exec_get_country v env n w Hdb), Hres, Hfin, Hk, Hsel.
  split; [reflexivity|]. split; [reflexivity|].
  cbv zeta. simpl. now apply delete_removes; [apply Hok|].
Qed.

(** C8, as stated, fails: [total_countries] is [COUNT( * )] over the whole
    table, and a row stored by an earlier cycle is counted. *)
Lemma C8_total_counts_stored_rows :
  ~ (no_entry_reports_zero (@App.refresh) /\ no_entry_reports_zero (@Server.refresh)).
Proof.
  intros [H _].
  specialize (H sample_runtime (fun _ => calm (VArr []) no_rates) 0%nat world_with_ghana
                [] no_rates eq_refl eq_refl).
  assert (Hnone : forall c : JsVal, In c [] -> ~ qualifies c) by (intros c []).
  specialize (H Hnone eq_refl). vm_compute in H. discriminate H.
Qed.

(** C8, amended: a successful cycle in which no entry of the catalog
    qualifies leaves the countries as they were, reports as
    [total_countries] the number of rows of the table (0 when the table
    was empty) and has written the time of the refresh that it reports. *)
Theorem C8_no_entry_qualifies_count_and_timestamp {rt : Runtime}
  (env : nat -> Choice) (n : nat) (w : World) (catalog : list JsVal) (ratesData : JsVal) :
  refreshInProgress w = false ->
  fetched (env (2 + n)%nat) = inr (VArr catalog, ratesData) ->
  (forall c, In c catalog -> ~ qualifies c) ->
  (status (result (exec env n w App.refresh)) = 200%Z ->
   exists ts,
     result (exec env n w App.refresh) =
       refresh_successful (of_nat (List.length (Db.countries (tables w)))) ts /\
     Db.countries (tables (final (exec env n w App.refresh))) = Db.countries (tables w) /\
     Db.lookup_meta "last_refreshed_at" (Db.meta (tables (final (exec env n w App.refresh))))
     = Some ts) /\
  (status (result (exec env n w Server.refresh)) = 200%Z ->
   exists ts,
     result (exec env n w Server.refresh) =
       refresh_successful (of_nat (List.length (Db.countries (tables w)))) ts /\
     Db.countries (tables (final (exec env n w Server.refresh))) = Db.countries (tables w) /\
     Db.lookup_meta "last_refreshed_at"
       (Db.meta (tables (final (exec env n w Server.refresh)))) = Some ts).
Proof.
  intros Hg Hf Hnone. split.
  - rewrite (App_exec_refresh env n w Hg), Hf. cbv zeta. cbn [isArray negb elements].
    destruct (db_rejects (env (3 + n)%nat)); [discriminate|].
    destruct (fresh_connection w true) as [Hc Hlt]. cbv zeta in Hc, Hlt.
    pose proof (transaction_run _ (App_derive_facts (rates_of ratesData))
                  (List.length (connections w)) catalog env (4 + n) _ Hc Hlt) as Hrun.
    fold (App.transaction (List.length (connections w)) (rates_of ratesData) catalog) in Hrun.
    destruct (exec env (4 + n) _ (App.transaction _ _ _)) as [[w3 t3] done].
    unfold aborted_before_commit, committed_run, final, trace, result in Hrun.
    cbn [fst snd] in Hrun.
    destruct Hrun as [(_ & _ & _ & _ & e & He & Hcase)
                     | (_ & added & ts & _ & Hadd & Ht & Hres)].
    + subst done. rewrite App_exec_refresh_catch.
      destruct (perform _ (with_guard false w3) (Rollback _)) as [w4 a].
      unfold result. cbn [snd]. rewrite (error_response_internal e Hcase). discriminate.
    + rewrite (Hadd Hnone) in Ht. simpl in Ht.
      destruct Hres as [[-> _] | [-> _]].
      * rewrite App_exec_refresh_catch.
        destruct (perform _ (with_guard false w3) (Rollback _)) as [w4 a].
        unfold result. cbn [snd]. discriminate.
      * intros _. exists ts. unfold final, result. cbn [fst snd]. rewrite Ht. simpl.
        repeat split. apply lookup_upsert_meta.
  - rewrite (Server_exec_refresh env n w Hg), Hf. cbv zeta. cbn [isArray negb elements].
    destruct (db_rejects (env (3 + n)%nat)); [discriminate|].
    destruct (fresh_connection w true) as [Hc Hlt]. cbv zeta in Hc, Hlt.
    pose proof (transaction_run _ (Server_derive_facts (rates_of ratesData))
                  (List.length (connections w)) catalog env (4 + n) _ Hc Hlt) as Hrun.
    fold (Server.transaction (List.length (connections w)) (rates_of ratesData) catalog)
      in Hrun.
    destruct (exec env (4 + n) _ (Server.transaction _ _ _)) as [[w3 t3] inner].
    unfold aborted_before_commit, committed_run, final, trace, result in Hrun.
    cbn [fst snd] in Hrun.
    destruct Hrun as [(_ & _ & _ & _ & e & He & Hcase)
                     | (_ & added & ts & _ & Hadd & Ht & Hres)].
    + subst inner. destruct (perform _ w3 (Rollback _)) as [w4 a]. discriminate.
    + rewrite (Hadd Hnone) in Ht. simpl in Ht.
      destruct Hres as [[-> _] | [-> _]].
      * destruct (perform _ w3 (Rollback _)) as [w4 a]. discriminate.
      * intros _. exists ts. unfold final, result. cbn [fst snd]. rewrite Ht. simpl.
        repeat split. apply lookup_upsert_meta.
Qed.

(** C9, as stated, fails: for an entry without currencies the first
    implementation stores the sentinel ["N/A"] as [currency_code], the second
    [null]. *)
Lemma C9_currency_code_sentinel_differs : ~ derivations_equivalent.
Proof.
  intros H.
  specialize (H sample_runtime antarctica no_rates (fun _ => calm (VArr []) no_rates)
                0%nat empty_world).
  vm_compute in H. destruct H as [H _]. discriminate H.
Qed.

(** C9, amended: the two implementations take the same decision on every
    entry (pass over, throw, or build a row); without a currency code both
    derive [exchange_rate = null] and [estimated_gdp = 0] and differ in
    [currency_code] only (["N/A"] against [null]); and for an entry that
    qualifies, with a truthy population and a first currency code that,
    trimmed and in upper case, is neither empty nor ["N/A"] and is a key of
    the rate mapping, their runs are the same for the same draws. *)
Theorem C9_derivations_agree_where_designed {rt : Runtime}
  (c rates : JsVal) (env : nat -> Choice) (n : nat) (w : World) :
  same_decision (result (exec env n w (App.derive c rates)))
                (result (exec env n w (Server.derive c rates))) /\
  (qualifies c -> has_currency_code c = false ->
   exists ra rs,
     result (exec env n w (App.derive c rates)) = inr (Some ra) /\
     result (exec env n w (Server.derive c rates)) = inr (Some rs) /\
     Db.currency_code ra = VStr "N/A" /\ Db.currency_code rs = VNull /\
     Db.exchange_rate ra = VNull /\ Db.exchange_rate rs = VNull /\
     Db.estimated_gdp ra = of_Z 0 /\ Db.estimated_gdp rs = of_Z 0) /\
  (qualifies c -> has_currency_code c = true ->
   first_currency_code c <> "" -> first_currency_code c <> "N/A" ->
   hasOwnProperty rates (first_currency_code c) = true ->
   get rates (first_currency_code c) <> VNum NaN ->
   truthy (get c "population") = true ->
   exec env n w (App.derive c rates) = exec env n w (Server.derive c rates)).
Proof.
  split; [apply derive_same_decision|]. split; [|apply derive_same_when_resolved].
  intros Hq Hc.
  rewrite (App_exec_derive c rates env n w Hq), (Server_exec_derive c rates env n w Hq), Hc.
  cbv zeta. rewrite App_resolve_no_code, Server_resolve_no_code.
  do 2 eexists. repeat split.
Qed.


(** * Instances *)

Lemma nigeria_qualifies : qualifies nigeria.
Proof.
  split; [exists "Nigeria"; split; [reflexivity | discriminate] | reflexivity].
Defined.


Lemma C1_witness :
  refreshInProgress empty_world = false /\
  existsb failed_statement
    (trace (exec upsert_rejected 0 empty_world (App.refresh (rt := sample_runtime)))) = true /\
  tables (final (exec upsert_rejected 0 empty_world (App.refresh (rt := sample_runtime))))
  = tables empty_world /\
  status (result (exec upsert_rejected 0 empty_world (App.refresh (rt := sample_runtime))))
  = 500%Z.
Proof.
  split; [reflexivity|]. split; [vm_compute; reflexivity|].
  destruct (C1_failed_statement_rolls_back (rt := sample_runtime)
              upsert_rejected 0 empty_world eq_refl) as (_ & _ & H & _).
  destruct H as (Ht & _ & Hs & _); [vm_compute; reflexivity|].
  split; [exact Ht | exact Hs].
Defined.


Lemma C5_witness :
  refreshInProgress empty_world = false /\
  countries_unavailable countries_timeout /\
  exists source,
    result (exec (fun _ => countries_timeout) 0 empty_world
                 (Server.refresh (rt := sample_runtime)))
    = service_unavailable source /\
    status (service_unavailable source) = 503%Z.
Proof.
  assert (Hu : countries_unavailable countries_timeout)
    by (left; exists AbortError; reflexivity).
  split; [reflexivity|]. split; [exact Hu|].
  destruct (C5_external_failure_answers_503 (rt := sample_runtime)
              (fun _ => countries_timeout) 0 empty_world eq_refl (or_introl Hu))
    as (_ & (source & _ & Hr & _) & _).
  exists source. split; [exact Hr | reflexivity].
Defined.


Lemma C7_witness :
  variant "Ghana" "  GHANA " /\
  result (exec (fun _ => calm (VArr []) no_rates) 0 world_with_ghana (get_country "  GHANA "))
  = json (row_json stored_ghana).
Proof.
  assert (Hv : variant "Ghana" "  GHANA ")
    by (apply (variant_intro "" "Ghana" "" "  " "GHANA" " "); reflexivity).
  split; [exact Hv|].
  destruct (C7_normalized_name_and_lookup (rt := sample_runtime)) as (_ & _ & _ & _ & _ & H).
  refine (proj1 (H world_with_ghana stored_ghana "Ghana" "  GHANA "
                   (fun _ => calm (VArr []) no_rates) 0%nat _ _ eq_refl Hv eq_refl)).
  - split; [|repeat constructor; simpl; tauto].
    constructor; [|constructor]. exists "Ghana". split; reflexivity.
  - now left.
Defined.

Lemma C8_witness :
  exists ts,
    result (exec (fun _ => calm (VArr [nameless]) no_rates) 0 world_with_ghana
                 (Server.refresh (rt := sample_runtime)))
    = refresh_successful (of_nat 1) ts.
Proof.
  assert (Hnone : forall c, In c [nameless] -> ~ qualifies c).
  { intros c [<- | []] [(s & Hs & _) _]. discriminate Hs. }
  destruct (C8_no_entry_qualifies_count_and_timestamp (rt := sample_runtime)
              (fun _ => calm (VArr [nameless]) no_rates) 0 world_with_ghana
              [nameless] no_rates eq_refl eq_refl Hnone) as [_ H].
  destruct H as (ts & Hr & _); [vm_compute; reflexivity|].
  exists ts. exact Hr.
Defined.

Lemma C9_witness :
  exec (fun _ => calm (VArr [nigeria]) rates_payload) 0 empty_world
       (App.derive (rt := sample_runtime) nigeria rates_ngn) =
  exec (fun _ => calm (VArr [nigeria]) rates_payload) 0 empty_world
       (Server.derive (rt := sample_runtime) nigeria rates_ngn).
Proof.
  destruct (C9_derivations_agree_where_designed (rt := sample_runtime) nigeria rates_ngn
              (fun _ => calm (VArr [nigeria]) rates_payload) 0 empty_world) as (_ & _ & H).
  apply H; try reflexivity; try discriminate. exact nigeria_qualifies.
Defined.


(** * Further properties *)

(** ** Strings, again *)

Lemma is_space_upper_char (c : ascii) : is_space (upper_char c) = is_space c.
Proof. destruct c as [[] [] [] [] [] [] [] []]; reflexivity. Qed.

Lemma upper_lower_char (c : ascii) : upper_char (lower_char c) = upper_char c.
Proof. destruct c as [[] [] [] [] [] [] [] []]; reflexivity. Qed.

Lemma lower_lower_char (c : ascii) : lower_char (lower_char c) = lower_char c.
Proof. destruct c as [[] [] [] [] [] [] [] []]; reflexivity. Qed.

Lemma toUpperCase_toLowerCase (s : string) : toUpperCase (toLowerCase s) = toUpperCase s.
Proof.
  unfold toUpperCase, toLowerCase.
  induction s as [|c s IH]; cbn [map_chars]; [reflexivity|].
  now rewrite upper_lower_char, IH.
Qed.

Lemma toLowerCase_idempotent (s : string) : toLowerCase (toLowerCase s) = toLowerCase s.
Proof.
  unfold toLowerCase.
  induction s as [|c s IH]; cbn [map_chars]; [reflexivity|].
  now rewrite lower_lower_char, IH.
Qed.

Lemma toUpperCase_trim (s : string) : toUpperCase (trim s) = trim (toUpperCase s).
Proof.
  unfold trim, toUpperCase.
  rewrite (trimStart_map_chars _ _ is_space_upper_char).
  rewrite (trimEnd_map_chars _ _ is_space_upper_char). reflexivity.
Qed.

(** Two spellings of one code give one code in upper case. *)
Lemma toUpperCase_variant (s v : string) :
  variant s v -> toUpperCase (trim v) = toUpperCase (trim s).
Proof.
  intros [l1 c1 t1 l2 c2 t2 Hl1 Ht1 Hl2 Ht2 E].
  rewrite !trim_pad by assumption.
  rewrite !toUpperCase_trim.
  rewrite <- (toUpperCase_toLowerCase c1), <- (toUpperCase_toLowerCase c2).
  now rewrite E.
Qed.

Lemma trimEnd_idempotent (s : string) : trimEnd (trimEnd s) = trimEnd s.
Proof.
  induction s as [|c s IH]; simpl; [reflexivity|].
  destruct (trimEnd s) as [|d t] eqn:E.
  - destruct (is_space c) eqn:Hc; simpl; [reflexivity | now rewrite Hc].
  - simpl in *. now rewrite IH.
Qed.

Lemma trimStart_head (s : string) :
  match trimStart s with
  | EmptyString => True
  | String c _ => is_space c = false
  end.
Proof.
  induction s as [|c s IH]; simpl; [exact I|].
  destruct (is_space c) eqn:E; [exact IH | exact E].
Qed.

Lemma trimStart_fixed (c : ascii) (s : string) :
  is_space c = false -> trimStart (String c s) = String c s.
Proof. intros H. simpl. now rewrite H. Qed.

Lemma trimEnd_head (c : ascii) (s : string) :
  is_space c = false -> exists t, trimEnd (String c s) = String c t.
Proof.
  intros H. simpl. destruct (trimEnd s) as [|d t].
  - rewrite H. now exists "".
  - now exists (String d t).
Qed.

Lemma trim_idempotent (s : string) : trim (trim s) = trim s.
Proof.
  unfold trim. pose proof (trimStart_head s) as H.
  destruct (trimStart s) as [|c t]; [reflexivity|].
  destruct (trimEnd_head c t H) as [t' E]. rewrite E.
  rewrite (trimStart_fixed c t' H), <- E. apply trimEnd_idempotent.
Qed.

(** ** The route table *)

(** X1: no request is dispatched to the handler of the summary image: the
    route [/countries/:name], registered before [/countries/image], takes
    every [GET] of two segments under [countries], so that
    [GET /countries/image] is a lookup of a country named [image]. *)
Theorem image_route_is_shadowed (m : Method) (path : list string) :
  (forall captured, dispatch m path <> Some (ImageRoute, captured)) /\
  (forall name, name <> "" -> dispatch GET ["countries"; name] = Some (ByNameRoute, [name])).
Proof.
  split.
  - intros captured. unfold dispatch, route_table.
    destruct m; cbn [first_match method_eqb];
      destruct path as [|a [|b [|c rest]]]; cbn [match_path];
      repeat match goal with
             | |- context [if ?b then _ else _] => destruct b eqn:?
             | |- context [match match_path ?p ?l with _ => _ end] =>
                 destruct (match_path p l) eqn:?
             end;
      try discriminate.
    all: try (apply String.eqb_eq in Heqb1; subst b; discriminate).
  - intros name Hne. unfold dispatch, route_table. cbn.
    destruct (name =? "") eqn:E; [apply String.eqb_eq in E; contradiction | reflexivity].
Qed.

Lemma image_route_is_shadowed_witness :
  "image" <> "" /\ dispatch GET ["countries"; "image"] = Some (ByNameRoute, ["image"]).
Proof.
  split; [discriminate|].
  apply (proj2 (image_route_is_shadowed GET [])). discriminate.
Defined.

(** ** The listing *)






(** X4: in both implementations the text of the statement has as many
    placeholders as the statement has parameters, whatever the query
    string: the values of the query go into the parameters and never into
    the text. *)
Theorem listing_placeholders_match_parameters {rt : Runtime} (query : JsVal) :
  placeholders (sql_text (AppRead.list_statement query))
  = List.length (sql_params (AppRead.list_statement query)) /\
  placeholders (sql_text (ServerRead.list_statement query))
  = List.length (sql_params (ServerRead.list_statement query)).
Proof.
  unfold AppRead.list_statement, ServerRead.list_statement, orderSql. cbv zeta.
  cbn [sql_text sql_params].
  split.
  - destruct (AppRead.given (get query "region")), (AppRead.given (get query "currency")),
      (is_string (get query "sort") "gdp_desc"), (is_string (get query "sort") "gdp_asc");
      reflexivity.
  - destruct (truthy (get query "region")), (truthy (get query "currency")),
      (is_string (get query "sort") "gdp_desc"), (is_string (get query "sort") "gdp_asc");
      reflexivity.
Qed.

Lemma trim_nonempty (s : string) : trim s <> "" -> s <> "".
Proof. intros H ->. now apply H. Qed.

(** X5: the currency filter of the first implementation meets the code
    that a refresh stores: for a currency given in the query in any
    spelling (case, white space around it) of the code of a catalog entry,
    the parameter of the filter is the [currency_code] that either
    implementation derives for the entry. *)
Theorem currency_filter_meets_stored_code {rt : Runtime}
  (c rates query : JsVal) (code v : string) (env : nat -> Choice) (n : nat) (w : World) :
  qualifies c -> has_currency_code c = true ->
  get (first (get c "currencies")) "code" = VStr code ->
  variant code v -> trim v <> "" ->
  get query "currency" = VStr v ->
  exists ra rs filters limit offset,
    result (exec env n w (App.derive c rates)) = inr (Some ra) /\
    result (exec env n w (Server.derive c rates)) = inr (Some rs) /\
    Db.currency_code ra = Db.currency_code rs /\
    sql_params (AppRead.list_statement query)
    = (filters ++ [Db.currency_code ra; of_Z limit; of_Z offset])%list.
Proof.
  intros Hq Hc Hcode Hv Hne Hcur.
  rewrite (App_exec_derive c rates env n w Hq), (Server_exec_derive c rates env n w Hq), Hc.
  cbv zeta.
  destruct (exec env n w (App.resolve _ _ rates)) as [[w1 t1] [rate1 gdp1]].
  destruct (exec env n w (Server.resolve _ _ rates)) as [[w2 t2] [rate2 gdp2]].
  unfold result. cbn [snd].
  do 2 eexists. exists (if AppRead.given (get query "region")
                        then [VStr (trim (ToString (get query "region")))] else []).
  do 2 eexists.
  split; [reflexivity|]. split; [reflexivity|]. split; [reflexivity|].
  unfold AppRead.list_statement. cbv zeta. cbn [sql_params row_of Db.currency_code].
  assert (Hg : AppRead.given (VStr v) = true).
  { unfold AppRead.given. cbn [ToString truthy].
    assert (Hv' : (v =? "") = false) by (apply String.eqb_neq; now apply trim_nonempty).
    assert (Ht : (trim v =? "") = false) by (now apply String.eqb_neq).
    now rewrite Hv', Ht. }
  rewrite Hcur, Hg.
  unfold first_currency_code. rewrite Hcode. cbn [ToString].
  rewrite (toUpperCase_variant code v Hv), <- app_assoc. reflexivity.
Qed.

(** ** The state of the service *)

Lemma lookup_after_cycle (t : Db.Tables) (added : list Db.Stmt) (key ts : string) :
  Db.lookup_meta key (Db.meta (Db.apply_all t (added ++ [Db.UpsertMeta key ts])%list))
  = Some ts.
Proof.
  unfold Db.apply_all. rewrite fold_left_app. simpl. apply lookup_upsert_meta.
Qed.

Lemma countries_after_meta (t : Db.Tables) (added : list Db.Stmt) (key ts : string) :
  Db.countries (Db.apply_all t (added ++ [Db.UpsertMeta key ts])%list)
  = Db.countries (Db.apply_all t added).
Proof. unfold Db.apply_all. rewrite fold_left_app. reflexivity. Qed.

Lemma get_status_running (env : nat -> Choice) (w : World) :
  db_rejects (env 0%nat) = false -> db_rejects (env 1%nat) = false ->
  get_status env w =
  json (VObj [("total_countries", of_nat (List.length (Db.countries (tables w))));
              ("last_refreshed_at",
               match Db.lookup_meta "last_refreshed_at" (Db.meta (tables w)) with
               | Some ts => VStr ts
               | None => VNull
               end)]).
Proof.
  intros H0 H1. unfold get_status, select_meta, perform. rewrite H0, H1. cbn [snd].
  destruct (Db.lookup_meta _ _); reflexivity.
Qed.

(** ** The end of a cycle: the queries and the image *)

Lemma loop_event_not_render (e : Event) : loop_event e = true -> render_failed e = false.
Proof. destruct e as [[] a]; cbn; intros H; try discriminate H; reflexivity. Qed.

Lemma loop_event_transaction (t : list Event) :
  forallb loop_event t = true -> forallb transaction_event t = true.
Proof.
  induction t as [|e t IH]; simpl; [reflexivity|].
  intros H. apply andb_prop in H as [He Ht]. rewrite (IH Ht), andb_true_r.
  destruct e as [[] a]; cbn in He |- *; try discriminate He; reflexivity.
Qed.

Lemma transaction_event_excludes (g : Event -> bool) (t : list Event) :
  (forall e, transaction_event e = true -> g e = false) ->
  forallb transaction_event t = true -> existsb g t = false.
Proof.
  intros Hg. induction t as [|e t IH]; simpl; [reflexivity|].
  intros H. apply andb_prop in H as [He Ht]. now rewrite (Hg e He), IH.
Qed.

Section TransactionEnd.

Variable derive : JsVal -> M Derived.

Hypothesis derive_quiet : forall c env n w,
  final (exec env n w (derive c)) = w /\
  forallb quiet (trace (exec env n w (derive c))) = true /\
  (forall row, result (exec env n w (derive c)) = inr (Some row) ->
               row_normalized row /\ qualifies c) /\
  (forall e, result (exec env n w (derive c)) = inl e -> e = TypeError).

(** The renderer is called once everything else has gone through, and
    what it throws is dropped: when the stage throws, the renderer has not
    failed and the image is as before; when the stage answers, the image is
    as before if the renderer failed, and shows what is answered if not. *)
Lemma transaction_end (conn : Conn) (catalog : list JsVal) env n w :
  conn_state w conn = None -> (conn < List.length (connections w))%nat ->
  let run := exec env n w (transaction_with derive conn catalog) in
  forallb transaction_event (trace run) = true /\
  (existsb committed (trace run) = false -> tables (final run) = tables w) /\
  (forall e, result run = inl e ->
             existsb render_failed (trace run) = false /\
             summary_image (final run) = summary_image w) /\
  (forall resp, result run = inr resp ->
     (existsb render_failed (trace run) = true /\
      summary_image (final run) = summary_image w) \/
     (existsb render_failed (trace run) = false /\
      exists ts,
        resp = refresh_successful
                 (of_nat (List.length (Db.countries (tables (final run))))) ts /\
        summary_image (final run) =
          Some {| shown_total := of_nat (List.length (Db.countries (tables (final run))));
                  shown_top5 := Db.top5 (Db.countries (tables (final run)));
                  shown_timestamp := ts |})).
Proof.
  intros Hnone Hlt. cbv zeta.
  remember (exec env n w (transaction_with derive conn catalog)) as run eqn:Hrun.
  unfold transaction_with in Hrun.
  simpl in Hrun. unfold perform at 1 in Hrun. destruct (db_rejects (env n)) eqn:D0.
  { subst run. unfold final, trace, result. simpl.
    split; [reflexivity|]. split; [reflexivity|].
    split; [intros e _; split; reflexivity | discriminate]. }
  unfold pending in Hrun. rewrite Hnone in Hrun. cbn [Db.apply_all fold_left] in Hrun.
  rewrite with_tables_same in Hrun.
  set (w1 := with_connections (set_conn conn (Some []) (connections w)) w) in *.
  assert (H1 : conn_state w1 conn = Some []) by (now apply conn_state_set).
  unfold bindE at 1 in Hrun. rewrite exec_bind in Hrun.
  destruct (upsert_each_run derive derive_quiet conn catalog env (S n) w1 [] H1)
    as (added & Hfin & _ & Hev & _ & _ & _).
  destruct (exec env (S n) w1 (upsert_each derive conn catalog)) as [[w2 t2] r2].
  unfold final, trace, result in Hfin, Hev. simpl in Hfin, Hev.
  pose proof (loop_event_excludes _ _ loop_event_not_render Hev) as Hnr.
  pose proof (loop_event_transaction _ Hev) as Hte.
  assert (H2 : conn_state w2 conn = Some added).
  { subst w2. rewrite set_conn_twice. unfold w1. now apply conn_state_set. }
  assert (Hi2 : summary_image w2 = summary_image w) by (subst w2; reflexivity).
  assert (Ht2 : tables w2 = tables w) by (subst w2; reflexivity).
  pose proof (loop_event_excludes _ _ loop_event_not_committed Hev) as Hnc.
  clear Hfin. destruct r2 as [e|[]].
  { subst run. unfold final, trace, result. simpl. rewrite app_nil_r.
    split; [exact Hte|]. split; [intros _; exact Ht2|].
    split; [intros e' _; split; assumption | discriminate]. }
  simpl in Hrun. unfold perform at 1 in Hrun.
  destruct (db_rejects (env (S (S (n + List.length t2))))) eqn:D1.
  { subst run. unfold final, trace, result. simpl.
    rewrite !existsb_app, Hnr, Hnc, forallb_app, Hte. simpl.
    split; [reflexivity|]. split; [intros _; exact Ht2|].
    split; [intros e' _; split; [reflexivity | assumption] | discriminate]. }
  rewrite H2 in Hrun.
  set (ts := now (env (S (n + List.length t2)))) in *.
  set (meta := Db.UpsertMeta "last_refreshed_at" ts) in *.
  set (w3 := with_connections (set_conn conn (Some (added ++ [meta])%list) (connections w2)) w2)
    in *.
  simpl in Hrun. unfold perform at 1 in Hrun.
  destruct (db_rejects (env (S (S (S (n + List.length t2)))))) eqn:D2.
  { subst run. unfold final, trace, result. simpl.
    rewrite !existsb_app, Hnr, Hnc, forallb_app, Hte. simpl.
    split; [reflexivity|]. split; [intros _; exact Ht2|].
    split; [intros e' _; split; [reflexivity | assumption] | discriminate]. }
  set (w4 := with_connections (set_conn conn None (connections w3))
               (with_tables (Db.apply_all (tables w3) (pending w3 conn)) w3)) in *.
  assert (Hi4 : summary_image w4 = summary_image w) by (unfold w4; simpl; exact Hi2).
  simpl in Hrun. unfold perform at 1 in Hrun.
  destruct (db_rejects (env (S (S (S (S (n + List.length t2))))))) eqn:D3.
  { subst run. unfold final, trace, result. simpl.
    rewrite !existsb_app, Hnr, Hnc, forallb_app, Hte. simpl.
    split; [reflexivity|]. split; [discriminate|].
    split; [intros e' _; split; [reflexivity | assumption] | discriminate]. }
  simpl in Hrun. unfold perform at 1 in Hrun.
  destruct (db_rejects (env (S (S (S (S (S (n + List.length t2)))))))) eqn:D4.
  { subst run. unfold final, trace, result. simpl.
    rewrite !existsb_app, Hnr, Hnc, forallb_app, Hte. simpl.
    split; [reflexivity|]. split; [discriminate|].
    split; [intros e' _; split; [reflexivity | assumption] | discriminate]. }
  simpl in Hrun. unfold perform in Hrun.
  destruct (render_rejects (env (S (S (S (S (S (S (n + List.length t2))))))))) eqn:D5;
    simpl in Hrun; subst run; unfold final, trace, result; simpl;
    rewrite !existsb_app, Hnr, Hnc, forallb_app, Hte; simpl;
    (split; [reflexivity|]); (split; [discriminate|]).
  - split; [discriminate|]. intros resp _. left. split; [reflexivity | assumption].
  - split; [discriminate|]. intros resp [= <-]. right. split; [reflexivity|].
    exists ts. split; reflexivity.
Qed.

End TransactionEnd.

(** ** Counting events *)

Lemma count_app (f : Event -> bool) (l1 l2 : list Event) :
  count f (l1 ++ l2) = (count f l1 + count f l2)%nat.
Proof. unfold count. now rewrite filter_app, length_app. Qed.

Lemma count_none (f : Event -> bool) (t : list Event) :
  existsb f t = false -> count f t = 0%nat.
Proof.
  unfold count. induction t as [|e t IH]; simpl; [reflexivity|].
  intros H. apply orb_false_elim in H as [He Ht]. rewrite He. auto.
Qed.

Lemma transaction_event_not_acquired (e : Event) :
  transaction_event e = true -> acquired e = false.
Proof. destruct e as [[] a]; cbn; intros H; try discriminate H; reflexivity. Qed.

Lemma transaction_event_not_released (e : Event) :
  transaction_event e = true -> released_conn e = false.
Proof. destruct e as [[] a]; cbn; intros H; try discriminate H; reflexivity. Qed.

Lemma fetched_error (ch : Choice) (err : Thrown) :
  fetched ch = inl err ->
  err = ApiUnavailable "Countries API" \/ err = ApiUnavailable "Exchange Rates API".
Proof.
  unfold fetched.
  destruct (fetchWithTimeout (countries_reply ch)), (fetchWithTimeout (rates_reply ch));
    simpl; try destruct (rates_settles_first ch); intros [= <-]; auto.
Qed.

Lemma perform_rollback_image (ch : Choice) (w : World) (conn : Conn) :
  summary_image (fst (perform ch w (Rollback conn))) = summary_image w.
Proof. unfold perform. destruct (db_rejects ch); reflexivity. Qed.

Lemma refresh_successful_timestamp (total total' : JsVal) (ts ts' : Date) :
  refresh_successful total ts = refresh_successful total' ts' -> ts = ts'.
Proof. intros [= _ H]. exact H. Qed.

(** ** The refresh handlers, outcome by outcome *)

(** What a cycle of the first implementation comes to, entered with the
    guard clear. *)
Lemma App_refresh_report {rt : Runtime} env n w :
  refreshInProgress w = false ->
  let run := exec env n w App.refresh in
  (* the answer *)
  (((result run = service_unavailable "Countries API" \/
     result run = service_unavailable "Exchange Rates API") /\
    existsb storage_call (trace run) = false) \/
   result run = internal_error \/
   exists ts, result run =
                refresh_successful (of_nat (List.length (Db.countries (tables (final run))))) ts) /\
  (* a cycle that answers 200 *)
  (status (result run) = 200%Z ->
   exists added ts,
     Forall stmt_ok added /\
     tables (final run) =
       Db.apply_all (tables w) (added ++ [Db.UpsertMeta "last_refreshed_at" ts])%list /\
     result run =
       refresh_successful (of_nat (List.length (Db.countries (tables (final run))))) ts /\
     ((existsb render_failed (trace run) = true /\
       summary_image (final run) = summary_image w) \/
      (existsb render_failed (trace run) = false /\
       summary_image (final run) =
         Some {| shown_total := of_nat (List.length (Db.countries (tables (final run))));
                 shown_top5 := Db.top5 (Db.countries (tables (final run)));
                 shown_timestamp := ts |})) /\
     count acquired (trace run) = 1%nat /\ count released_conn (trace run) = 0%nat) /\
  (* a cycle that does not *)
  (status (result run) <> 200%Z ->
   existsb render_failed (trace run) = false /\
   summary_image (final run) = summary_image w /\
   count released_conn (trace run) = count acquired (trace run)) /\
  (* the commit *)
  (existsb committed (trace run) = false -> tables (final run) = tables w) /\
  (existsb committed (trace run) = true ->
   exists added ts,
     Forall stmt_ok added /\
     tables (final run) =
       Db.apply_all (tables w) (added ++ [Db.UpsertMeta "last_refreshed_at" ts])%list).
Proof.
  intros Hg. cbv zeta.
  rewrite (App_exec_refresh env n w Hg). cbv zeta.
  destruct (fetched (env (2 + n)%nat)) as [err|[cd rd]] eqn:Hf.
  { unfold final, trace, result. cbn [fst snd].
    destruct (fetched_error _ _ Hf) as [-> | ->]; repeat split; auto;
      try discriminate; intros H; inversion H. }
  destruct (isArray cd) eqn:Harr; cbn [negb].
  2: { unfold final, trace, result. cbn [fst snd].
       repeat split; auto; try discriminate; intros H; inversion H. }
  destruct (db_rejects (env (3 + n)%nat)) eqn:Hdb.
  { unfold final, trace, result. cbn [fst snd].
    repeat split; auto; try discriminate; intros H; inversion H. }
  destruct (fresh_connection w true) as [Hnone Hlt]. cbv zeta in Hnone, Hlt.
  pose proof (transaction_run _ (App_derive_facts (rates_of rd))
                (List.length (connections w)) (elements cd) env (4 + n) _ Hnone Hlt) as Hrun.
  pose proof (transaction_end _ (App_derive_facts (rates_of rd))
                (List.length (connections w)) (elements cd) env (4 + n) _ Hnone Hlt) as Hend.
  cbv zeta in Hend.
  fold (App.transaction (List.length (connections w)) (rates_of rd) (elements cd))
    in Hrun, Hend.
  destruct (exec env (4 + n) _ (App.transaction _ _ _)) as [[w3 t3] done].
  unfold aborted_before_commit, committed_run, final, trace, result in Hrun, Hend.
  cbn [fst snd] in Hrun, Hend.
  destruct Hend as (Hev & Hcf & Hthrown & Hanswered). simpl in Hcf.
  pose proof (transaction_event_excludes _ _ transaction_event_not_acquired Hev) as Hna.
  pose proof (transaction_event_excludes _ _ transaction_event_not_released Hev) as Hnl.
  assert (Hct : existsb committed t3 = true ->
                exists added ts,
                  Forall stmt_ok added /\
                  tables w3 =
                    Db.apply_all (tables w)
                      (added ++ [Db.UpsertMeta "last_refreshed_at" ts])%list).
  { intros Hc.
    destruct Hrun as [(Hnc & _) | (_ & added & ts & Hok & _ & Ht & _)]; [congruence|].
    exists added, ts. split; [exact Hok | exact Ht]. }
  destruct done as [err|resp].
  - (* the stage throws *)
    destruct (Hthrown err eq_refl) as [Hnr Himg].
    rewrite App_exec_refresh_catch.
    destruct (perform_rollback (env (S (4 + n + List.length t3)))
                (with_guard false w3) (List.length (connections w))) as [Hrt _].
    pose proof (perform_rollback_image (env (S (4 + n + List.length t3)))
                  (with_guard false w3) (List.length (connections w))) as Hri.
    destruct (perform _ (with_guard false w3) (Rollback _)) as [w4 a].
    unfold final, trace, result. cbn [fst snd] in *. simpl in Hrt, Hri, Himg.
    assert (Herr : error_response err = internal_error).
    { destruct Hrun as [(_ & _ & _ & _ & e & E & Hcase) | (_ & added & ts & _ & _ & _ & Hres)].
      - injection E as ->. now apply error_response_internal.
      - destruct Hres as [[E _] | [E _]]; [|discriminate E].
        injection E as ->. reflexivity. }
    rewrite Herr.
    split; [auto|]. split; [discriminate|].
    split.
    { intros _. split; [|split; [congruence|]].
      - simpl. rewrite existsb_app, Hnr. reflexivity.
      - cbn [app]. unfold count. simpl. rewrite !filter_app, !length_app.
        fold (count released_conn t3). fold (count acquired t3).
        rewrite (count_none _ _ Hna), (count_none _ _ Hnl). reflexivity. }
    split.
    + intros Hc. simpl in Hc. rewrite existsb_app in Hc. simpl in Hc.
      rewrite orb_false_r in Hc. rewrite Hrt. now apply Hcf.
    + intros Hc. simpl in Hc. rewrite existsb_app in Hc. simpl in Hc.
      rewrite orb_false_r in Hc. rewrite Hrt. now apply Hct.
  - (* the stage answers *)
    unfold final, trace, result. cbn [fst snd].
    destruct Hrun as [(_ & _ & _ & _ & e & E & _) | (_ & added & ts & Hok & _ & Ht & Hres)];
      [discriminate E|].
    destruct Hres as [[E _] | [E _]]; [discriminate E|]. injection E as ->.
    split; [right; right; exists ts; reflexivity|].
    split.
    { intros _. exists added, ts. split; [exact Hok|]. split; [exact Ht|].
      split; [reflexivity|]. split.
      - destruct (Hanswered _ eq_refl) as [[Hr Hi] | (Hr & ts' & E & Hi)].
        + left. split; [|exact Hi]. simpl. exact Hr.
        + right. split; [simpl; exact Hr|].
          apply refresh_successful_timestamp in E. now subst ts'.
      - cbn [app]. unfold count. simpl.
        fold (count released_conn t3). fold (count acquired t3).
        rewrite (count_none _ _ Hna), (count_none _ _ Hnl). split; reflexivity. }
    split; [intros H; exfalso; apply H; reflexivity|].
    split.
    + intros Hc. simpl in Hc. now apply Hcf.
    + intros Hc. simpl in Hc. exists added, ts. split; [exact Hok | exact Ht].
Qed.
(** What a cycle of the second implementation comes to, entered with the
    guard clear. *)
Lemma Server_refresh_report {rt : Runtime} env n w :
  refreshInProgress w = false ->
  let run := exec env n w Server.refresh in
  (* the answer *)
  (((result run = service_unavailable "Countries API" \/
     result run = service_unavailable "Exchange Rates API") /\
    existsb storage_call (trace run) = false) \/
   result run = internal_error \/
   exists ts, result run =
                refresh_successful (of_nat (List.length (Db.countries (tables (final run))))) ts) /\
  (* a cycle that answers 200 *)
  (status (result run) = 200%Z ->
   exists added ts,
     Forall stmt_ok added /\
     tables (final run) =
       Db.apply_all (tables w) (added ++ [Db.UpsertMeta "last_refreshed_at" ts])%list /\
     result run =
       refresh_successful (of_nat (List.length (Db.countries (tables (final run))))) ts /\
     ((existsb render_failed (trace run) = true /\
       summary_image (final run) = summary_image w) \/
      (existsb render_failed (trace run) = false /\
       summary_image (final run) =
         Some {| shown_total := of_nat (List.length (Db.countries (tables (final run))));
                 shown_top5 := Db.top5 (Db.countries (tables (final run)));
                 shown_timestamp := ts |})) /\
     count acquired (trace run) = 1%nat /\ count released_conn (trace run) = 1%nat) /\
  (* a cycle that does not *)
  (status (result run) <> 200%Z ->
   existsb render_failed (trace run) = false /\
   summary_image (final run) = summary_image w /\
   count released_conn (trace run) = count acquired (trace run)) /\
  (* the commit *)
  (existsb committed (trace run) = false -> tables (final run) = tables w) /\
  (existsb committed (trace run) = true ->
   exists added ts,
     Forall stmt_ok added /\
     tables (final run) =
       Db.apply_all (tables w) (added ++ [Db.UpsertMeta "last_refreshed_at" ts])%list).
Proof.
  intros Hg. cbv zeta.
  rewrite (Server_exec_refresh env n w Hg). cbv zeta.
  destruct (fetched (env (2 + n)%nat)) as [err|[cd rd]] eqn:Hf.
  { unfold final, trace, result. cbn [fst snd].
    destruct (fetched_error _ _ Hf) as [-> | ->]; repeat split; auto;
      try discriminate; intros H; inversion H. }
  destruct (isArray cd) eqn:Harr; cbn [negb].
  2: { unfold final, trace, result. cbn [fst snd].
       repeat split; auto; try discriminate; intros H; inversion H. }
  destruct (db_rejects (env (3 + n)%nat)) eqn:Hdb.
  { unfold final, trace, result. cbn [fst snd].
    repeat split; auto; try discriminate; intros H; inversion H. }
  destruct (fresh_connection w true) as [Hnone Hlt]. cbv zeta in Hnone, Hlt.
  pose proof (transaction_run _ (Server_derive_facts (rates_of rd))
                (List.length (connections w)) (elements cd) env (4 + n) _ Hnone Hlt) as Hrun.
  pose proof (transaction_end _ (Server_derive_facts (rates_of rd))
                (List.length (connections w)) (elements cd) env (4 + n) _ Hnone Hlt) as Hend.
  cbv zeta in Hend.
  fold (Server.transaction (List.length (connections w)) (rates_of rd) (elements cd))
    in Hrun, Hend.
  destruct (exec env (4 + n) _ (Server.transaction _ _ _)) as [[w3 t3] done].
  unfold aborted_before_commit, committed_run, final, trace, result in Hrun, Hend.
  cbn [fst snd] in Hrun, Hend.
  destruct Hend as (Hev & Hcf & Hthrown & Hanswered). simpl in Hcf.
  pose proof (transaction_event_excludes _ _ transaction_event_not_acquired Hev) as Hna.
  pose proof (transaction_event_excludes _ _ transaction_event_not_released Hev) as Hnl.
  assert (Hct : existsb committed t3 = true ->
                exists added ts,
                  Forall stmt_ok added /\
                  tables w3 =
                    Db.apply_all (tables w)
                      (added ++ [Db.UpsertMeta "last_refreshed_at" ts])%list).
  { intros Hc.
    destruct Hrun as [(Hnc & _) | (_ & added & ts & Hok & _ & Ht & _)]; [congruence|].
    exists added, ts. split; [exact Hok | exact Ht]. }
  destruct done as [err|resp].
  - (* the stage throws *)
    destruct (Hthrown err eq_refl) as [Hnr Himg].
    destruct (perform_rollback (env (4 + n + List.length t3)%nat)
                w3 (List.length (connections w))) as [Hrt _].
    pose proof (perform_rollback_image (env (4 + n + List.length t3)%nat)
                  w3 (List.length (connections w))) as Hri.
    destruct (perform _ w3 (Rollback _)) as [w4 a].
    unfold final, trace, result. cbn [fst snd] in *. simpl in Hrt, Hri, Himg.
    split; [auto|]. split; [discriminate|].
    split.
    { intros _. split; [|split; [simpl; congruence|]].
      - simpl. rewrite existsb_app, Hnr. reflexivity.
      - cbn [app]. unfold count. simpl. rewrite !filter_app, !length_app.
        fold (count released_conn t3). fold (count acquired t3).
        rewrite (count_none _ _ Hna), (count_none _ _ Hnl). reflexivity. }
    split.
    + intros Hc. simpl in Hc. rewrite existsb_app in Hc. simpl in Hc.
      rewrite orb_false_r in Hc. simpl. rewrite Hrt. now apply Hcf.
    + intros Hc. simpl in Hc. rewrite existsb_app in Hc. simpl in Hc.
      rewrite orb_false_r in Hc. simpl. rewrite Hrt. now apply Hct.
  - (* the stage answers *)
    unfold final, trace, result. cbn [fst snd].
    destruct Hrun as [(_ & _ & _ & _ & e & E & _) | (_ & added & ts & Hok & _ & Ht & Hres)];
      [discriminate E|].
    destruct Hres as [[E _] | [E _]]; [discriminate E|]. injection E as ->.
    split; [right; right; exists ts; reflexivity|].
    split.
    { intros _. exists added, ts. split; [exact Hok|]. split; [exact Ht|].
      split; [reflexivity|]. split.
      - destruct (Hanswered _ eq_refl) as [[Hr Hi] | (Hr & ts' & E & Hi)].
        + left. split; [|exact Hi]. simpl. rewrite existsb_app, Hr. reflexivity.
        + right. split; [simpl; rewrite existsb_app, Hr; reflexivity|].
          apply refresh_successful_timestamp in E. now subst ts'.
      - cbn [app]. unfold count. simpl. rewrite !filter_app, !length_app.
        fold (count released_conn t3). fold (count acquired t3).
        rewrite (count_none _ _ Hna), (count_none _ _ Hnl). split; reflexivity. }
    split; [intros H; exfalso; apply H; reflexivity|].
    split.
    + intros Hc. simpl in Hc. rewrite existsb_app in Hc. simpl in Hc.
      rewrite orb_false_r in Hc. now apply Hcf.
    + intros Hc. exists added, ts. split; [exact Hok | exact Ht].
Qed.

(** Both implementations at once. *)
Lemma refresh_report {rt : Runtime} (refresh : Prog Response) env n w :
  refresh = App.refresh \/ refresh = Server.refresh ->
  refreshInProgress w = false ->
  let run := exec env n w refresh in
  (((result run = service_unavailable "Countries API" \/
     result run = service_unavailable "Exchange Rates API") /\
    existsb storage_call (trace run) = false) \/
   result run = internal_error \/
   exists ts, result run =
                refresh_successful (of_nat (List.length (Db.countries (tables (final run))))) ts) /\
  (status (result run) = 200%Z ->
   exists added ts,
     Forall stmt_ok added /\
     tables (final run) =
       Db.apply_all (tables w) (added ++ [Db.UpsertMeta "last_refreshed_at" ts])%list /\
     result run =
       refresh_successful (of_nat (List.length (Db.countries (tables (final run))))) ts /\
     ((existsb render_failed (trace run) = true /\
       summary_image (final run) = summary_image w) \/
      (existsb render_failed (trace run) = false /\
       summary_image (final run) =
         Some {| shown_total := of_nat (List.length (Db.countries (tables (final run))));
                 shown_top5 := Db.top5 (Db.countries (tables (final run)));
                 shown_timestamp := ts |}))) /\
  (status (result run) <> 200%Z ->
   existsb render_failed (trace run) = false /\
   summary_image (final run) = summary_image w) /\
  (existsb committed (trace run) = false -> tables (final run) = tables w) /\
  (existsb committed (trace run) = true ->
   exists added ts,
     Forall stmt_ok added /\
     tables (final run) =
       Db.apply_all (tables w) (added ++ [Db.UpsertMeta "last_refreshed_at" ts])%list).
Proof.
  intros [-> | ->] Hg; cbv zeta.
  - destruct (App_refresh_report env n w Hg) as (H1 & H2 & H3 & H4 & H5).
    split; [exact H1|]. split; [|split; [|split; [exact H4 | exact H5]]].
    + intros H. destruct (H2 H) as (added & ts & Ha & Hb & Hc & Hd & _).
      exists added, ts. auto.
    + intros H. destruct (H3 H) as (Ha & Hb & _). auto.
  - destruct (Server_refresh_report env n w Hg) as (H1 & H2 & H3 & H4 & H5).
    split; [exact H1|]. split; [|split; [|split; [exact H4 | exact H5]]].
    + intros H. destruct (H2 H) as (added & ts & Ha & Hb & Hc & Hd & _).
      exists added, ts. auto.
    + intros H. destruct (H3 H) as (Ha & Hb & _). auto.
Qed.

(** ** The state of the service after a cycle *)

(** X6: [GET /status], asked once a cycle has answered 200, reports the
    [total_countries] and the [last_refreshed_at] of that answer (the
    store answering, and nothing written in between). *)
Theorem status_reports_last_cycle {rt : Runtime} (refresh : Prog Response)
  (env env' : nat -> Choice) (n : nat) (w : World) :
  refresh = App.refresh \/ refresh = Server.refresh ->
  refreshInProgress w = false ->
  status (result (exec env n w refresh)) = 200%Z ->
  db_rejects (env' 0%nat) = false -> db_rejects (env' 1%nat) = false ->
  get_status env' (final (exec env n w refresh)) =
  json (VObj [("total_countries",
               get (body (result (exec env n w refresh))) "total_countries");
              ("last_refreshed_at",
               get (body (result (exec env n w refresh))) "last_refreshed_at")]).
Proof.
  intros Hr Hg H200 H0 H1.
  destruct (refresh_report refresh env n w Hr Hg) as (_ & Hok & _). cbv zeta in Hok.
  destruct (Hok H200) as (added & ts & _ & Ht & Hres & _).
  rewrite (get_status_running _ _ H0 H1), Hres, Ht, lookup_after_cycle.
  rewrite <- Ht. reflexivity.
Qed.

(** X7: [GET /status] answers 500 as soon as one of its two statements is
    rejected, and reports [last_refreshed_at: null] as long as no cycle has
    written the time of a refresh. *)
Theorem status_without_cycle (env : nat -> Choice) (w : World) :
  (db_rejects (env 0%nat) = true \/ db_rejects (env 1%nat) = true ->
   get_status env w = internal_error) /\
  (db_rejects (env 0%nat) = false -> db_rejects (env 1%nat) = false ->
   Db.lookup_meta "last_refreshed_at" (Db.meta (tables w)) = None ->
   get_status env w =
   json (VObj [("total_countries", of_nat (List.length (Db.countries (tables w))));
               ("last_refreshed_at", VNull)])).
Proof.
  split.
  - unfold get_status, select_meta, perform.
    destruct (db_rejects (env 0%nat)); [reflexivity|].
    intros [H|H]; [discriminate H|]. now rewrite H.
  - intros H0 H1 Hm. now rewrite (get_status_running _ _ H0 H1), Hm.
Qed.

(** ** The image after a cycle *)

(** X8: an exception of the renderer does not fail the cycle: the answer
    is still 200 and the image stays the one of an earlier cycle, if any.
    When the renderer goes through, the image that [GET /countries/image]
    would send shows the total and the time that the cycle answers, and the
    ranking of the table as the cycle leaves it. *)
Theorem image_follows_cycle {rt : Runtime} (refresh : Prog Response)
  (env : nat -> Choice) (n : nat) (w : World) :
  refresh = App.refresh \/ refresh = Server.refresh ->
  refreshInProgress w = false ->
  let run := exec env n w refresh in
  (existsb render_failed (trace run) = true ->
   status (result run) = 200%Z /\ get_image (final run) = get_image w) /\
  (status (result run) <> 200%Z -> get_image (final run) = get_image w) /\
  (status (result run) = 200%Z -> existsb render_failed (trace run) = false ->
   exists ts,
     get (body (result run)) "last_refreshed_at" = VStr ts /\
     get_image (final run) =
     File {| shown_total := get (body (result run)) "total_countries";
             shown_top5 := Db.top5 (Db.countries (tables (final run)));
             shown_timestamp := ts |}).
Proof.
  intros Hr Hg. cbv zeta.
  destruct (refresh_report refresh env n w Hr Hg) as (_ & Hok & Hko & _).
  cbv zeta in Hok, Hko. unfold get_image. repeat split.
  - destruct (Z.eq_dec (status (result (exec env n w refresh))) 200) as [E|E]; [exact E|].
    destruct (Hko E) as [Hnr _]. congruence.
  - destruct (Z.eq_dec (status (result (exec env n w refresh))) 200) as [E|E].
    + destruct (Hok E) as (added & ts & _ & _ & _ & [[_ ->] | [Hnr _]]);
        [reflexivity | congruence].
    + destruct (Hko E) as [Hnr _]. congruence.
  - intros E. destruct (Hko E) as [_ ->]. reflexivity.
  - intros E Hnr.
    destruct (Hok E) as (added & ts & _ & _ & Hres & [[Hr' _] | [_ ->]]); [congruence|].
    exists ts. rewrite Hres. split; reflexivity.
Qed.

(** ** Connections *)

(** X9: the second implementation gives back every connection that it
    takes from the pool, on every path.  The first gives it back when the
    cycle fails, and keeps it when the cycle answers 200: a cycle that
    succeeds takes one connection and releases none. *)
Theorem connections_given_back {rt : Runtime} (env : nat -> Choice) (n : nat) (w : World) :
  count released_conn (trace (exec env n w Server.refresh))
  = count acquired (trace (exec env n w Server.refresh)) /\
  (status (result (exec env n w App.refresh)) <> 200%Z ->
   count released_conn (trace (exec env n w App.refresh))
   = count acquired (trace (exec env n w App.refresh))) /\
  (status (result (exec env n w App.refresh)) = 200%Z ->
   count acquired (trace (exec env n w App.refresh)) = 1%nat /\
   count released_conn (trace (exec env n w App.refresh)) = 0%nat).
Proof.
  destruct (refreshInProgress w) eqn:Hg.
  { rewrite (App_exec_refresh_busy env n w Hg), (Server_exec_refresh_busy env n w Hg).
    repeat split; try reflexivity; discriminate. }
  destruct (App_refresh_report env n w Hg) as (_ & Ha & Ha' & _).
  destruct (Server_refresh_report env n w Hg) as (_ & Hs & Hs' & _).
  cbv zeta in *. split; [|split].
  - destruct (Z.eq_dec (status (result (exec env n w Server.refresh))) 200) as [E|E].
    + destruct (Hs E) as (_ & _ & _ & _ & _ & _ & -> & ->). reflexivity.
    + now destruct (Hs' E) as (_ & _ & ->).
  - intros E. now destruct (Ha' E) as (_ & _ & ->).
  - intros E. destruct (Ha E) as (_ & _ & _ & _ & _ & _ & H1 & H0). now split.
Qed.

(** ** Failures after the commit *)

Lemma storage_free_not_committed (t : list Event) :
  existsb storage_call t = false -> existsb committed t = false.
Proof.
  induction t as [|e t IH]; simpl; [reflexivity|].
  intros H. apply orb_false_elim in H as [He Ht]. rewrite (IH Ht), orb_false_r.
  destruct e as [[] a]; cbn in He |- *; try discriminate He; reflexivity.
Qed.

(** X10: once the commit has gone through, the upserts of the cycle and
    the time of the refresh are in the tables whatever the answer is; and
    the answer is 200 or, when a query sent after the commit is rejected,
    500: an answer 500 does not tell that nothing was stored. *)
Theorem commit_outlives_failure {rt : Runtime} (refresh : Prog Response)
  (env : nat -> Choice) (n : nat) (w : World) :
  refresh = App.refresh \/ refresh = Server.refresh ->
  refreshInProgress w = false ->
  existsb committed (trace (exec env n w refresh)) = true ->
  (exists added ts,
      Forall stmt_ok added /\
      tables (final (exec env n w refresh)) =
        Db.apply_all (tables w) (added ++ [Db.UpsertMeta "last_refreshed_at" ts])%list) /\
  (status (result (exec env n w refresh)) = 200%Z \/
   result (exec env n w refresh) = internal_error).
Proof.
  intros Hr Hg Hc.
  destruct (refresh_report refresh env n w Hr Hg) as (Hshape & _ & _ & _ & Hyes).
  cbv zeta in *. split; [now apply Hyes|].
  destruct Hshape as [[_ Hs] | [H | [ts ->]]].
  - apply storage_free_not_committed in Hs. congruence.
  - now right.
  - now left.
Qed.

(** ** The answers of a refresh *)


(** ** Rows are kept *)

Lemma apply_all_keeps_keys (l : list Db.Stmt) (t : Db.Tables) :
  exists extra,
    map Db.normalized_name (Db.countries (Db.apply_all t l))
    = (map Db.normalized_name (Db.countries t) ++ extra)%list.
Proof.
  unfold Db.apply_all. revert t. induction l as [|s l IH]; intros t; simpl.
  - exists []. now rewrite app_nil_r.
  - destruct (IH (Db.apply t s)) as [extra ->].
    destruct s as [r | key value]; simpl.
    + rewrite upsert_country_keys.
      destruct (existsb _ _); [now exists extra|].
      exists (Db.normalized_name r :: extra). now rewrite <- app_assoc.
    + now exists extra.
Qed.

(** X12: a refresh never deletes: whatever happens in a cycle, the keys
    of the rows stored before it are still there, in the same places, and
    the keys that the cycle adds come after them. *)
Theorem refresh_keeps_stored_rows {rt : Runtime} (refresh : Prog Response)
  (env : nat -> Choice) (n : nat) (w : World) :
  refresh = App.refresh \/ refresh = Server.refresh ->
  exists extra,
    map Db.normalized_name (Db.countries (tables (final (exec env n w refresh))))
    = (map Db.normalized_name (Db.countries (tables w)) ++ extra)%list.
Proof.
  intros Hr.
  assert (H : tables (final (exec env n w refresh)) = tables w \/
              exists added ts,
                Forall stmt_ok added /\
                tables (final (exec env n w refresh)) =
                  Db.apply_all (tables w)
                    (added ++ [Db.UpsertMeta "last_refreshed_at" ts])%list).
  { destruct Hr as [-> | ->];
      [apply App_refresh_all_or_nothing | apply Server_refresh_all_or_nothing]. }
  destruct H as [-> | (added & ts & _ & ->)].
  - exists []. now rewrite app_nil_r.
  - apply apply_all_keeps_keys.
Qed.

(** ** An entry on which the loop throws *)

Lemma poisoned_name (v : JsVal) :
  truthy v = true -> (forall s, v <> VStr s) -> normalizeName v = inl TypeError.
Proof.
  intros Ht Hs. unfold normalizeName, or_else. rewrite Ht.
  destruct v; try reflexivity. now destruct (Hs s).
Qed.

Lemma App_derive_poisoned {rt : Runtime} (c rates : JsVal) env n w :
  poisoned c -> result (exec env n w (App.derive c rates)) = inl TypeError.
Proof.
  intros [Hc | (Ht & Hs & Hp)]; unfold App.derive.
  - rewrite Hc. reflexivity.
  - assert (Hc : nullish c = false).
    { destruct (nullish c) eqn:E; [|reflexivity].
      rewrite (nullish_get c "name" E) in Ht. discriminate Ht. }
    unfold or_else. rewrite Hc, Hp, Ht. cbn [negb]. rewrite Hp, Ht. cbn [negb orb].
    rewrite exec_bind.
    destruct (exec env n w (App.resolve _ _ rates)) as [[w1 t1] [rate gdp]].
    rewrite (poisoned_name _ Ht Hs). reflexivity.
Qed.

Lemma Server_derive_poisoned {rt : Runtime} (c rates : JsVal) env n w :
  poisoned c -> result (exec env n w (Server.derive c rates)) = inl TypeError.
Proof.
  intros [Hc | (Ht & Hs & Hp)]; unfold Server.derive.
  - rewrite Hc. reflexivity.
  - assert (Hc : nullish c = false).
    { destruct (nullish c) eqn:E; [|reflexivity].
      rewrite (nullish_get c "name" E) in Ht. discriminate Ht. }
    unfold or_else. rewrite Hc, Hp, Ht. cbn [negb]. rewrite Hp, Ht. cbn [negb orb].
    rewrite exec_bind.
    destruct (exec env n w (Server.resolve _ _ rates)) as [[w1 t1] [rate gdp]].
    rewrite (poisoned_name _ Ht Hs). reflexivity.
Qed.

Lemma upsert_each_poisoned (derive : JsVal -> M Derived) (conn : Conn) (c : JsVal)
  (catalog : list JsVal) :
  (forall env n w, result (exec env n w (derive c)) = inl TypeError) ->
  In c catalog ->
  forall env n w, exists e, result (exec env n w (upsert_each derive conn catalog)) = inl e.
Proof.
  intros Hc. induction catalog as [|c0 rest IH]; intros Hin env n w; [destruct Hin|].
  rewrite upsert_each_cons.
  destruct (exec env n w (derive c0)) as [[w1 t1] d] eqn:E. cbv zeta.
  destruct d as [e|[row|]].
  - now exists e.
  - destruct (perform _ w1 (Execute conn (Db.UpsertCountry row))) as [w2 [e|[]]].
    + now exists e.
    + destruct Hin as [-> | Hin].
      * specialize (Hc env n w). rewrite E in Hc. discriminate Hc.
      * destruct (IH Hin env (S (n + List.length t1)) w2) as [e He].
        destruct (exec env (S (n + List.length t1)) w2 (upsert_each derive conn rest))
          as [[w3 t3] r]. now exists e.
  - destruct Hin as [-> | Hin].
    + specialize (Hc env n w). rewrite E in Hc. discriminate Hc.
    + destruct (IH Hin env (n + List.length t1)%nat w1) as [e He].
      destruct (exec env (n + List.length t1) w1 (upsert_each derive conn rest))
        as [[w3 t3] r]. now exists e.
Qed.

Section Poisoned.

Variable derive : JsVal -> M Derived.

Hypothesis derive_quiet : forall c env n w,
  final (exec env n w (derive c)) = w /\
  forallb quiet (trace (exec env n w (derive c))) = true /\
  (forall row, result (exec env n w (derive c)) = inr (Some row) ->
               row_normalized row /\ qualifies c) /\
  (forall e, result (exec env n w (derive c)) = inl e -> e = TypeError).

(** With such an entry in the catalog the stage throws before it
    commits. *)
Lemma transaction_poisoned (conn : Conn) (c : JsVal) (catalog : list JsVal) env n w :
  (forall env n w, result (exec env n w (derive c)) = inl TypeError) ->
  In c catalog ->
  conn_state w conn = None -> (conn < List.length (connections w))%nat ->
  let run := exec env n w (transaction_with derive conn catalog) in
  existsb committed (trace run) = false /\ exists e, result run = inl e.
Proof.
  intros Hc Hin Hnone Hlt. cbv zeta.
  remember (exec env n w (transaction_with derive conn catalog)) as run eqn:Hrun.
  unfold transaction_with in Hrun.
  simpl in Hrun. unfold perform at 1 in Hrun. destruct (db_rejects (env n)).
  { subst run. unfold trace, result. simpl. split; [reflexivity | now exists DriverError]. }
  unfold pending in Hrun. rewrite Hnone in Hrun. cbn [Db.apply_all fold_left] in Hrun.
  rewrite with_tables_same in Hrun.
  set (w1 := with_connections (set_conn conn (Some []) (connections w)) w) in *.
  assert (H1 : conn_state w1 conn = Some []) by (now apply conn_state_set).
  unfold bindE at 1 in Hrun. rewrite exec_bind in Hrun.
  destruct (upsert_each_run derive derive_quiet conn catalog env (S n) w1 [] H1)
    as (added & _ & _ & Hev & _).
  destruct (upsert_each_poisoned derive conn c catalog Hc Hin env (S n) w1) as [e He].
  destruct (exec env (S n) w1 (upsert_each derive conn catalog)) as [[w2 t2] r2].
  unfold trace, result in Hev, He. simpl in Hev, He. subst r2 run.
  unfold trace, result. simpl. rewrite app_nil_r.
  split; [|now exists e].
  exact (loop_event_excludes _ _ loop_event_not_committed Hev).
Qed.

End Poisoned.

(** X13: one entry of the catalog that is [null], or whose name is truthy
    and is not a string while its population is there, fails the whole
    cycle: the answer is 500, nothing is committed and the tables are as
    they were, whatever the other entries are. *)
Theorem malformed_entry_fails_cycle {rt : Runtime} (refresh : Prog Response)
  (env : nat -> Choice) (n : nat) (w : World) (catalog : list JsVal) (ratesData c : JsVal) :
  refresh = App.refresh \/ refresh = Server.refresh ->
  refreshInProgress w = false ->
  fetched (env (2 + n)%nat) = inr (VArr catalog, ratesData) ->
  In c catalog -> poisoned c ->
  result (exec env n w refresh) = internal_error /\
  existsb committed (trace (exec env n w refresh)) = false /\
  tables (final (exec env n w refresh)) = tables w.
Proof.
  intros Hr Hg Hf Hin Hp.
  assert (Hres : result (exec env n w refresh) = internal_error /\
                 existsb committed (trace (exec env n w refresh)) = false).
  { destruct (fresh_connection w true) as [Hnone Hlt]. cbv zeta in Hnone, Hlt.
    destruct Hr as [-> | ->].
    - rewrite (App_exec_refresh env n w Hg), Hf. cbv zeta. cbn [isArray negb elements].
      destruct (db_rejects (env (3 + n)%nat)); [split; reflexivity|].
      pose proof (transaction_run _ (App_derive_facts (rates_of ratesData))
                    (List.length (connections w)) catalog env (4 + n) _ Hnone Hlt) as Hrun.
      pose proof (transaction_poisoned _ (App_derive_facts (rates_of ratesData))
                    (List.length (connections w)) c catalog env (4 + n) _
                    (fun env n w => App_derive_poisoned c _ env n w Hp) Hin Hnone Hlt)
        as [Hnc [e He]].
      fold (App.transaction (List.length (connections w)) (rates_of ratesData) catalog)
        in Hrun, Hnc, He.
      destruct (exec env (4 + n) _ (App.transaction _ _ _)) as [[w3 t3] done].
      unfold aborted_before_commit, committed_run, final, trace, result in Hrun, Hnc, He.
      cbn [fst snd] in Hrun, Hnc, He. subst done.
      rewrite App_exec_refresh_catch.
      destruct (perform _ (with_guard false w3) (Rollback _)) as [w4 a].
      unfold trace, result. cbn [fst snd]. split.
      + destruct Hrun as [(_ & _ & _ & _ & e' & E & Hcase)
                         | (_ & added & ts & _ & _ & _ & Hres)].
        * injection E as ->. now apply error_response_internal.
        * destruct Hres as [[E _] | [E _]]; [|discriminate E]. injection E as ->. reflexivity.
      + simpl. rewrite existsb_app, Hnc. reflexivity.
    - rewrite (Server_exec_refresh env n w Hg), Hf. cbv zeta. cbn [isArray negb elements].
      destruct (db_rejects (env (3 + n)%nat)); [split; reflexivity|].
      pose proof (transaction_poisoned _ (Server_derive_facts (rates_of ratesData))
                    (List.length (connections w)) c catalog env (4 + n) _
                    (fun env n w => Server_derive_poisoned c _ env n w Hp) Hin Hnone Hlt)
        as [Hnc [e He]].
      fold (Server.transaction (List.length (connections w)) (rates_of ratesData) catalog)
        in Hnc, He.
      destruct (exec env (4 + n) _ (Server.transaction _ _ _)) as [[w3 t3] inner].
      unfold trace, result in Hnc, He. cbn [fst snd] in Hnc, He. subst inner.
      destruct (perform _ w3 (Rollback _)) as [w4 a].
      unfold trace, result. cbn [fst snd]. split; [reflexivity|].
      simpl. rewrite existsb_app, Hnc. reflexivity. }
  destruct Hres as [H1 H2]. split; [exact H1|]. split; [exact H2|].
  destruct (refresh_report refresh env n w Hr Hg) as (_ & _ & _ & Hcf & _).
  now apply Hcf.
Qed.

(** ** A rate payload without rates *)

(** X14: a payload of the rates source that has neither [rates] nor
    [conversion_rates] does not fail the cycle: the mapping is taken to be
    empty, and every entry that qualifies is derived with
    [exchange_rate = null]; its [estimated_gdp] is 0 in the first
    implementation and, for an entry with a code, [null] in the second.
    When [rates] is missing, [conversion_rates] is the mapping. *)
Theorem payload_without_rates {rt : Runtime} (c ratesData : JsVal)
  (env : nat -> Choice) (n : nat) (w : World) :
  truthy (get ratesData "rates") = false ->
  (truthy ratesData = true -> truthy (get ratesData "conversion_rates") = true ->
   rates_of ratesData = get ratesData "conversion_rates") /\
  (truthy (get ratesData "conversion_rates") = false ->
   rates_of ratesData = VObj [] /\
   (qualifies c ->
    (exists row,
        result (exec env n w (App.derive c (rates_of ratesData))) = inr (Some row) /\
        Db.exchange_rate row = VNull /\ Db.estimated_gdp row = of_Z 0) /\
    (has_currency_code c = true -> first_currency_code c <> "" ->
     exists row,
       result (exec env n w (Server.derive c (rates_of ratesData))) = inr (Some row) /\
       Db.exchange_rate row = VNull /\ Db.estimated_gdp row = VNull))).
Proof.
  intros Hr. unfold rates_of at 1 2, or_else. rewrite Hr. split.
  - intros Ht Hc. now rewrite Ht, Hc.
  - intros Hc. rewrite Hc, andb_false_r.
    assert (E : rates_of ratesData = VObj []).
    { unfold rates_of, or_else. now rewrite Hr, Hc, andb_false_r. }
    split; [reflexivity|]. intros Hq. rewrite E. split.
    + now apply App_unmapped_code_zero.
    + intros Hcode Hne. now apply Server_unmapped_code_null.
Qed.

(** ** Two entries with one key *)

Lemma on_duplicate_key_update_same_key (r1 r2 : Db.Row) :
  Db.normalized_name r1 = Db.normalized_name r2 -> Db.on_duplicate_key_update r1 r2 = r2.
Proof. destruct r2. unfold Db.on_duplicate_key_update. simpl. now intros ->. Qed.

Lemma upsert_country_absorbs (r1 r2 : Db.Row) (t : list Db.Row) :
  Db.normalized_name r1 = Db.normalized_name r2 ->
  Db.upsert_country r2 (Db.upsert_country r1 t) = Db.upsert_country r2 t.
Proof.
  intros E. induction t as [|x t IH]; simpl.
  - unfold Db.duplicate_key. rewrite E, String.eqb_refl.
    now rewrite on_duplicate_key_update_same_key.
  - unfold Db.duplicate_key in *. rewrite E.
    destruct (Db.normalized_name x =? Db.normalized_name r2) eqn:K; simpl.
    + unfold Db.duplicate_key. simpl. rewrite K. reflexivity.
    + unfold Db.duplicate_key. rewrite K. f_equal. exact IH.
Qed.

(** X15: two upserts whose names are spellings of one name (they differ
    by case or by white space around) fall on one row, which is left with
    the columns of the later one: the earlier upsert might as well not have
    been sent. *)
Theorem later_spelling_overwrites (r1 r2 : Db.Row) (s1 s2 : string) (t : list Db.Row) :
  row_normalized r1 -> row_normalized r2 ->
  Db.name r1 = VStr s1 -> Db.name r2 = VStr s2 -> variant s1 s2 ->
  Db.normalized_name r1 = Db.normalized_name r2 /\
  Db.upsert_country r2 (Db.upsert_country r1 t) = Db.upsert_country r2 t.
Proof.
  intros (a & Ha & Ka) (b & Hb & Kb) H1 H2 Hv.
  assert (E : Db.normalized_name r1 = Db.normalized_name r2).
  { rewrite H1 in Ha. rewrite H2 in Hb. injection Ha as <-. injection Hb as <-.
    rewrite Ka, Kb, <- !toLowerCase_trim.
    pose proof (normalizeName_variant s1 s2 Hv) as N.
    rewrite !normalizeName_string in N. now injection N as ->. }
  split; [exact E | now apply upsert_country_absorbs].
Qed.

(** ** Normalisation of names *)

(** X16: [normalizeName] is idempotent on strings; it maps a missing
    name and a name of white space alone to the empty string, and throws on
    a truthy value that is not a string. *)
Theorem normalizeName_idempotent (s : string) :
  (exists key, normalizeName (VStr s) = inr key /\ normalizeName (VStr key) = inr key) /\
  normalizeName VUndefined = inr "" /\ normalizeName VNull = inr "" /\
  (all_space s = true -> normalizeName (VStr s) = inr "") /\
  (forall v, truthy v = true -> (forall x, v <> VStr x) -> normalizeName v = inl TypeError).
Proof.
  split; [|split; [reflexivity | split; [reflexivity | split]]].
  - exists (toLowerCase (trim s)). rewrite !normalizeName_string. split; [reflexivity|].
    rewrite !toLowerCase_trim, toLowerCase_idempotent, trim_idempotent. reflexivity.
  - intros H. rewrite normalizeName_string, (trim_all_space s H). reflexivity.
  - intros v. apply poisoned_name.
Qed.

(** ** Deletion *)

Lemma select_after_delete (key : string) (t : list Db.Row) :
  Db.select_by_name key (Db.delete_by_name key t) = [].
Proof.
  unfold Db.select_by_name, Db.delete_by_name.
  induction t as [|x t IH]; simpl; [reflexivity|].
  destruct (Db.normalized_name x =? key) eqn:E; simpl; [exact IH|]. now rewrite E.
Qed.

Lemma delete_nothing (key : string) (t : list Db.Row) :
  Db.select_by_name key t = [] -> Db.delete_by_name key t = t.
Proof.
  unfold Db.select_by_name, Db.delete_by_name.
  induction t as [|x t IH]; simpl; [reflexivity|].
  destruct (Db.normalized_name x =? key); simpl; [discriminate|].
  intros H. now rewrite IH.
Qed.

(** X17: once [DELETE /countries/:name] has gone through, a lookup or a
    second deletion by any spelling of that name answers 404; and a
    deletion that finds no row answers 404 and leaves the table as it
    is. *)
Theorem deleted_country_is_gone (param v : string)
  (env env' : nat -> Choice) (n m : nat) (w : World) :
  db_rejects (env n) = false -> db_rejects (env' m) = false ->
  variant param v ->
  let w' := final (exec env n w (delete_country param)) in
  result (exec env' m w' (get_country v)) = not_found /\
  result (exec env' m w' (delete_country v)) = not_found /\
  (Db.select_by_name (toLowerCase (trim param)) (Db.countries (tables w)) = [] ->
   result (exec env n w (delete_country param)) = not_found /\
   Db.countries (tables w') = Db.countries (tables w)).
Proof.
  intros Hdb Hdb' Hv. cbv zeta.
  destruct (exec_delete_country param env n w Hdb) as [Hfin Hres].
  pose proof (normalizeName_variant param v Hv) as N.
  rewrite !normalizeName_string in N. injection N as N.
  destruct (exec_delete_country v env' m (final (exec env n w (delete_country param))) Hdb')
    as [_ Hres'].
  rewrite (exec_get_country v env' m _ Hdb'), Hres', Hfin, N.
  unfold result at 1. cbn [snd tables with_tables Db.countries].
  rewrite select_after_delete. split; [reflexivity|]. split; [reflexivity|].
  intros Hnone. rewrite Hres, Hnone. split; [reflexivity|]. now apply delete_nothing.
Qed.

(** ** The ranking and the picture *)



Lemma insert_desc_length (r : Db.Row) (l : list Db.Row) :
  List.length (Db.insert_desc r l) = S (List.length l).
Proof.
  induction l as [|y l IH]; simpl; [reflexivity|].
  destruct (Db.gdp_leb _ _); simpl; [now rewrite IH | reflexivity].
Qed.







(** ** What the other handlers can see of a cycle *)

Lemma visited_quiet {R : Type} (p : Prog R) :
  forall env n w,
    forallb quiet (trace (exec env n w p)) = true ->
    Forall (fun w' => w' = w) (visited env n w p).
Proof.
  induction p as [r | o k IH]; intros env n w; simpl.
  - intros _. now constructor.
  - destruct (perform (env n) w o) as [w1 x] eqn:E.
    specialize (IH x env (S n) w1).
    destruct (exec env (S n) w1 (k x)) as [[w2 tr] r]. unfold trace in *. simpl in *.
    intros H. apply andb_prop in H as [Hq Ht].
    assert (Hw : w1 = w).
    { destruct o; try discriminate Hq; unfold perform in E; now injection E as <- _. }
    subst w1. constructor; [reflexivity | now apply IH].
Qed.

Lemma visited_bind {A B : Type} (P : World -> Prop) (m : Prog A) (f : A -> Prog B) :
  forall env n w,
    Forall P (visited env n w m) ->
    Forall P (visited env (n + List.length (trace (exec env n w m)))
                      (final (exec env n w m)) (f (result (exec env n w m)))) ->
    Forall P (visited env n w (bind m f)).
Proof.
  induction m as [a | o k IH]; intros env n w; simpl.
  - unfold final, trace, result. simpl. now rewrite Nat.add_0_r.
  - destruct (perform (env n) w o) as [w1 x]. simpl.
    specialize (IH x env (S n) w1).
    destruct (exec env (S n) w1 (k x)) as [[w2 tr] a].
    unfold final, trace, result in *. simpl in *. rewrite Nat.add_succ_r.
    intros H1 H2. inversion H1 as [|? ? Hw Hrest]; subst.
    constructor; [exact Hw | now apply IH].
Qed.

Ltac seen := simpl; repeat (apply Forall_cons; [solve [auto]|]); try apply Forall_nil.

Section LoopVisited.

Variable derive : JsVal -> M Derived.

Hypothesis derive_quiet : forall c env n w,
  final (exec env n w (derive c)) = w /\
  forallb quiet (trace (exec env n w (derive c))) = true /\
  (forall row, result (exec env n w (derive c)) = inr (Some row) ->
               row_normalized row /\ qualifies c) /\
  (forall e, result (exec env n w (derive c)) = inl e -> e = TypeError).

(** Inside a transaction the loop leaves the tables alone at every
    step. *)
Lemma upsert_each_visited (conn : Conn) (catalog : list JsVal) :
  forall env n w l,
    conn_state w conn = Some l ->
    Forall (fun w' => tables w' = tables w)
           (visited env n w (upsert_each derive conn catalog)).
Proof.
  induction catalog as [|c rest IH]; intros env n w l Hl.
  - simpl. now constructor.
  - cbn [upsert_each]. unfold bindE at 1. apply visited_bind.
    + destruct (derive_quiet c env n w) as (_ & Hq & _).
      eapply Forall_impl; [|exact (visited_quiet _ env n w Hq)].
      now intros w' ->.
    + destruct (derive_quiet c env n w) as (Hw & _ & _).
      rewrite Hw. destruct (result (exec env n w (derive c))) as [e|[row|]].
      * simpl. now constructor.
      * unfold bindE. simpl. unfold perform.
        destruct (db_rejects _).
        -- simpl. repeat constructor.
        -- rewrite Hl. simpl. constructor; [reflexivity|].
           set (w2 := with_connections _ w).
           assert (Hl2 : conn_state w2 conn = Some (l ++ [Db.UpsertCountry row])%list).
           { unfold conn_state, w2. simpl. apply nth_set_conn. eapply nth_some_lt. exact Hl. }
           exact (IH _ _ w2 _ Hl2).
      * exact (IH _ _ w l Hl).
Qed.

(** The stage goes through worlds whose tables are those it started
    from, up to the commit, and those it ends with, from the commit on. *)
Lemma transaction_visited (conn : Conn) (catalog : list JsVal) env n w :
  conn_state w conn = None -> (conn < List.length (connections w))%nat ->
  Forall (fun w' => tables w' = tables w \/
                    tables w' = tables (final (exec env n w
                                                 (transaction_with derive conn catalog))))
         (visited env n w (transaction_with derive conn catalog)).
Proof.
  intros Hnone Hlt.
  remember (exec env n w (transaction_with derive conn catalog)) as run eqn:Hrun.
  unfold transaction_with in *.
  simpl in Hrun. unfold perform at 1 in Hrun.
  simpl. unfold perform.
  destruct (db_rejects (env n)) eqn:D0.
  { subst run. seen. }
  unfold pending in *. rewrite Hnone in *. cbn [Db.apply_all fold_left] in *.
  rewrite with_tables_same in *. cbn [fst snd].
  set (w1 := with_connections (set_conn conn (Some []) (connections w)) w) in *.
  assert (H1 : conn_state w1 conn = Some []) by (now apply conn_state_set).
  constructor; [now left|].
  unfold bindE at 1 in Hrun. rewrite exec_bind in Hrun.
  unfold bindE at 1. apply visited_bind.
  { eapply Forall_impl; [|exact (upsert_each_visited conn catalog env (S n) w1 [] H1)].
    intros w' Hw'. left. exact Hw'. }
  destruct (upsert_each_run derive derive_quiet conn catalog env (S n) w1 [] H1)
    as (added & Hfin & _).
  destruct (exec env (S n) w1 (upsert_each derive conn catalog)) as [[w2 t2] r2].
  unfold final, trace, result in Hfin |- *. simpl in Hfin. cbn [fst snd].
  assert (H2 : conn_state w2 conn = Some added).
  { subst w2. rewrite set_conn_twice. unfold w1. now apply conn_state_set. }
  assert (Ht2 : tables w2 = tables w) by (subst w2; reflexivity).
  clear Hfin. destruct r2 as [e|[]].
  { subst run. seen. }
  simpl in Hrun. unfold perform at 1 in Hrun.
  simpl. repeat (constructor; [now left|]). unfold perform.
  destruct (db_rejects (env (S (S (n + List.length t2))))) eqn:D1.
  { subst run. seen. }
  rewrite H2 in *. cbn [fst snd].
  set (ts := now (env (S (n + List.length t2)))) in *.
  set (meta := Db.UpsertMeta "last_refreshed_at" ts) in *.
  set (w3 := with_connections (set_conn conn (Some (added ++ [meta])%list) (connections w2)) w2)
    in *.
  assert (Ht3 : tables w3 = tables w) by (unfold w3; simpl; exact Ht2).
  simpl in Hrun. unfold perform at 1 in Hrun.
  simpl. repeat (constructor; [now left|]). unfold perform.
  destruct (db_rejects (env (S (S (S (n + List.length t2)))))) eqn:D2.
  { subst run. seen. }
  cbn [fst snd].
  set (w4 := with_connections (set_conn conn None (connections w3))
               (with_tables (Db.apply_all (tables w3) (pending w3 conn)) w3)) in *.
  simpl in Hrun. unfold perform at 1 in Hrun.
  simpl. unfold perform.
  destruct (db_rejects (env (S (S (S (S (n + List.length t2))))))) eqn:D3.
  { subst run. seen. }
  cbn [fst snd].
  simpl in Hrun. unfold perform at 1 in Hrun.
  simpl. unfold perform.
  destruct (db_rejects (env (S (S (S (S (S (n + List.length t2)))))))) eqn:D4.
  { subst run. seen. }
  cbn [fst snd].
  simpl in Hrun. unfold perform in Hrun.
  simpl. unfold perform.
  destruct (render_rejects (env (S (S (S (S (S (S (n + List.length t2))))))))) eqn:D5;
    simpl in Hrun; subst run; seen.
Qed.

End LoopVisited.
Lemma App_refresh_visited {rt : Runtime} env n w :
  Forall (fun w' => tables w' = tables w \/
                    tables w' = tables (final (exec env n w App.refresh)))
         (visited env n w App.refresh).
Proof.
  destruct (refreshInProgress w) eqn:Hg.
  { rewrite (App_exec_refresh_busy env n w Hg). unfold App.refresh.
    cbn -[perform App.transaction App.refresh_catch]. unfold perform. rewrite Hg. seen. }
  pose proof (App_exec_refresh env n w Hg) as Hex. cbv zeta in Hex.
  remember (tables (final (exec env n w App.refresh))) as T eqn:HT.
  rewrite Hex in HT. clear Hex. cbn [Nat.add] in HT.
  unfold App.refresh. cbn -[perform App.transaction App.refresh_catch].
  unfold perform at 1 2. rewrite Hg. cbn -[perform App.transaction App.refresh_catch].
  unfold perform at 1 2. cbn -[perform App.transaction App.refresh_catch].
  rewrite perform_fetch. cbn -[perform App.transaction App.refresh_catch].
  unfold perform at 1. cbn [fst].
  do 3 (apply Forall_cons; [now left|]).
  destruct (fetched (env (S (S n)))) as [err|[cd rd]].
  { unfold App.refresh_catch. simpl. seen. }
  destruct (isArray cd); cbn [negb].
  2: { unfold App.refresh_catch. simpl. seen. }
  cbn -[perform App.transaction App.refresh_catch].
  unfold perform at 1 2. destruct (db_rejects (env (S (S (S n))))).
  { unfold App.refresh_catch. simpl. seen. }
  cbn -[perform App.transaction App.refresh_catch].
  apply Forall_cons; [now left|].
  destruct (fresh_connection w true) as [Hnone Hlt]. cbv zeta in Hnone, Hlt.
  pose proof (transaction_visited _ (App_derive_facts (rates_of rd))
                (List.length (connections w)) (elements cd) env (4 + n) _ Hnone Hlt) as Hv.
  fold (App.transaction (List.length (connections w)) (rates_of rd) (elements cd)) in Hv.
  cbn [Nat.add] in Hv.
  assert (HT3 : T = tables (final (exec env (S (S (S (S n))))
                                     (with_connections (connections w ++ [None])%list
                                        (with_guard true w))
                                     (App.transaction (List.length (connections w))
                                        (rates_of rd) (elements cd))))).
  { destruct (exec env (S (S (S (S n)))) _ (App.transaction _ _ _)) as [[w3 t3] done].
    destruct done as [err|resp]; [|exact HT].
    rewrite App_exec_refresh_catch in HT.
    destruct (perform_rollback (env (S (S (S (S (S (n + List.length t3)))))))
                (with_guard false w3) (List.length (connections w))) as [Hrt _].
    destruct (perform _ (with_guard false w3) (Rollback _)) as [w4 a].
    unfold final in *. simpl in Hrt, HT |- *. congruence. }
  clear HT. subst T.
  apply visited_bind.
  - eapply Forall_impl; [|exact Hv]. intros w' [H|H]; [left | right]; exact H.
  - destruct (exec env (S (S (S (S n)))) _ (App.transaction _ _ _)) as [[w3 t3] done].
    unfold final, trace, result. cbn [fst snd].
    destruct done as [err|resp]; [|seen].
    unfold App.refresh_catch. simpl. unfold perform.
    destruct (db_rejects _); seen.
Qed.

Lemma Server_refresh_visited {rt : Runtime} env n w :
  Forall (fun w' => tables w' = tables w \/
                    tables w' = tables (final (exec env n w Server.refresh)))
         (visited env n w Server.refresh).
Proof.
  destruct (refreshInProgress w) eqn:Hg.
  { rewrite (Server_exec_refresh_busy env n w Hg). unfold Server.refresh.
    cbn -[perform Server.transaction]. unfold perform. rewrite Hg. seen. }
  pose proof (Server_exec_refresh env n w Hg) as Hex. cbv zeta in Hex.
  remember (tables (final (exec env n w Server.refresh))) as T eqn:HT.
  rewrite Hex in HT. clear Hex. cbn [Nat.add] in HT.
  unfold Server.refresh. cbn -[perform Server.transaction].
  unfold perform at 1 2. rewrite Hg. cbn -[perform Server.transaction].
  unfold perform at 1 2. cbn -[perform Server.transaction].
  rewrite perform_fetch. cbn -[perform Server.transaction].
  unfold perform at 1. cbn [fst].
  do 3 (apply Forall_cons; [now left|]).
  destruct (fetched (env (S (S n)))) as [err|[cd rd]].
  { simpl. unfold perform. seen. }
  destruct (isArray cd); cbn [negb].
  2: { simpl. unfold perform. seen. }
  cbn -[perform Server.transaction].
  unfold perform at 1 2. destruct (db_rejects (env (S (S (S n))))).
  { simpl. unfold perform. seen. }
  cbn -[perform Server.transaction].
  apply Forall_cons; [now left|].
  destruct (fresh_connection w true) as [Hnone Hlt]. cbv zeta in Hnone, Hlt.
  pose proof (transaction_visited _ (Server_derive_facts (rates_of rd))
                (List.length (connections w)) (elements cd) env (4 + n) _ Hnone Hlt) as Hv.
  fold (Server.transaction (List.length (connections w)) (rates_of rd) (elements cd)) in Hv.
  cbn [Nat.add] in Hv.
  assert (HT3 : T = tables (final (exec env (S (S (S (S n))))
                                     (with_connections (connections w ++ [None])%list
                                        (with_guard true w))
                                     (Server.transaction (List.length (connections w))
                                        (rates_of rd) (elements cd))))).
  { destruct (exec env (S (S (S (S n)))) _ (Server.transaction _ _ _)) as [[w3 t3] inner].
    destruct inner as [err|resp]; [|exact HT].
    destruct (perform_rollback (env (S (S (S (S (n + List.length t3))))))
                w3 (List.length (connections w))) as [Hrt _].
    destruct (perform _ w3 (Rollback _)) as [w4 a].
    unfold final in *. simpl in Hrt, HT |- *. congruence. }
  clear HT. subst T.
  apply visited_bind; [apply visited_bind|].
  - eapply Forall_impl; [|exact Hv]. intros w' [H|H]; [left | right]; exact H.
  - destruct (exec env (S (S (S (S n)))) _ (Server.transaction _ _ _)) as [[w3 t3] inner].
    unfold final, trace, result. cbn [fst snd].
    destruct inner as [err|resp]; simpl; unfold perform; [destruct (db_rejects _)|]; seen.
  - rewrite exec_bind.
    destruct (exec env (S (S (S (S n)))) _ (Server.transaction _ _ _)) as [[w3 t3] inner].
    destruct inner as [err|resp]; simpl; unfold perform; [destruct (db_rejects _)|]; seen.
Qed.

(** X19: at no step of a cycle, and so at no [await] at which another
    handler may run, do the tables hold a part of the cycle: they are as
    they were before it, or as the cycle leaves them. *)
Theorem cycle_is_never_seen_halfway {rt : Runtime} (refresh : Prog Response)
  (env : nat -> Choice) (n : nat) (w : World) :
  refresh = App.refresh \/ refresh = Server.refresh ->
  Forall (fun w' => tables w' = tables w \/
                    tables w' = tables (final (exec env n w refresh)))
         (visited env n w refresh).
Proof.
  intros [-> | ->]; [apply App_refresh_visited | apply Server_refresh_visited].
Qed.

(** ** Which source is named *)

Lemma refresh_fetch_failed {rt : Runtime} (refresh : Prog Response) env n w (err : Thrown) :
  refresh = App.refresh \/ refresh = Server.refresh ->
  refreshInProgress w = false ->
  fetched (env (2 + n)%nat) = inl err ->
  result (exec env n w refresh) = error_response err.
Proof.
  intros [-> | ->] Hg Hf;
    [rewrite (App_exec_refresh env n w Hg) | rewrite (Server_exec_refresh env n w Hg)];
    cbv zeta; rewrite Hf; reflexivity.
Qed.

(** X20: the 503 names the source whose fetch failed; when the fetch of
    the rates fails, it is the rates that are named even if what came as
    the catalog is not an array; and when both fetches fail, the one that
    failed first is named. *)
Theorem failing_source_is_named {rt : Runtime} (refresh : Prog Response)
  (env : nat -> Choice) (n : nat) (w : World) :
  refresh = App.refresh \/ refresh = Server.refresh ->
  refreshInProgress w = false ->
  let ch := env (2 + n)%nat in
  (forall v e, fetchWithTimeout (countries_reply ch) = inr v ->
               fetchWithTimeout (rates_reply ch) = inl e ->
               result (exec env n w refresh) = service_unavailable "Exchange Rates API") /\
  (forall e v, fetchWithTimeout (countries_reply ch) = inl e ->
               fetchWithTimeout (rates_reply ch) = inr v ->
               result (exec env n w refresh) = service_unavailable "Countries API") /\
  (forall e e', fetchWithTimeout (countries_reply ch) = inl e ->
                fetchWithTimeout (rates_reply ch) = inl e' ->
                result (exec env n w refresh) =
                service_unavailable (if rates_settles_first ch then "Exchange Rates API"
                                     else "Countries API")).
Proof.
  intros Hr Hg. cbv zeta. repeat split.
  - intros v e Hc He.
    rewrite (refresh_fetch_failed refresh env n w (ApiUnavailable "Exchange Rates API") Hr Hg);
      [reflexivity|].
    unfold fetched. now rewrite Hc, He.
  - intros e v He Hv.
    rewrite (refresh_fetch_failed refresh env n w (ApiUnavailable "Countries API") Hr Hg);
      [reflexivity|].
    unfold fetched. now rewrite He, Hv.
  - intros e e' He He'.
    rewrite (refresh_fetch_failed refresh env n w
               (ApiUnavailable (if rates_settles_first (env (2 + n)%nat)
                                then "Exchange Rates API" else "Countries API")) Hr Hg).
    + now destruct (rates_settles_first _).
    + unfold fetched. rewrite He, He'. simpl. now destruct (rates_settles_first _).
Qed.

(** ** The listing of the second implementation *)


(** ** What a cycle stores *)

Lemma apply_all_has_key (l : list Db.Stmt) (t : Db.Tables) (row : Db.Row) :
  In (Db.UpsertCountry row) l ->
  exists r, In r (Db.countries (Db.apply_all t l)) /\
            Db.normalized_name r = Db.normalized_name row.
Proof.
  revert t. induction l as [|s l IH]; intros t Hin; [destruct Hin|].
  destruct Hin as [-> | Hin]; [|now apply IH].
  unfold Db.apply_all. cbn [fold_left]. fold (Db.apply_all (Db.apply t (Db.UpsertCountry row)) l).
  destruct (upsert_country_stores row (Db.countries t)) as (stored & Hs & Hk & _).
  destruct (apply_all_keeps_keys l (Db.apply t (Db.UpsertCountry row))) as [extra E].
  assert (Hkey : In (Db.normalized_name row)
                    (map Db.normalized_name
                       (Db.countries (Db.apply_all (Db.apply t (Db.UpsertCountry row)) l)))).
  { rewrite E. apply in_or_app. left. rewrite <- Hk. now apply in_map. }
  apply in_map_iff in Hkey as (r & Hr & Hin). now exists r.
Qed.

Section Stores.

Variable derive : JsVal -> M Derived.

Hypothesis derive_quiet : forall c env n w,
  final (exec env n w (derive c)) = w /\
  forallb quiet (trace (exec env n w (derive c))) = true /\
  (forall row, result (exec env n w (derive c)) = inr (Some row) ->
               row_normalized row /\ qualifies c) /\
  (forall e, result (exec env n w (derive c)) = inl e -> e = TypeError).

Hypothesis derive_some : forall c env n w,
  qualifies c -> exists row, result (exec env n w (derive c)) = inr (Some row).

Hypothesis derive_key : forall c env n w row s,
  result (exec env n w (derive c)) = inr (Some row) -> get c "name" = VStr s ->
  Db.normalized_name row = toLowerCase (trim s).

(** A loop that goes through has sent an upsert for every entry that
    qualifies, under the key of its name. *)
Lemma upsert_each_covers (conn : Conn) (catalog : list JsVal) :
  forall env n w l,
    conn_state w conn = Some l ->
    result (exec env n w (upsert_each derive conn catalog)) = inr tt ->
    exists added,
      conn_state (final (exec env n w (upsert_each derive conn catalog))) conn
      = Some (l ++ added)%list /\
      forall c s, In c catalog -> qualifies c -> get c "name" = VStr s ->
                  exists row, In (Db.UpsertCountry row) added /\
                              Db.normalized_name row = toLowerCase (trim s).
Proof.
  induction catalog as [|c0 rest IH]; intros env n w l Hl.
  - intros _. exists []. unfold final. simpl. rewrite app_nil_r. split; [exact Hl|].
    intros c s [].
  - rewrite upsert_each_cons.
    destruct (derive_quiet c0 env n w) as (Hw & _).
    pose proof (derive_some c0 env n w) as Hsome.
    pose proof (derive_key c0 env n w) as Hkey.
    destruct (exec env n w (derive c0)) as [[w1 t1] d].
    unfold final, result in Hw, Hsome, Hkey. cbn [fst snd] in Hw, Hsome, Hkey.
    subst w1. cbv zeta. destruct d as [e|[row|]].
    + discriminate.
    + unfold perform. destruct (db_rejects (env (n + List.length t1)%nat)); [discriminate|].
      rewrite Hl.
      set (w2 := with_connections
                   (set_conn conn (Some (l ++ [Db.UpsertCountry row])%list) (connections w))
                   w).
      assert (Hl2 : conn_state w2 conn = Some (l ++ [Db.UpsertCountry row])%list).
      { unfold conn_state, w2. simpl. apply nth_set_conn. eapply nth_some_lt. exact Hl. }
      specialize (IH env (S (n + List.length t1)) w2 _ Hl2).
      destruct (exec env (S (n + List.length t1)) w2 (upsert_each derive conn rest))
        as [[w3 t3] r].
      unfold final, result in IH |- *. cbn [fst snd] in IH |- *.
      intros Hr. destruct (IH Hr) as (added & Hc & Hcov).
      exists (Db.UpsertCountry row :: added). split.
      * rewrite Hc, <- app_assoc. reflexivity.
      * intros c s [<- | Hin] Hq Hs.
        -- exists row. split; [now left | now apply Hkey].
        -- destruct (Hcov c s Hin Hq Hs) as (row' & Hin' & Hk').
           exists row'. split; [now right | exact Hk'].
    + specialize (IH env (n + List.length t1)%nat w l Hl).
      destruct (exec env (n + List.length t1) w (upsert_each derive conn rest))
        as [[w3 t3] r].
      unfold final, result in IH |- *. cbn [fst snd] in IH |- *.
      intros Hr. destruct (IH Hr) as (added & Hc & Hcov).
      exists added. split; [exact Hc|].
      intros c s [<- | Hin] Hq Hs; [|now apply (Hcov c s)].
      destruct (Hsome Hq) as [row Hrow]. discriminate Hrow.
Qed.

(** A stage that answers has stored a row for every entry that
    qualifies. *)
Lemma transaction_stores (conn : Conn) (catalog : list JsVal) env n w :
  conn_state w conn = None -> (conn < List.length (connections w))%nat ->
  let run := exec env n w (transaction_with derive conn catalog) in
  forall resp, result run = inr resp ->
  forall c s, In c catalog -> qualifies c -> get c "name" = VStr s ->
              exists r, In r (Db.countries (tables (final run))) /\
                        Db.normalized_name r = toLowerCase (trim s).
Proof.
  intros Hnone Hlt. cbv zeta.
  remember (exec env n w (transaction_with derive conn catalog)) as run eqn:Hrun.
  unfold transaction_with in Hrun.
  simpl in Hrun. unfold perform at 1 in Hrun. destruct (db_rejects (env n)) eqn:D0.
  { subst run. discriminate. }
  unfold pending in Hrun. rewrite Hnone in Hrun. cbn [Db.apply_all fold_left] in Hrun.
  rewrite with_tables_same in Hrun.
  set (w1 := with_connections (set_conn conn (Some []) (connections w)) w) in *.
  assert (H1 : conn_state w1 conn = Some []) by (now apply conn_state_set).
  unfold bindE at 1 in Hrun. rewrite exec_bind in Hrun.
  destruct (upsert_each_run derive derive_quiet conn catalog env (S n) w1 [] H1)
    as (added' & Hfin & _).
  pose proof (upsert_each_covers conn catalog env (S n) w1 [] H1) as Hcov.
  destruct (exec env (S n) w1 (upsert_each derive conn catalog)) as [[w2 t2] r2].
  unfold final, trace, result in Hfin, Hcov. cbn [fst snd] in Hfin, Hcov.
  assert (Ht2 : tables w2 = tables w) by (subst w2; reflexivity).
  assert (Hl2 : (conn < List.length (connections w2))%nat).
  { subst w2. simpl. now rewrite !set_conn_length. }
  clear Hfin added'. destruct r2 as [e|[]].
  { subst run. discriminate. }
  destruct (Hcov eq_refl) as (added & H2 & Hall). clear Hcov. cbn [app] in H2.
  simpl in Hrun. unfold perform at 1 in Hrun.
  destruct (db_rejects (env (S (S (n + List.length t2))))) eqn:D1.
  { subst run. discriminate. }
  rewrite H2 in Hrun.
  set (ts := now (env (S (n + List.length t2)))) in *.
  set (meta := Db.UpsertMeta "last_refreshed_at" ts) in *.
  set (w3 := with_connections (set_conn conn (Some (added ++ [meta])%list) (connections w2)) w2)
    in *.
  assert (H3 : pending w3 conn = (added ++ [meta])%list).
  { unfold pending, w3. now rewrite conn_state_set. }
  simpl in Hrun. unfold perform at 1 in Hrun.
  destruct (db_rejects (env (S (S (S (n + List.length t2)))))) eqn:D2.
  { subst run. discriminate. }
  rewrite H3 in Hrun.
  assert (Hstored : forall c s, In c catalog -> qualifies c -> get c "name" = VStr s ->
                    exists r, In r (Db.countries
                                      (Db.apply_all (tables w3) (added ++ [meta])%list)) /\
                              Db.normalized_name r = toLowerCase (trim s)).
  { intros c s Hin Hq Hs. destruct (Hall c s Hin Hq Hs) as (row & Hrow & Hk).
    destruct (apply_all_has_key (added ++ [meta])%list (tables w3) row) as (r & Hr & Hkr).
    { apply in_or_app. now left. }
    exists r. split; [exact Hr | congruence]. }
  simpl in Hrun. unfold perform at 1 in Hrun.
  destruct (db_rejects (env (S (S (S (S (n + List.length t2))))))) eqn:D3.
  { subst run. discriminate. }
  simpl in Hrun. unfold perform at 1 in Hrun.
  destruct (db_rejects (env (S (S (S (S (S (n + List.length t2)))))))) eqn:D4.
  { subst run. discriminate. }
  simpl in Hrun. unfold perform in Hrun.
  destruct (render_rejects (env (S (S (S (S (S (S (n + List.length t2))))))))) eqn:D5;
    simpl in Hrun; subst run; unfold final, result; simpl; intros resp _; exact Hstored.
Qed.

End Stores.

Lemma App_derive_key {rt : Runtime} (rates : JsVal) :
  forall c env n w row s,
    result (exec env n w (App.derive c rates)) = inr (Some row) -> get c "name" = VStr s ->
    Db.normalized_name row = toLowerCase (trim s).
Proof.
  intros c env n w row s H Hs.
  destruct (App_derive_quiet c rates env n w) as (_ & _ & Hq & _).
  specialize (Hq row H). rewrite (App_exec_derive c rates env n w Hq) in H. cbv zeta in H.
  destruct (exec env n w (App.resolve _ _ rates)) as [[w1 t1] [rate gdp]].
  unfold result in H. cbn [snd] in H. injection H as <-. rewrite Hs. reflexivity.
Qed.

Lemma Server_derive_key {rt : Runtime} (rates : JsVal) :
  forall c env n w row s,
    result (exec env n w (Server.derive c rates)) = inr (Some row) -> get c "name" = VStr s ->
    Db.normalized_name row = toLowerCase (trim s).
Proof.
  intros c env n w row s H Hs.
  destruct (Server_derive_quiet c rates env n w) as (_ & _ & Hq & _).
  specialize (Hq row H). rewrite (Server_exec_derive c rates env n w Hq) in H. cbv zeta in H.
  destruct (exec env n w (Server.resolve _ _ rates)) as [[w1 t1] [rate gdp]].
  unfold result in H. cbn [snd] in H. injection H as <-. rewrite Hs. reflexivity.
Qed.

Lemma select_finds (key : string) (t : list Db.Row) (r : Db.Row) :
  In r t -> Db.normalized_name r = key ->
  exists row rest, Db.select_by_name key t = row :: rest /\ Db.normalized_name row = key.
Proof.
  intros Hin Hk.
  assert (H : In r (Db.select_by_name key t)).
  { unfold Db.select_by_name. apply filter_In. split; [exact Hin|]. now apply String.eqb_eq. }
  destruct (Db.select_by_name key t) as [|row rest] eqn:E; [destruct H|].
  exists row, rest. split; [reflexivity|].
  assert (Hrow : In row (Db.select_by_name key t)) by (rewrite E; now left).
  unfold Db.select_by_name in Hrow. apply filter_In in Hrow as [_ Hrow].
  now apply String.eqb_eq.
Qed.

Lemma error_response_status {rt : Runtime} (e : Thrown) : status (error_response e) <> 200%Z.
Proof.
  unfold error_response. destruct (truthy (err_api e)); [discriminate|].
  destruct (is_string (err_name e) "AbortError"); discriminate.
Qed.

Lemma refresh_stores {rt : Runtime} (refresh : Prog Response) env n w
  (catalog : list JsVal) (ratesData c : JsVal) (s : string) :
  refresh = App.refresh \/ refresh = Server.refresh ->
  refreshInProgress w = false ->
  fetched (env (2 + n)%nat) = inr (VArr catalog, ratesData) ->
  status (result (exec env n w refresh)) = 200%Z ->
  In c catalog -> qualifies c -> get c "name" = VStr s ->
  exists r, In r (Db.countries (tables (final (exec env n w refresh)))) /\
            Db.normalized_name r = toLowerCase (trim s).
Proof.
  intros Hr Hg Hf H200 Hin Hq Hs.
  destruct (fresh_connection w true) as [Hnone Hlt]. cbv zeta in Hnone, Hlt.
  destruct Hr as [-> | ->].
  - rewrite (App_exec_refresh env n w Hg), Hf in H200 |- *. cbv zeta in H200 |- *.
    cbn [isArray negb elements] in H200 |- *.
    destruct (db_rejects (env (3 + n)%nat)); [discriminate H200|].
    pose proof (transaction_stores _ (App_derive_facts (rates_of ratesData))
                  (fun c env n w => App_derive_qualifies c _ env n w)
                  (App_derive_key (rates_of ratesData))
                  (List.length (connections w)) catalog env (4 + n) _ Hnone Hlt) as Hst.
    cbv zeta in Hst.
    fold (App.transaction (List.length (connections w)) (rates_of ratesData) catalog) in Hst.
    destruct (exec env (4 + n) _ (App.transaction _ _ _)) as [[w3 t3] done].
    unfold final, result in Hst. cbn [fst snd] in Hst.
    destruct done as [err|resp].
    + rewrite App_exec_refresh_catch in H200.
      destruct (perform _ (with_guard false w3) (Rollback _)) as [w4 a].
      unfold result in H200. cbn [snd] in H200. now destruct (error_response_status err).
    + unfold final. cbn [fst]. now apply (Hst resp eq_refl c s).
  - rewrite (Server_exec_refresh env n w Hg), Hf in H200 |- *. cbv zeta in H200 |- *.
    cbn [isArray negb elements] in H200 |- *.
    destruct (db_rejects (env (3 + n)%nat)); [discriminate H200|].
    pose proof (transaction_stores _ (Server_derive_facts (rates_of ratesData))
                  (fun c env n w => Server_derive_qualifies c _ env n w)
                  (Server_derive_key (rates_of ratesData))
                  (List.length (connections w)) catalog env (4 + n) _ Hnone Hlt) as Hst.
    cbv zeta in Hst.
    fold (Server.transaction (List.length (connections w)) (rates_of ratesData) catalog)
      in Hst.
    destruct (exec env (4 + n) _ (Server.transaction _ _ _)) as [[w3 t3] inner].
    unfold final, result in Hst. cbn [fst snd] in Hst.
    destruct inner as [err|resp].
    + destruct (perform _ w3 (Rollback _)) as [w4 a]. discriminate H200.
    + unfold final. cbn [fst]. now apply (Hst resp eq_refl c s).
Qed.

(** X22: once a cycle has answered 200, every entry of the catalog that
    qualifies is stored: a lookup by its name, in any spelling, finds a row
    under the key of that name. *)
Theorem refreshed_country_is_found {rt : Runtime} (refresh : Prog Response)
  (env env' : nat -> Choice) (n m : nat) (w : World)
  (catalog : list JsVal) (ratesData c : JsVal) (s v : string) :
  refresh = App.refresh \/ refresh = Server.refresh ->
  refreshInProgress w = false ->
  fetched (env (2 + n)%nat) = inr (VArr catalog, ratesData) ->
  status (result (exec env n w refresh)) = 200%Z ->
  In c catalog -> qualifies c -> get c "name" = VStr s -> variant s v ->
  db_rejects (env' m) = false ->
  exists row,
    result (exec env' m (final (exec env n w refresh)) (get_country v)) = json (row_json row) /\
    Db.normalized_name row = toLowerCase (trim s).
Proof.
  intros Hr Hg Hf H200 Hin Hq Hs Hv Hdb.
  destruct (refresh_stores refresh env n w catalog ratesData c s Hr Hg Hf H200 Hin Hq Hs)
    as (r & Hrin & Hk).
  pose proof (normalizeName_variant s v Hv) as N.
  rewrite !normalizeName_string in N. injection N as N.
  rewrite (exec_get_country v env' m _ Hdb), N.
  destruct (select_finds _ _ r Hrin Hk) as (row & rest & -> & Hrow).
  exists row. split; [reflexivity | exact Hrow].
Qed.

Lemma refreshed_country_is_found_witness :
  exists row,
    result (exec (fun _ => calm (VArr []) no_rates) 0
                 (final (exec (fun _ => calm (VArr [nigeria]) rates_payload) 0 empty_world
                              (App.refresh (rt := sample_runtime))))
                 (get_country " NIGERIA")) = json (row_json row) /\
    Db.normalized_name row = "nigeria".
Proof.
  apply (refreshed_country_is_found (rt := sample_runtime) App.refresh
           (fun _ => calm (VArr [nigeria]) rates_payload) (fun _ => calm (VArr []) no_rates)
           0 0 empty_world [nigeria] rates_payload nigeria "Nigeria" " NIGERIA"
           (or_introl eq_refl) eq_refl eq_refl eq_refl (or_introl eq_refl)
           nigeria_qualifies eq_refl).
  - apply (variant_intro "" "Nigeria" "" " " "NIGERIA" ""); reflexivity.
  - reflexivity.
Defined.

(** ** Where the rows of a cycle come from *)

Lemma apply_all_key_origin (l : list Db.Stmt) (t : Db.Tables) (key : string) :
  In key (map Db.normalized_name (Db.countries (Db.apply_all t l))) ->
  In key (map Db.normalized_name (Db.countries t)) \/
  exists row, In (Db.UpsertCountry row) l /\ Db.normalized_name row = key.
Proof.
  unfold Db.apply_all. revert t. induction l as [|s l IH]; intros t; simpl; [now left|].
  intros H. destruct (IH _ H) as [Hk | (row & Hin & Hk)].
  - destruct s as [r | k v]; simpl in Hk; [|now left].
    rewrite upsert_country_keys in Hk.
    destruct (existsb _ _); [now left|].
    apply in_app_or in Hk as [Hk | [Hk | []]]; [now left|].
    right. exists r. split; [now left | exact Hk].
  - right. exists row. split; [now right | exact Hk].
Qed.

Section Origin.

Variable derive : JsVal -> M Derived.

Hypothesis derive_quiet : forall c env n w,
  final (exec env n w (derive c)) = w /\
  forallb quiet (trace (exec env n w (derive c))) = true /\
  (forall row, result (exec env n w (derive c)) = inr (Some row) ->
               row_normalized row /\ qualifies c) /\
  (forall e, result (exec env n w (derive c)) = inl e -> e = TypeError).

Hypothesis derive_key : forall c env n w row s,
  result (exec env n w (derive c)) = inr (Some row) -> get c "name" = VStr s ->
  Db.normalized_name row = toLowerCase (trim s).

(** Every upsert that the loop sends is the one of an entry that
    qualifies, under the key of its name. *)
Lemma upsert_each_origin (conn : Conn) (catalog : list JsVal) :
  forall env n w l,
    conn_state w conn = Some l ->
    exists added,
      conn_state (final (exec env n w (upsert_each derive conn catalog))) conn
      = Some (l ++ added)%list /\
      forall row, In (Db.UpsertCountry row) added ->
                  exists c s, In c catalog /\ qualifies c /\ get c "name" = VStr s /\
                              Db.normalized_name row = toLowerCase (trim s).
Proof.
  induction catalog as [|c0 rest IH]; intros env n w l Hl.
  - exists []. unfold final. simpl. rewrite app_nil_r. split; [exact Hl|]. intros row [].
  - rewrite upsert_each_cons.
    destruct (derive_quiet c0 env n w) as (Hw & _ & Hq & _).
    pose proof (derive_key c0 env n w) as Hkey.
    destruct (exec env n w (derive c0)) as [[w1 t1] d].
    unfold final, result in Hw, Hq, Hkey. cbn [fst snd] in Hw, Hq, Hkey.
    subst w1. cbv zeta. destruct d as [e|[row|]].
    + exists []. unfold final. cbn [fst]. rewrite app_nil_r. split; [exact Hl|].
      intros row [].
    + unfold perform. destruct (db_rejects (env (n + List.length t1)%nat)).
      { exists []. unfold final. cbn [fst]. rewrite app_nil_r. split; [exact Hl|].
        intros row' []. }
      rewrite Hl.
      set (w2 := with_connections
                   (set_conn conn (Some (l ++ [Db.UpsertCountry row])%list) (connections w))
                   w).
      assert (Hl2 : conn_state w2 conn = Some (l ++ [Db.UpsertCountry row])%list).
      { unfold conn_state, w2. simpl. apply nth_set_conn. eapply nth_some_lt. exact Hl. }
      destruct (IH env (S (n + List.length t1)) w2 _ Hl2) as (added & Hc & Horg).
      destruct (exec env (S (n + List.length t1)) w2 (upsert_each derive conn rest))
        as [[w3 t3] r].
      unfold final in Hc |- *. cbn [fst] in Hc |- *.
      exists (Db.UpsertCountry row :: added). split.
      * rewrite Hc, <- app_assoc. reflexivity.
      * intros row' [[= <-] | Hin].
        -- destruct (Hq row eq_refl) as [_ Hc0].
           destruct Hc0 as [(s & Hs & Hne) Hp].
           exists c0, s. split; [now left|]. split; [split; [exists s; auto | exact Hp]|].
           split; [exact Hs | now apply Hkey].
        -- destruct (Horg row' Hin) as (c & s & Hc' & Hrest).
           exists c, s. split; [now right | exact Hrest].
    + destruct (IH env (n + List.length t1)%nat w l Hl) as (added & Hc & Horg).
      destruct (exec env (n + List.length t1) w (upsert_each derive conn rest))
        as [[w3 t3] r].
      unfold final in Hc |- *. cbn [fst] in Hc |- *.
      exists added. split; [exact Hc|].
      intros row' Hin. destruct (Horg row' Hin) as (c & s & Hc' & Hrest).
      exists c, s. split; [now right | exact Hrest].
Qed.

(** A stage that answers leaves the tables with the upserts that its
    loop has sent, and the time of the refresh, applied. *)
Lemma transaction_origin (conn : Conn) (catalog : list JsVal) env n w :
  conn_state w conn = None -> (conn < List.length (connections w))%nat ->
  let run := exec env n w (transaction_with derive conn catalog) in
  forall resp, result run = inr resp ->
  forall r, In r (Db.countries (tables (final run))) ->
    (exists r0, In r0 (Db.countries (tables w)) /\
                Db.normalized_name r0 = Db.normalized_name r) \/
    (exists c s, In c catalog /\ qualifies c /\ get c "name" = VStr s /\
                 Db.normalized_name r = toLowerCase (trim s)).
Proof.
  intros Hnone Hlt. cbv zeta.
  remember (exec env n w (transaction_with derive conn catalog)) as run eqn:Hrun.
  unfold transaction_with in Hrun.
  simpl in Hrun. unfold perform at 1 in Hrun. destruct (db_rejects (env n)) eqn:D0.
  { subst run. discriminate. }
  unfold pending in Hrun. rewrite Hnone in Hrun. cbn [Db.apply_all fold_left] in Hrun.
  rewrite with_tables_same in Hrun.
  set (w1 := with_connections (set_conn conn (Some []) (connections w)) w) in *.
  assert (H1 : conn_state w1 conn = Some []) by (now apply conn_state_set).
  unfold bindE at 1 in Hrun. rewrite exec_bind in Hrun.
  destruct (upsert_each_run derive derive_quiet conn catalog env (S n) w1 [] H1)
    as (added' & Hfin & _).
  destruct (upsert_each_origin conn catalog env (S n) w1 [] H1) as (added & H2 & Horg).
  destruct (exec env (S n) w1 (upsert_each derive conn catalog)) as [[w2 t2] r2].
  unfold final, trace, result in Hfin, H2. cbn [fst snd app] in Hfin, H2.
  assert (Ht2 : tables w2 = tables w) by (subst w2; reflexivity).
  assert (Hl2 : (conn < List.length (connections w2))%nat).
  { subst w2. simpl. now rewrite !set_conn_length. }
  clear Hfin added'. destruct r2 as [e|[]].
  { subst run. discriminate. }
  simpl in Hrun. unfold perform at 1 in Hrun.
  destruct (db_rejects (env (S (S (n + List.length t2))))) eqn:D1.
  { subst run. discriminate. }
  rewrite H2 in Hrun.
  set (ts := now (env (S (n + List.length t2)))) in *.
  set (meta := Db.UpsertMeta "last_refreshed_at" ts) in *.
  set (w3 := with_connections (set_conn conn (Some (added ++ [meta])%list) (connections w2)) w2)
    in *.
  assert (H3 : pending w3 conn = (added ++ [meta])%list).
  { unfold pending, w3. now rewrite conn_state_set. }
  simpl in Hrun. unfold perform at 1 in Hrun.
  destruct (db_rejects (env (S (S (S (n + List.length t2)))))) eqn:D2.
  { subst run. discriminate. }
  rewrite H3 in Hrun.
  assert (Hfrom : forall r,
             In r (Db.countries (Db.apply_all (tables w3) (added ++ [meta])%list)) ->
             (exists r0, In r0 (Db.countries (tables w)) /\
                         Db.normalized_name r0 = Db.normalized_name r) \/
             (exists c s, In c catalog /\ qualifies c /\ get c "name" = VStr s /\
                          Db.normalized_name r = toLowerCase (trim s))).
  { intros r Hr. apply (in_map Db.normalized_name) in Hr.
    apply apply_all_key_origin in Hr as [Hk | (row & Hin & Hk)].
    - left. apply in_map_iff in Hk as (r0 & Hk0 & Hin0). exists r0.
      split; [|exact Hk0]. unfold w3 in Hin0. simpl in Hin0. now rewrite Ht2 in Hin0.
    - right. apply in_app_or in Hin as [Hin | [Hin | []]]; [|discriminate Hin].
      destruct (Horg row Hin) as (c & s & Hc & Hq & Hs & Hkey).
      exists c, s. repeat split; try assumption; try apply Hq. congruence. }
  simpl in Hrun. unfold perform at 1 in Hrun.
  destruct (db_rejects (env (S (S (S (S (n + List.length t2))))))) eqn:D3.
  { subst run. discriminate. }
  simpl in Hrun. unfold perform at 1 in Hrun.
  destruct (db_rejects (env (S (S (S (S (S (n + List.length t2)))))))) eqn:D4.
  { subst run. discriminate. }
  simpl in Hrun. unfold perform in Hrun.
  destruct (render_rejects (env (S (S (S (S (S (S (n + List.length t2))))))))) eqn:D5;
    simpl in Hrun; subst run; unfold final, result; simpl; intros resp _; exact Hfrom.
Qed.

End Origin.

(** X23: a cycle that answers 200 stores nothing of its own making: every
    row of the table it leaves has the key of a row that was there before,
    or the key of the name of an entry of the catalog that qualifies. *)
Theorem stored_rows_come_from_catalog {rt : Runtime} (refresh : Prog Response)
  (env : nat -> Choice) (n : nat) (w : World) (catalog : list JsVal) (ratesData : JsVal) :
  refresh = App.refresh \/ refresh = Server.refresh ->
  refreshInProgress w = false ->
  fetched (env (2 + n)%nat) = inr (VArr catalog, ratesData) ->
  status (result (exec env n w refresh)) = 200%Z ->
  forall r, In r (Db.countries (tables (final (exec env n w refresh)))) ->
    (exists r0, In r0 (Db.countries (tables w)) /\
                Db.normalized_name r0 = Db.normalized_name r) \/
    (exists c s, In c catalog /\ qualifies c /\ get c "name" = VStr s /\
                 Db.normalized_name r = toLowerCase (trim s)).
Proof.
  intros Hr Hg Hf H200.
  destruct (fresh_connection w true) as [Hnone Hlt]. cbv zeta in Hnone, Hlt.
  destruct Hr as [-> | ->].
  - rewrite (App_exec_refresh env n w Hg), Hf in H200 |- *. cbv zeta in H200 |- *.
    cbn [isArray negb elements] in H200 |- *.
    destruct (db_rejects (env (3 + n)%nat)); [discriminate H200|].
    pose proof (transaction_origin _ (App_derive_facts (rates_of ratesData))
                  (App_derive_key (rates_of ratesData))
                  (List.length (connections w)) catalog env (4 + n) _ Hnone Hlt) as Hst.
    cbv zeta in Hst.
    fold (App.transaction (List.length (connections w)) (rates_of ratesData) catalog) in Hst.
    destruct (exec env (4 + n) _ (App.transaction _ _ _)) as [[w3 t3] done].
    unfold final, result in Hst. cbn [fst snd] in Hst.
    destruct done as [err|resp].
    + rewrite App_exec_refresh_catch in H200.
      destruct (perform _ (with_guard false w3) (Rollback _)) as [w4 a].
      unfold result in H200. cbn [snd] in H200. now destruct (error_response_status err).
    + unfold final. cbn [fst]. exact (Hst resp eq_refl).
  - rewrite (Server_exec_refresh env n w Hg), Hf in H200 |- *. cbv zeta in H200 |- *.
    cbn [isArray negb elements] in H200 |- *.
    destruct (db_rejects (env (3 + n)%nat)); [discriminate H200|].
    pose proof (transaction_origin _ (Server_derive_facts (rates_of ratesData))
                  (Server_derive_key (rates_of ratesData))
                  (List.length (connections w)) catalog env (4 + n) _ Hnone Hlt) as Hst.
    cbv zeta in Hst.
    fold (Server.transaction (List.length (connections w)) (rates_of ratesData) catalog)
      in Hst.
    destruct (exec env (4 + n) _ (Server.transaction _ _ _)) as [[w3 t3] inner].
    unfold final, result in Hst. cbn [fst snd] in Hst.
    destruct inner as [err|resp].
    + destruct (perform _ w3 (Rollback _)) as [w4 a]. discriminate H200.
    + unfold final. cbn [fst]. exact (Hst resp eq_refl).
Qed.

Lemma stored_rows_come_from_catalog_witness :
  Forall (fun r => Db.normalized_name r = "nigeria")
         (Db.countries
            (tables (final (exec (fun _ => calm (VArr [nameless; nigeria]) rates_payload) 0
                                 empty_world (App.refresh (rt := sample_runtime)))))).
Proof.
  apply Forall_forall. intros r Hr.
  destruct (stored_rows_come_from_catalog (rt := sample_runtime) App.refresh
              (fun _ => calm (VArr [nameless; nigeria]) rates_payload) 0 empty_world
              [nameless; nigeria] rates_payload (or_introl eq_refl) eq_refl eq_refl eq_refl
              r Hr) as [(r0 & [] & _) | (c & s & Hc & Hq & Hs & Hk)].
  destruct Hc as [<- | [<- | []]].
  - destruct Hq as [(s' & Hs' & _) _]. discriminate Hs'.
  - injection Hs as <-. exact Hk.
Defined.

(** ** The estimate *)



(** X25: a rate that converts to 0 is never divided by: the entry is
    stored with that rate and with [estimated_gdp = null], in both
    implementations. *)
Theorem zero_rate_gives_no_estimate {rt : Runtime} (c rates rate : JsVal)
  (env : nat -> Choice) (n : nat) (w : World) :
  qualifies c -> has_currency_code c = true ->
  first_currency_code c <> "" -> first_currency_code c <> "N/A" ->
  own_property rates (first_currency_code c) = Some rate ->
  num_is_zero (ToNumber rate) = true ->
  exists ra rs,
    result (exec env n w (App.derive c rates)) = inr (Some ra) /\
    result (exec env n w (Server.derive c rates)) = inr (Some rs) /\
    Db.exchange_rate ra = rate /\ Db.exchange_rate rs = rate /\
    Db.estimated_gdp ra = VNull /\ Db.estimated_gdp rs = VNull.
Proof.
  intros Hq Hc Hne Hna Hr Hz.
  rewrite (App_exec_derive c rates env n w Hq), (Server_exec_derive c rates env n w Hq), Hc.
  cbv zeta. rewrite App_exec_resolve, Server_exec_resolve.
  rewrite (proj2 (String.eqb_neq _ _) Hna), (proj2 (truthy_string _) Hne).
  cbn [negb andb ToString]. unfold hasOwnProperty, get. rewrite Hr, Hz, !orb_true_r.
  do 2 eexists. repeat split.
Qed.

Lemma zero_rate_gives_no_estimate_witness :
  exists row,
    result (exec (fun _ => calm (VArr [nigeria]) rates_payload) 0 empty_world
                 (App.derive (rt := sample_runtime) nigeria rates_zero)) = inr (Some row) /\
    Db.exchange_rate row = of_Z 0 /\ Db.estimated_gdp row = VNull.
Proof.
  destruct (zero_rate_gives_no_estimate (rt := sample_runtime) nigeria rates_zero (of_Z 0)
              (fun _ => calm (VArr [nigeria]) rates_payload) 0 empty_world
              nigeria_qualifies eq_refl) as (ra & rs & Ha & _ & Hr & _ & Hg & _);
    try discriminate; try reflexivity.
  exists ra. auto.
Defined.

(** ** Instances of the further properties *)

Lemma ngn_spelling : variant "ngn" " NGN ".
Proof. apply (variant_intro "" "ngn" "" " " "NGN" " "); reflexivity. Defined.

Lemma ghana_spelling : variant "Ghana" " GHANA ".
Proof. apply (variant_intro "" "Ghana" "" " " "GHANA" " "); reflexivity. Defined.

Lemma currency_filter_meets_stored_code_witness :
  exists row filters limit offset,
    result (exec (fun _ => calm (VArr [nigeria]) rates_payload) 0 empty_world
                 (Server.derive (rt := sample_runtime) nigeria rates_ngn)) = inr (Some row) /\
    sql_params (AppRead.list_statement (rt := sample_runtime)
                  (VObj [("currency", VStr " NGN ")]))
    = (filters ++ [Db.currency_code row; of_Z limit; of_Z offset])%list.
Proof.
  destruct (currency_filter_meets_stored_code (rt := sample_runtime)
              nigeria rates_ngn (VObj [("currency", VStr " NGN ")]) "ngn" " NGN "
              (fun _ => calm (VArr [nigeria]) rates_payload) 0 empty_world
              nigeria_qualifies eq_refl eq_refl ngn_spelling)
    as (ra & rs & filters & limit & offset & _ & Hs & E & Hp);
    [discriminate | reflexivity |].
  exists rs, filters, limit, offset. split; [exact Hs|]. rewrite <- E. exact Hp.
Defined.

Lemma status_reports_last_cycle_witness :
  get_status (fun _ => calm (VArr [nigeria]) rates_payload)
    (final (exec (fun _ => calm (VArr [nigeria]) rates_payload) 0 empty_world
                 (App.refresh (rt := sample_runtime))))
  = json (VObj [("total_countries", of_nat 1); ("last_refreshed_at", VStr instant)]).
Proof.
  rewrite (status_reports_last_cycle (rt := sample_runtime) App.refresh
             (fun _ => calm (VArr [nigeria]) rates_payload)
             (fun _ => calm (VArr [nigeria]) rates_payload) 0 empty_world
             (or_introl eq_refl) eq_refl eq_refl eq_refl eq_refl).
  reflexivity.
Defined.

Lemma status_without_cycle_witness :
  get_status (fun _ => calm (VArr []) no_rates) empty_world
  = json (VObj [("total_countries", of_nat 0); ("last_refreshed_at", VNull)]).
Proof.
  apply (proj2 (status_without_cycle (fun _ => calm (VArr []) no_rates) empty_world));
    reflexivity.
Defined.

Lemma image_follows_cycle_witness :
  status (result (exec (fun _ => render_down (VArr [nigeria]) rates_payload) 0
                       world_with_ghana (Server.refresh (rt := sample_runtime)))) = 200%Z /\
  get_image (final (exec (fun _ => render_down (VArr [nigeria]) rates_payload) 0
                         world_with_ghana (Server.refresh (rt := sample_runtime))))
  = Json (jsonError 404 "Summary image not found" None).
Proof.
  destruct (image_follows_cycle (rt := sample_runtime) Server.refresh
              (fun _ => render_down (VArr [nigeria]) rates_payload) 0 world_with_ghana
              (or_intror eq_refl) eq_refl) as (H & _).
  destruct H as [H200 Himg]; [vm_compute; reflexivity|].
  split; [exact H200|]. rewrite Himg. reflexivity.
Defined.

Lemma connections_given_back_witness :
  count acquired (trace (exec (fun _ => calm (VArr [nigeria]) rates_payload) 0 empty_world
                              (App.refresh (rt := sample_runtime)))) = 1%nat /\
  count released_conn (trace (exec (fun _ => calm (VArr [nigeria]) rates_payload) 0
                                   empty_world (App.refresh (rt := sample_runtime)))) = 0%nat.
Proof.
  destruct (connections_given_back (rt := sample_runtime)
              (fun _ => calm (VArr [nigeria]) rates_payload) 0 empty_world) as (_ & _ & H).
  apply H. vm_compute. reflexivity.
Defined.

Lemma commit_outlives_failure_witness :
  status (result (exec (rejects_at 11 (VArr [nigeria]) rates_payload) 0 empty_world
                       (App.refresh (rt := sample_runtime)))) = 500%Z /\
  exists added ts,
    tables (final (exec (rejects_at 11 (VArr [nigeria]) rates_payload) 0 empty_world
                        (App.refresh (rt := sample_runtime)))) =
    Db.apply_all (tables empty_world) (added ++ [Db.UpsertMeta "last_refreshed_at" ts])%list.
Proof.
  split; [vm_compute; reflexivity|].
  destruct (commit_outlives_failure (rt := sample_runtime) App.refresh
              (rejects_at 11 (VArr [nigeria]) rates_payload) 0 empty_world
              (or_introl eq_refl) eq_refl) as [(added & ts & _ & H) _];
    [vm_compute; reflexivity|].
  exists added, ts. exact H.
Defined.


Lemma refresh_keeps_stored_rows_witness :
  exists extra,
    map Db.normalized_name
        (Db.countries (tables (final (exec (fun _ => calm (VArr [nigeria]) rates_payload) 0
                                           world_with_ghana
                                           (Server.refresh (rt := sample_runtime))))))
    = ("ghana" :: extra)%list.
Proof.
  destruct (refresh_keeps_stored_rows (rt := sample_runtime) Server.refresh
              (fun _ => calm (VArr [nigeria]) rates_payload) 0 world_with_ghana
              (or_intror eq_refl)) as [extra H].
  exists extra. exact H.
Defined.

Lemma misnamed_poisoned : poisoned misnamed.
Proof. right. split; [reflexivity|]. split; [discriminate | reflexivity]. Defined.

Lemma malformed_entry_fails_cycle_witness :
  result (exec (fun _ => calm (VArr [nigeria; misnamed]) rates_payload) 0 world_with_ghana
               (App.refresh (rt := sample_runtime))) = internal_error /\
  tables (final (exec (fun _ => calm (VArr [nigeria; misnamed]) rates_payload) 0
                      world_with_ghana (App.refresh (rt := sample_runtime))))
  = tables world_with_ghana.
Proof.
  destruct (malformed_entry_fails_cycle (rt := sample_runtime) App.refresh
              (fun _ => calm (VArr [nigeria; misnamed]) rates_payload) 0 world_with_ghana
              [nigeria; misnamed] rates_payload misnamed
              (or_introl eq_refl) eq_refl eq_refl (or_intror (or_introl eq_refl))
              misnamed_poisoned) as (H1 & _ & H2).
  split; [exact H1 | exact H2].
Defined.

Lemma payload_without_rates_witness :
  rates_of refusal = VObj [] /\
  exists row,
    result (exec (fun _ => calm (VArr [nigeria]) refusal) 0 empty_world
                 (Server.derive (rt := sample_runtime) nigeria (rates_of refusal)))
    = inr (Some row) /\
    Db.exchange_rate row = VNull /\ Db.estimated_gdp row = VNull.
Proof.
  destruct (payload_without_rates (rt := sample_runtime) nigeria refusal
              (fun _ => calm (VArr [nigeria]) refusal) 0 empty_world eq_refl) as [_ H].
  destruct (H eq_refl) as [E Hd]. split; [exact E|].
  destruct (Hd nigeria_qualifies) as [_ Hs]. apply Hs; [reflexivity | discriminate].
Defined.

Lemma later_spelling_overwrites_witness :
  Db.upsert_country ghana_again (Db.upsert_country stored_ghana [])
  = Db.upsert_country ghana_again [].
Proof.
  refine (proj2 (later_spelling_overwrites stored_ghana ghana_again "Ghana" " GHANA " []
                   _ _ eq_refl eq_refl ghana_spelling)).
  - exists "Ghana". split; reflexivity.
  - exists " GHANA ". split; reflexivity.
Defined.

Lemma normalizeName_idempotent_witness :
  normalizeName (VStr "   ") = inr "" /\ normalizeName (of_Z 5) = inl TypeError.
Proof.
  destruct (normalizeName_idempotent "   ") as (_ & _ & _ & Hs & Hv).
  split; [apply Hs; reflexivity | apply Hv; [reflexivity | discriminate]].
Defined.

Lemma deleted_country_is_gone_witness :
  result (exec (fun _ => calm (VArr []) no_rates) 0
               (final (exec (fun _ => calm (VArr []) no_rates) 0 world_with_ghana
                            (delete_country "Ghana")))
               (get_country " GHANA ")) = not_found.
Proof.
  apply (deleted_country_is_gone "Ghana" " GHANA "
           (fun _ => calm (VArr []) no_rates) (fun _ => calm (VArr []) no_rates)
           0 0 world_with_ghana eq_refl eq_refl ghana_spelling).
Defined.


Lemma cycle_is_never_seen_halfway_witness :
  Forall (fun w' =>
            tables w' = tables world_with_ghana \/
            tables w' = tables (final (exec (fun _ => calm (VArr [nigeria]) rates_payload) 0
                                            world_with_ghana
                                            (App.refresh (rt := sample_runtime)))))
         (visited (fun _ => calm (VArr [nigeria]) rates_payload) 0 world_with_ghana
                  (App.refresh (rt := sample_runtime))).
Proof.
  apply (cycle_is_never_seen_halfway (rt := sample_runtime) App.refresh).
  left. reflexivity.
Defined.

Lemma failing_source_is_named_witness :
  result (exec (fun _ => both_down) 0 empty_world (Server.refresh (rt := sample_runtime)))
  = service_unavailable "Exchange Rates API".
Proof.
  destruct (failing_source_is_named (rt := sample_runtime) Server.refresh
              (fun _ => both_down) 0 empty_world (or_intror eq_refl) eq_refl)
    as (_ & _ & H).
  apply (H (JsError "Error") AbortError); reflexivity.
Defined.

